(** * Order execution engine: a shallow embedding and its verified properties

    The development follows the TypeScript sources of the engine:

    - [types/order.ts], [types/dex.ts]      the data model;
    - [services/mockDexRouter.ts]           quote adapters, venue selection,
                                            execution simulator;
    - [services/websocketManager.ts]        the notification fan-out;
    - [services/orderProcessor.ts]          the order lifecycle engine;
    - [routes/orders.ts]                    the submission, status and
                                            cancellation routes;
    - [routes/metrics.ts]                   the health route;
    - [server.ts]                           the error handler of the server;
    - [config/database.ts]                  the relational schema (keys,
                                            column types of [orders]).

    Conventions of the embedding.

    - A finite JavaScript [number] is the rational it denotes ([Q]).  The
      quote adapters and the execution simulator compute on exact
      rationals.  Where the code makes a choice on a computed number (the
      total costs that [selectBestDex] compares) or reads a number of any
      size ([parseInt], the success rate), the operation is the IEEE 754
      one: the exact result rounded to the nearest double, ties to even,
      with gradual underflow and overflow to an infinity ([JsArith.round]);
      its results have the type [jsnum], which also holds [NaN] and the
      infinities.  Signed zeros are not told apart.
    - A number sent to the database is sent as its text, the shortest
      decimal that reads back as the same double ([JsArith.toString]); a
      [DECIMAL] column of [orders] keeps that decimal rounded to its
      scale, and [parseFloat] reads the column back as the nearest double.
    - [Math.random()] is a randomness source [nat -> Q]; the n-th call of a
      method reads index n.
    - Time stamps ([new Date()]) and log output are not part of the model.
    - Asynchronous methods are run-to-completion state transformers; a
      rejected promise is the outcome [Throw]. *)

From Stdlib Require Import ZArith QArith Qround Qabs Qpower String Ascii List.
From Stdlib Require Import Lia Lqa.
From Stdlib Require Import DecimalString DecimalZ.
From stdpp Require Import base option gmap list strings.
Import ListNotations.

Local Open Scope string_scope.

(* ===================================================================== *)
(** ** Numbers *)
(* ===================================================================== *)

Module JsNum.

(** [x > y] on finite numbers. *)
Definition gtb (x y : Q) : bool := negb (Qle_bool x y).

(** The randomness source: successive results of [Math.random()]. *)
Definition RandomSource : Type := nat -> Q.

(** [Math.random()] returns a number in [[0, 1)]. *)
Definition unit_interval (r : Q) : Prop := (0 <= r /\ r < 1)%Q.

End JsNum.

(* ===================================================================== *)
(** ** Numbers of any size: doubles, infinities and [NaN] *)
(* ===================================================================== *)

Inductive jsnum : Type :=
  | NaN
  | PosInfinity
  | NegInfinity
  | Num (q : Q).

Module JsArith.
Import JsNum.

(** [a > b]: false as soon as one side is [NaN]. *)
Definition gt (a b : jsnum) : bool :=
  match a, b with
  | NaN, _ | _, NaN => false
  | PosInfinity, PosInfinity => false
  | PosInfinity, _ => true
  | _, PosInfinity => false
  | NegInfinity, _ => false
  | Num _, NegInfinity => true
  | Num x, Num y => gtb x y
  end.

Definition sign_negative (q : Q) : bool := gtb 0 q.

(** [2^k] *)
Definition pow2 (k : Z) : Q :=
  if (0 <=? k)%Z then inject_Z (2 ^ k) else / inject_Z (2 ^ (- k)).

(** [floor (log2 |x|)] for [x] other than 0. *)
Definition magnitude (x : Q) : Z :=
  let k := (Z.log2 (Z.abs (Qnum x)) - Z.log2 (Zpos (Qden x)))%Z in
  if Qle_bool (pow2 k) (Qabs x) then k else (k - 1)%Z.

(** The nearest integer, a tie going to the even one. *)
Definition round_half_even (x : Q) : Z :=
  let f := Qfloor x in
  match Qcompare (x - inject_Z f) (1 # 2) with
  | Lt => f
  | Gt => (f + 1)%Z
  | Eq => if Z.even f then f else (f + 1)%Z
  end.

(** The double that an exact result is rounded to (IEEE 754 binary64,
    round to nearest, ties to even): 53 significant bits, a least exponent
    of -1022 below which the spacing stays [2^-1074], and an infinity from
    [2^1024] on. *)
Definition round (x : Q) : jsnum :=
  if Qeq_bool x 0 then Num 0
  else
    let e := Z.max (magnitude x) (-1022) in
    let ulp := pow2 (e - 52) in
    let r := (inject_Z (round_half_even (x / ulp)) * ulp)%Q in
    if Qle_bool (pow2 1024) (Qabs r)
    then if sign_negative x then NegInfinity else PosInfinity
    else Num (Qred r).

(** [a + b] *)
Definition add (a b : jsnum) : jsnum :=
  match a, b with
  | NaN, _ | _, NaN => NaN
  | PosInfinity, NegInfinity | NegInfinity, PosInfinity => NaN
  | PosInfinity, _ | _, PosInfinity => PosInfinity
  | NegInfinity, _ | _, NegInfinity => NegInfinity
  | Num x, Num y => round (x + y)
  end.

(** [a / b]: the quotient rounded.  A zero divisor gives an infinity, or
    [NaN] for [0 / 0] (signed zeros are not told apart). *)
Definition div (a b : jsnum) : jsnum :=
  match a, b with
  | NaN, _ | _, NaN => NaN
  | (PosInfinity | NegInfinity), (PosInfinity | NegInfinity) => NaN
  | PosInfinity, Num y => if sign_negative y then NegInfinity else PosInfinity
  | NegInfinity, Num y => if sign_negative y then PosInfinity else NegInfinity
  | Num _, (PosInfinity | NegInfinity) => Num 0
  | Num x, Num y =>
      if Qeq_bool y 0 then
        if Qeq_bool x 0 then NaN
        else if sign_negative x then NegInfinity else PosInfinity
      else round (x / y)
  end.

(** [a * b]: the product rounded. *)
Definition mul (a b : jsnum) : jsnum :=
  match a, b with
  | NaN, _ | _, NaN => NaN
  | PosInfinity, PosInfinity | NegInfinity, NegInfinity => PosInfinity
  | PosInfinity, NegInfinity | NegInfinity, PosInfinity => NegInfinity
  | PosInfinity, Num y | Num y, PosInfinity =>
      if Qeq_bool y 0 then NaN
      else if sign_negative y then NegInfinity else PosInfinity
  | NegInfinity, Num y | Num y, NegInfinity =>
      if Qeq_bool y 0 then NaN
      else if sign_negative y then PosInfinity else NegInfinity
  | Num x, Num y => round (x * y)
  end.

(** [10^k] *)
Definition pow10 (k : Z) : Q :=
  if (0 <=? k)%Z then inject_Z (10 ^ k) else / inject_Z (10 ^ (- k)).

(** [floor (log10 |x|)] for [x] other than 0: the binary logarithms of the
    numerator and the denominator give it within one. *)
Definition magnitude10 (x : Q) : Z :=
  let l := (Z.log2 (Z.abs (Qnum x)) - Z.log2 (Zpos (Qden x)))%Z in
  let k := ((l - 1) * 30103 / 100000)%Z in
  if Qle_bool (pow10 (k + 2)) (Qabs x) then (k + 2)%Z
  else if Qle_bool (pow10 (k + 1)) (Qabs x) then (k + 1)%Z
  else if Qle_bool (pow10 k) (Qabs x) then k
  else (k - 1)%Z.

(** The decimal [d] reads as the double of [x]. *)
Definition reads_as (d x : Q) : bool :=
  match round d, round x with
  | Num a, Num b => Qeq_bool a b
  | _, _ => false
  end.

(** The decimal of [k] significant digits that reads as [x] (positive),
    if there is one: the nearest below or the nearest above, the closer
    of the two when both do, the one of even last digit in a tie. *)
Definition digits (x : Q) (k : Z) : option Q :=
  let unit := pow10 (magnitude10 x + 1 - k) in
  let s := Qfloor (x / unit) in
  let lo := (inject_Z s * unit)%Q in
  let hi := (inject_Z (s + 1) * unit)%Q in
  match reads_as lo x, reads_as hi x with
  | true, true =>
      Some match Qcompare (x - lo) (hi - x) with
           | Lt => lo
           | Gt => hi
           | Eq => if Z.even s then lo else hi
           end
  | true, false => Some lo
  | false, true => Some hi
  | false, false => None
  end.

(** The least number of digits from [k] on that gives such a decimal. *)
Fixpoint shortest (x : Q) (k : Z) (fuel : nat) : Q :=
  match fuel with
  | O => x
  | S fuel' =>
      match digits x k with
      | Some d => d
      | None => shortest x (k + 1) fuel'
      end
  end.

(** [x.toString()], as the decimal that the text denotes: the shortest
    one that reads back as the same double (17 digits always do). *)
Definition toString (x : Q) : Q :=
  if Qeq_bool x 0 then 0
  else if sign_negative x then Qred (- shortest (- x) 1 17)
  else Qred (shortest x 1 17).

(** [parseFloat(s)], on the text of the decimal [d]: the nearest double. *)
Definition parseFloat (d : Q) : jsnum := round d.

(** The number that a decimal literal of the program text denotes: the
    nearest double (no literal of the sources is out of range). *)
Definition literal (d : Q) : Q :=
  match round d with
  | Num x => x
  | _ => d
  end.

(** White space that [parseInt] skips (the one-byte characters). *)
Definition is_white_space (c : ascii) : bool :=
  let n := nat_of_ascii c in
  ((9 <=? n)%nat && (n <=? 13)%nat || (n =? 32)%nat)%bool.

Fixpoint skip_white_space (s : string) : string :=
  match s with
  | String c rest => if is_white_space c then skip_white_space rest else s
  | EmptyString => s
  end.

(** The value of a digit in radix up to 36. *)
Definition digit_value (c : ascii) : option Z :=
  let n := Z.of_nat (nat_of_ascii c) in
  if ((48 <=? n) && (n <=? 57))%Z%bool then Some (n - 48)%Z
  else if ((97 <=? n) && (n <=? 122))%Z%bool then Some (n - 87)%Z
  else if ((65 <=? n) && (n <=? 90))%Z%bool then Some (n - 55)%Z
  else None.

(** The longest prefix of digits of the radix; [None] when it is empty. *)
Fixpoint parse_digits (radix : Z) (s : string) (acc : option Z) : option Z :=
  match s with
  | EmptyString => acc
  | String c rest =>
      match digit_value c with
      | Some d =>
          if (d <? radix)%Z
          then parse_digits radix rest
                 (Some (radix * match acc with Some a => a | None => 0 end
                        + d)%Z)
          else acc
      | None => acc
      end
  end.

(** The sign of the numeral and the text after it. *)
Definition strip_sign (s : string) : Z * string :=
  match s with
  | String c rest =>
      if Ascii.eqb c "-" then ((-1)%Z, rest)
      else if Ascii.eqb c "+" then (1%Z, rest)
      else (1%Z, s)
  | EmptyString => (1%Z, s)
  end.

(** The radix of the numeral ([0x] and [0X] select 16) and its digits. *)
Definition strip_radix_prefix (s : string) : Z * string :=
  match s with
  | String c0 (String c1 rest) =>
      if (Ascii.eqb c0 "0" && (Ascii.eqb c1 "x" || Ascii.eqb c1 "X"))%bool
      then (16%Z, rest)
      else (10%Z, s)
  | _ => (10%Z, s)
  end.

(** [parseInt(s)] with no radix argument: the integer that the digits
    denote, as a number (rounded when it has more than 53 significant
    bits, an infinity when it is out of range).  The rounding is the
    correct one, as V8 computes it; the language lets an implementation
    read the decimal digits after the twentieth as zeros. *)
Definition parseInt (s : string) : jsnum :=
  let '(sign, s2) := strip_sign (skip_white_space s) in
  let '(radix, s3) := strip_radix_prefix s2 in
  match parse_digits radix s3 None with
  | Some n => round (inject_Z (sign * n))
  | None => NaN
  end.

(** [value || '0'] on the answer of [redis.get]: [null] and the empty
    string are falsy. *)
Definition or_zero (value : option string) : string :=
  match value with
  | None => "0"
  | Some EmptyString => "0"
  | Some s => s
  end.

End JsArith.

(* ===================================================================== *)
(** ** Data model: types/order.ts and types/dex.ts *)
(* ===================================================================== *)

Inductive OrderType : Type := market | limit | sniper.

(** [OrderStatus] as declared in types/order.ts.  The durable store keeps a
    status as text; the cancellation route writes the further text
    ['cancelled'] there. *)
Inductive OrderStatus : Type :=
  pending | routing | building | submitted | confirmed | failed.

Definition status_text (s : OrderStatus) : string :=
  match s with
  | pending => "pending"
  | routing => "routing"
  | building => "building"
  | submitted => "submitted"
  | confirmed => "confirmed"
  | failed => "failed"
  end.

Inductive DexName : Type := raydium | meteora.

Definition DexName_eqb (a b : DexName) : bool :=
  match a, b with
  | raydium, raydium | meteora, meteora => true
  | _, _ => false
  end.

Definition dex_text (d : DexName) : string :=
  match d with raydium => "raydium" | meteora => "meteora" end.

Record ExecutionData : Type := mkExecutionData {
  ed_txHash : option string;
  ed_executedPrice : option Q;
  ed_dex : option string;
  ed_gasUsed : option Q;
  ed_error : option string
}.

(** An order, also as a row of [orders]: [status] is the text of the
    [status] column. *)
Record Order : Type := mkOrder {
  id : string;
  type : OrderType;
  tokenIn : string;
  tokenOut : string;
  amountIn : Q;
  slippage : Q;
  status : string;
  executionData : option ExecutionData;
  userId : option string
}.

Record DexQuote : Type := mkDexQuote {
  dex : DexName;
  price : Q;
  fee : Q;
  liquidity : Q;
  estimatedGas : Q;
  amountOut : Q;
  priceImpact : Q
}.

Record SwapResult : Type := mkSwapResult {
  sr_txHash : string;
  sr_executedPrice : Q;
  sr_gasUsed : Q;
  sr_slippageImpact : Q;
  sr_dex : DexName
}.

(** The justification text of a decision interpolates numbers printed with
    [toFixed]; the embedding keeps the sentence and its two numbers apart. *)
Inductive Reason : Type :=
  | BetterTotalCost (winner : DexName) (winnerCost loserCost : jsnum)
  | EqualCostsHigherLiquidity (winner : DexName) (winnerLiq loserLiq : Q).

Record RoutingDecision : Type := mkRoutingDecision {
  rd_dex : DexName;
  rd_price : Q;
  rd_fee : Q;
  rd_estimatedGas : Q;
  rd_reason : Reason;
  rd_alternatives : list DexQuote
}.

(* ===================================================================== *)
(** ** services/mockDexRouter.ts *)
(* ===================================================================== *)

Module MockDexRouter.
Import JsNum.
Local Open Scope Q_scope.

Definition basePrice : Q := 100.

(** [getRaydiumQuote]: draws 0 (delay), 1 (price variance), 2 (liquidity). *)
Definition getRaydiumQuote (rnd : RandomSource)
    (tokenIn tokenOut : string) (amount : Q) : DexQuote :=
  let delay := 150 + rnd 0%nat * 100 in
  let priceVariance := 0.98 + rnd 1%nat * 0.04 in
  let price := basePrice * priceVariance in
  let fee := 0.0025 in
  let amountOut := amount * price * (1 - fee) in
  let priceImpact := (amount / 1000000) * 0.1 in
  {| dex := raydium;
     price := price;
     fee := fee;
     liquidity := 1000000 + rnd 2%nat * 500000;
     estimatedGas := 0.0001;
     amountOut := amountOut;
     priceImpact := priceImpact |}.

(** [getMeteorQuote]: draws 0 (delay), 1 (price variance), 2 (liquidity). *)
Definition getMeteorQuote (rnd : RandomSource)
    (tokenIn tokenOut : string) (amount : Q) : DexQuote :=
  let delay := 180 + rnd 0%nat * 120 in
  let priceVariance := 0.97 + rnd 1%nat * 0.06 in
  let price := basePrice * priceVariance in
  let fee := 0.002 in
  let amountOut := amount * price * (1 - fee) in
  let priceImpact := (amount / 800000) * 0.08 in
  {| dex := meteora;
     price := price;
     fee := fee;
     liquidity := 800000 + rnd 2%nat * 400000;
     estimatedGas := 0.00008;
     amountOut := amountOut;
     priceImpact := priceImpact |}.

Definition selectBestDex (raydiumQuote meteoraQuote : DexQuote)
    (amount : Q) : RoutingDecision :=
  let alternatives := [raydiumQuote; meteoraQuote] in
  let raydiumEffectivePrice :=
    JsArith.mul (Num (price raydiumQuote))
      (JsArith.add (Num 1) (Num (fee raydiumQuote))) in
  let meteoraEffectivePrice :=
    JsArith.mul (Num (price meteoraQuote))
      (JsArith.add (Num 1) (Num (fee meteoraQuote))) in
  let raydiumTotalCost :=
    JsArith.add (Num (amountOut raydiumQuote))
      (Num (estimatedGas raydiumQuote)) in
  let meteoraTotalCost :=
    JsArith.add (Num (amountOut meteoraQuote))
      (Num (estimatedGas meteoraQuote)) in
  let '(selectedDex, reason) :=
    if JsArith.gt raydiumTotalCost meteoraTotalCost then
      (meteora, BetterTotalCost meteora meteoraTotalCost raydiumTotalCost)
    else if JsArith.gt meteoraTotalCost raydiumTotalCost then
      (raydium, BetterTotalCost raydium raydiumTotalCost meteoraTotalCost)
    else if gtb (liquidity raydiumQuote) (liquidity meteoraQuote) then
      (raydium, EqualCostsHigherLiquidity raydium
                  (liquidity raydiumQuote) (liquidity meteoraQuote))
    else
      (meteora, EqualCostsHigherLiquidity meteora
                  (liquidity meteoraQuote) (liquidity raydiumQuote)) in
  let selectedQuote :=
    if DexName_eqb selectedDex raydium then raydiumQuote else meteoraQuote in
  {| rd_dex := selectedDex;
     rd_price := price selectedQuote;
     rd_fee := fee selectedQuote;
     rd_estimatedGas := estimatedGas selectedQuote;
     rd_reason := reason;
     rd_alternatives := alternatives |}.

(** [Math.floor(r * 16).toString(16)] *)
Definition hexDigit (r : Q) : ascii :=
  match Qfloor (r * 16) with
  | 0%Z => "0" | 1%Z => "1" | 2%Z => "2" | 3%Z => "3"
  | 4%Z => "4" | 5%Z => "5" | 6%Z => "6" | 7%Z => "7"
  | 8%Z => "8" | 9%Z => "9" | 10%Z => "a" | 11%Z => "b"
  | 12%Z => "c" | 13%Z => "d" | 14%Z => "e" | _ => "f"
  end%char.

(** [generateMockTxHash], reading 64 draws from index [from]. *)
Definition generateMockTxHash (rnd : RandomSource) (from : nat) : string :=
  string_of_list_ascii
    (List.map (fun i => hexDigit (rnd (from + i)%nat)) (seq 0 64)).

(** [executeSwap]: draws 0 (delay), 1 (slippage), 2..65 (the hash). *)
Definition executeSwap (rnd : RandomSource) (dex : DexName)
    (order : Order) : SwapResult :=
  let delay := 2000 + rnd 0%nat * 1000 in
  let slippageImpact := 1 - (rnd 1%nat * slippage order) in
  let executedPrice := basePrice * slippageImpact in
  let gasUsed := if DexName_eqb dex raydium then 0.0001 else 0.00008 in
  {| sr_txHash := generateMockTxHash rnd 2;
     sr_executedPrice := executedPrice;
     sr_gasUsed := gasUsed;
     sr_slippageImpact := slippageImpact;
     sr_dex := dex |}.

End MockDexRouter.

(* ===================================================================== *)
(** ** Exceptions and outcomes *)
(* ===================================================================== *)

(** A thrown value: an [Error] instance with its message, or anything else. *)
Inductive Exn : Type :=
  | Error (message : string)
  | NonError (value : string).

(** [error instanceof Error ? error.message : 'Unknown error'] *)
Definition error_message (e : Exn) : string :=
  match e with
  | Error m => m
  | NonError _ => "Unknown error"
  end.

Inductive Outcome (A : Type) : Type :=
  | Ok (a : A)
  | Throw (e : Exn).
Arguments Ok {A} a.
Arguments Throw {A} e.

(* ===================================================================== *)
(** ** JavaScript [Map<string, V>]: insertion-ordered, one entry per key *)
(* ===================================================================== *)

Module JsMap.
Section WithValue.
Context {V : Type}.

Fixpoint get (k : string) (m : list (string * V)) : option V :=
  match m with
  | [] => None
  | (k', v) :: rest => if String.eqb k k' then Some v else get k rest
  end.

(** [set] keeps the position of an existing key and appends a new one. *)
Fixpoint set (k : string) (v : V) (m : list (string * V))
    : list (string * V) :=
  match m with
  | [] => [(k, v)]
  | (k', v') :: rest =>
      if String.eqb k k' then (k', v) :: rest
      else (k', v') :: set k v rest
  end.

Definition delete (k : string) (m : list (string * V))
    : list (string * V) :=
  List.filter (fun kv => negb (String.eqb k (fst kv))) m.

Definition has (k : string) (m : list (string * V)) : bool :=
  match get k m with Some _ => true | None => false end.

End WithValue.
End JsMap.

(* ===================================================================== *)
(** ** services/websocketManager.ts *)
(* ===================================================================== *)

(** A client socket.  [send_throws] and [close_throws] say how the
    transport answers [socket.send] and [socket.close]. *)
Record SocketStream : Type := mkSocket {
  socket_id : nat;
  send_throws : bool;
  close_throws : bool
}.

Record WebSocketConnection : Type := mkConnection {
  conn_orderId : string;
  conn_socket : SocketStream
}.

Record WebSocketMessage : Type := mkMessage {
  msg_orderId : string;
  msg_status : string;
  msg_data : option ExecutionData
}.

(** [Omit<WebSocketMessage, 'orderId'>] *)
Record BroadcastMessage : Type := mkBroadcast {
  bm_status : string;
  bm_data : option ExecutionData
}.

(** The text handed to [socket.send]: [JSON.stringify] of either message. *)
Inductive Frame : Type :=
  | FrameOf (m : WebSocketMessage)
  | BroadcastFrameOf (m : BroadcastMessage).

(** The manager: its [connections] map, and the record of every call of
    [socket.send] (socket and frame, oldest first) and [socket.close]. *)
Record WebSocketManager : Type := mkManager {
  connections : list (string * WebSocketConnection);
  send_calls : list (nat * Frame);
  close_calls : list nat
}.

Module WsManager.

Definition empty : WebSocketManager :=
  {| connections := []; send_calls := []; close_calls := [] |}.

Definition with_connections (c : list (string * WebSocketConnection))
    (ws : WebSocketManager) : WebSocketManager :=
  {| connections := c;
     send_calls := send_calls ws;
     close_calls := close_calls ws |}.

(** [connection.socket.socket.send(messageStr)] *)
Definition socket_send (connection : WebSocketConnection) (f : Frame)
    (ws : WebSocketManager) : Outcome unit * WebSocketManager :=
  let ws' := {| connections := connections ws;
                send_calls := send_calls ws
                                ++ [(socket_id (conn_socket connection), f)];
                close_calls := close_calls ws |} in
  if send_throws (conn_socket connection)
  then (Throw (Error "Send error"), ws')
  else (Ok tt, ws').

(** [connection.socket.socket.close()] *)
Definition socket_close (connection : WebSocketConnection)
    (ws : WebSocketManager) : Outcome unit * WebSocketManager :=
  let ws' := {| connections := connections ws;
                send_calls := send_calls ws;
                close_calls := close_calls ws
                                 ++ [socket_id (conn_socket connection)] |} in
  if close_throws (conn_socket connection)
  then (Throw (Error "Close error"), ws')
  else (Ok tt, ws').

Definition sendMessage (orderId : string) (message : WebSocketMessage)
    (ws : WebSocketManager) : WebSocketManager :=
  match JsMap.get orderId (connections ws) with
  | None => ws
  | Some connection =>
      match socket_send connection (FrameOf message) ws with
      | (Ok _, ws') => ws'
      | (Throw _, ws') =>
          with_connections (JsMap.delete orderId (connections ws')) ws'
      end
  end.

Definition emitToOrder (orderId : string) (status : string)
    (data : option ExecutionData) (ws : WebSocketManager)
    : WebSocketManager :=
  let message := {| msg_orderId := orderId;
                    msg_status := status;
                    msg_data := data |} in
  sendMessage orderId message ws.

(** The body of the [for ... of this.connections] loop of [broadcast].
    Only the entry being visited is ever deleted, so the live iterator
    visits exactly the entries present when the loop starts. *)
Fixpoint broadcast_loop (entries : list (string * WebSocketConnection))
    (messageStr : Frame) (ws : WebSocketManager) : WebSocketManager :=
  match entries with
  | [] => ws
  | (orderId, connection) :: rest =>
      let ws1 :=
        match socket_send connection messageStr ws with
        | (Ok _, ws') => ws'
        | (Throw _, ws') =>
            with_connections (JsMap.delete orderId (connections ws')) ws'
        end in
      broadcast_loop rest messageStr ws1
  end.

Definition broadcast (message : BroadcastMessage) (ws : WebSocketManager)
    : WebSocketManager :=
  let messageStr := BroadcastFrameOf message in
  broadcast_loop (connections ws) messageStr ws.

(** [handleWebSocketConnection]: register, then confirm the connection. *)
Definition handleWebSocketConnection (orderId : string)
    (socket : SocketStream) (ws : WebSocketManager) : WebSocketManager :=
  let connection := {| conn_orderId := orderId; conn_socket := socket |} in
  let ws1 := with_connections
               (JsMap.set orderId connection (connections ws)) ws in
  sendMessage orderId
    {| msg_orderId := orderId; msg_status := "connected";
       msg_data := None |} ws1.

(** The ['close'] and ['error'] handlers of a registered socket. *)
Definition on_close (orderId : string) (ws : WebSocketManager)
    : WebSocketManager :=
  with_connections (JsMap.delete orderId (connections ws)) ws.

Definition on_error (orderId : string) (ws : WebSocketManager)
    : WebSocketManager :=
  with_connections (JsMap.delete orderId (connections ws)) ws.

Fixpoint close_loop (entries : list (string * WebSocketConnection))
    (ws : WebSocketManager) : WebSocketManager :=
  match entries with
  | [] => ws
  | (_, connection) :: rest =>
      close_loop rest (snd (socket_close connection ws))
  end.

Definition closeAllConnections (ws : WebSocketManager) : WebSocketManager :=
  with_connections [] (close_loop (connections ws) ws).

Definition hasConnection (orderId : string) (ws : WebSocketManager) : bool :=
  JsMap.has orderId (connections ws).

(** [getConnectionStats]: the count and the order ids, in map order. *)
Definition getConnectionStats (ws : WebSocketManager) : nat * list string :=
  (List.length (connections ws), List.map fst (connections ws)).

End WsManager.

(* ===================================================================== *)
(** ** The stores: config/database.ts *)
(* ===================================================================== *)

(** The Redis hash kept under [order:<id>]. *)
Record OrderHash : Type := mkOrderHash {
  h_status : string;
  h_executionData : option ExecutionData
}.

(** The [data] column of [order_events]. *)
Inductive EventData : Type :=
  | ExecutionPayload (d : ExecutionData)
  | ReasonPayload (reason : string).

(** A row of [order_events]. *)
Record OrderEvent : Type := mkOrderEvent {
  ev_order_id : string;
  ev_status : string;
  ev_data : option EventData
}.

(** A row of [routing_decisions]. *)
Record RoutingDecisionRow : Type := mkRoutingDecisionRow {
  rr_order_id : string;
  rr_selected_dex : DexName;
  rr_price : Q;
  rr_fee : Q;
  rr_reason : Reason;
  rr_alternatives : list DexQuote
}.

(** A job of the [order-execution] queue. *)
Record Job : Type := mkJob {
  job_id : string;
  job_name : string;
  job_data : Order
}.

(** Everything the engine reads and writes.

    - [cache_hashes], [cache_strings]: the Redis keys holding hashes
      ([order:<id>]) and strings ([stats:...]); the two key families never
      collide, so they are kept as two maps.
    - [orders]: the [orders] table by primary key; [order_events] and
      [routing_decisions]: append-only tables, oldest row first.
    - [queue]: the jobs of the queue, oldest first.
    - [ws]: the notification fan-out.
    - [faults]: the script of the environment for the coming calls to Redis,
      PostgreSQL and the queue: [Some e] makes the next call reject with [e]
      and have no effect, [None] (or an exhausted script) lets it proceed. *)
Record World : Type := mkWorld {
  cache_hashes : gmap string OrderHash;
  cache_strings : gmap string string;
  orders : gmap string Order;
  order_events : list OrderEvent;
  routing_decisions : list RoutingDecisionRow;
  queue : list Job;
  ws : WebSocketManager;
  faults : list (option Exn)
}.

Definition set_cache_hashes (x : gmap string OrderHash) (w : World) : World :=
  mkWorld x (cache_strings w) (orders w) (order_events w)
          (routing_decisions w) (queue w) (ws w) (faults w).

Definition set_cache_strings (x : gmap string string) (w : World) : World :=
  mkWorld (cache_hashes w) x (orders w) (order_events w)
          (routing_decisions w) (queue w) (ws w) (faults w).

Definition set_orders (x : gmap string Order) (w : World) : World :=
  mkWorld (cache_hashes w) (cache_strings w) x (order_events w)
          (routing_decisions w) (queue w) (ws w) (faults w).

Definition set_order_events (x : list OrderEvent) (w : World) : World :=
  mkWorld (cache_hashes w) (cache_strings w) (orders w) x
          (routing_decisions w) (queue w) (ws w) (faults w).

Definition set_routing_decisions (x : list RoutingDecisionRow) (w : World)
    : World :=
  mkWorld (cache_hashes w) (cache_strings w) (orders w) (order_events w)
          x (queue w) (ws w) (faults w).

Definition set_queue (x : list Job) (w : World) : World :=
  mkWorld (cache_hashes w) (cache_strings w) (orders w) (order_events w)
          (routing_decisions w) x (ws w) (faults w).

Definition set_ws (x : WebSocketManager) (w : World) : World :=
  mkWorld (cache_hashes w) (cache_strings w) (orders w) (order_events w)
          (routing_decisions w) (queue w) x (faults w).

Definition set_faults (x : list (option Exn)) (w : World) : World :=
  mkWorld (cache_hashes w) (cache_strings w) (orders w) (order_events w)
          (routing_decisions w) (queue w) (ws w) x.

Definition empty_world : World :=
  mkWorld ∅ ∅ ∅ [] [] [] WsManager.empty [].

(* ===================================================================== *)
(** ** Asynchronous code: state and exceptions *)
(* ===================================================================== *)

Definition M (A : Type) : Type := World -> Outcome A * World.

Definition ret {A : Type} (a : A) : M A := fun w => (Ok a, w).

Definition throw {A : Type} (e : Exn) : M A := fun w => (Throw e, w).

Definition bind {A B : Type} (m : M A) (k : A -> M B) : M B :=
  fun w =>
    match m w with
    | (Ok a, w') => k a w'
    | (Throw e, w') => (Throw e, w')
    end.

(** [try { body } catch (error) { handler }]: what [body] did before it
    threw stays done. *)
Definition try_catch {A : Type} (body : M A) (handler : Exn -> M A) : M A :=
  fun w =>
    match body w with
    | (Ok a, w') => (Ok a, w')
    | (Throw e, w') => handler e w'
    end.

(** A value or rejection computed without touching the stores. *)
Definition lift {A : Type} (o : Outcome A) : M A := fun w => (o, w).

(** A call that leaves the process: the environment may make it reject. *)
Definition external {A : Type} (call : M A) : M A :=
  fun w =>
    match faults w with
    | Some e :: rest => (Throw e, set_faults rest w)
    | None :: rest => call (set_faults rest w)
    | [] => call w
    end.

(** [Promise.all]: every call is issued; the result rejects with the
    rejection of the earliest failing call of the list. *)
Fixpoint promise_all {A : Type} (calls : list (M A)) : M (list A) :=
  match calls with
  | [] => ret []
  | c :: rest =>
      fun w =>
        match c w with
        | (Ok a, w1) =>
            match promise_all rest w1 with
            | (Ok l, w2) => (Ok (a :: l), w2)
            | (Throw e, w2) => (Throw e, w2)
            end
        | (Throw e, w1) => (Throw e, snd (promise_all rest w1))
        end
  end.

Declare Scope engine_scope.
Delimit Scope engine_scope with engine.
Notation "x <- m ;; k" := (bind m (fun x => k))
  (at level 100, m at next level, right associativity) : engine_scope.
Notation "m ;;; k" := (bind m (fun _ => k))
  (at level 100, right associativity) : engine_scope.
Local Open Scope engine_scope.

(* ===================================================================== *)
(** ** Redis, PostgreSQL and the queue as the engine calls them *)
(* ===================================================================== *)

Module Redis.

(** Decimal text of an integer, as Redis stores a counter. *)
Definition ll2string (z : Z) : string := NilZero.string_of_int (Z.to_int z).

Definition LLONG_MAX : Z := 9223372036854775807.
Definition LLONG_MIN : Z := -9223372036854775808.

(** Redis reads a counter only from the canonical decimal text of a
    64-bit signed integer. *)
Definition string2ll (s : string) : option Z :=
  match NilZero.int_of_string s with
  | Some i =>
      let z := Z.of_int i in
      if (String.eqb (ll2string z) s && (LLONG_MIN <=? z)%Z
          && (z <=? LLONG_MAX)%Z)%bool
      then Some z else None
  | None => None
  end.

(** [HSET key status <status> updatedAt <now> [executionData <json>]]:
    the named fields are written, the others keep their value. *)
Definition hset (key : string) (status : string)
    (data : option ExecutionData) : M unit :=
  external (fun w =>
    let kept := match cache_hashes w !! key with
                | Some h => h_executionData h
                | None => None
                end in
    let h := {| h_status := status;
                h_executionData := match data with
                                   | Some d => Some d
                                   | None => kept
                                   end |} in
    (Ok tt, set_cache_hashes (<[key := h]> (cache_hashes w)) w)).

(** [GET key] *)
Definition get (key : string) : M (option string) :=
  external (fun w => (Ok (cache_strings w !! key), w)).

(** [INCR key] *)
Definition incr (key : string) : M Z :=
  external (fun w =>
    let current := match cache_strings w !! key with
                   | Some s => string2ll s
                   | None => Some 0%Z
                   end in
    match current with
    | Some n =>
        if (n <? LLONG_MAX)%Z
        then (Ok (n + 1)%Z,
              set_cache_strings
                (<[key := ll2string (n + 1)]> (cache_strings w)) w)
        else (Throw (Error "ERR increment or decrement would overflow"), w)
    | None =>
        (Throw (Error "ERR value is not an integer or out of range"), w)
    end).

End Redis.

Module Pg.

Definition set_status_data (status : string) (data : option ExecutionData)
    (o : Order) : Order :=
  mkOrder (id o) (type o) (tokenIn o) (tokenOut o) (amountIn o)
          (slippage o) status data (userId o).

Definition set_status (status : string) (o : Order) : Order :=
  mkOrder (id o) (type o) (tokenIn o) (tokenOut o) (amountIn o)
          (slippage o) status (executionData o) (userId o).

(** The nearest integer, a tie going away from zero. *)
Definition round_half_away (x : Q) : Z :=
  if Qle_bool 0 x then Qfloor (x + (1 # 2))
  else (- Qfloor (- x + (1 # 2)))%Z.

(** What a column [DECIMAL(precision, scale)] keeps of a value: the value
    rounded to [scale] decimals; nothing when the rounded value needs more
    than [precision] digits. *)
Definition numeric (precision scale : Z) (x : Q) : option Q :=
  let n := round_half_away (x * inject_Z (10 ^ scale)) in
  if (Z.abs n <? 10 ^ precision)%Z
  then Some (Qred (inject_Z n / inject_Z (10 ^ scale)))
  else None.

(** A text fits a column [VARCHAR(n)] (one-byte characters). *)
Definition varchar (n : nat) (s : string) : bool :=
  (String.length s <=? n)%nat.

Definition value_too_long (n : string) : Exn :=
  Error ("value too long for type character varying(" ++ n ++ ")").

Definition numeric_field_overflow : Exn := Error "numeric field overflow".

(** The row that [INSERT INTO orders (id, type, token_in, token_out,
    amount_in, slippage, status, user_id)] stores for an order, the
    columns being coerced in this order to [VARCHAR(255)], [VARCHAR(50)],
    [VARCHAR(255)], [VARCHAR(255)], [DECIMAL(20, 8)], [DECIMAL(5, 4)],
    [VARCHAR(50)] and [VARCHAR(255)]; or the error of the first column
    that refuses its value.  The two numbers arrive as their texts.  The
    three type names fit their column; [execution_data] is not among the
    columns and stays null. *)
Definition order_row (order : Order) : Outcome Order :=
  if negb (varchar 255 (id order)) then Throw (value_too_long "255")
  else if negb (varchar 255 (tokenIn order)) then
    Throw (value_too_long "255")
  else if negb (varchar 255 (tokenOut order)) then
    Throw (value_too_long "255")
  else
    match numeric 20 8 (JsArith.toString (amountIn order)) with
    | None => Throw numeric_field_overflow
    | Some amount_in =>
        match numeric 5 4 (JsArith.toString (slippage order)) with
        | None => Throw numeric_field_overflow
        | Some slippage_ =>
            if negb (varchar 50 (status order)) then
              Throw (value_too_long "50")
            else if negb (match userId order with
                          | Some u => varchar 255 u
                          | None => true
                          end) then
              Throw (value_too_long "255")
            else
              Ok (mkOrder (id order) (type order) (tokenIn order)
                    (tokenOut order) amount_in slippage_ (status order)
                    None (userId order))
        end
    end.

(** [INSERT INTO orders (...) VALUES (...)]; [id] is the primary key. *)
Definition insert_order (order : Order) : M unit :=
  external (fun w =>
    match order_row order with
    | Throw e => (Throw e, w)
    | Ok row =>
        match orders w !! id order with
        | Some _ =>
            (Throw (Error
               "duplicate key value violates unique constraint orders_pkey"),
             w)
        | None => (Ok tt, set_orders (<[id order := row]> (orders w)) w)
        end
    end).

(** [UPDATE orders SET status = $1, updated_at = $2, execution_data = $3
     WHERE id = $4] *)
Definition update_status_data (status : string)
    (data : option ExecutionData) (orderId : string) : M unit :=
  external (fun w =>
    (Ok tt,
     set_orders (alter (set_status_data status data) orderId (orders w)) w)).

(** [UPDATE orders SET status = $1, updated_at = $2 WHERE id = $3] *)
Definition update_status (status : string) (orderId : string) : M unit :=
  external (fun w =>
    (Ok tt, set_orders (alter (set_status status) orderId (orders w)) w)).

(** [INSERT INTO order_events (order_id, status, data) VALUES ($1, $2, $3)];
    [order_id] references [orders(id)]. *)
Definition insert_event (orderId status : string)
    (data : option EventData) : M unit :=
  external (fun w =>
    match orders w !! orderId with
    | None =>
        (Throw (Error
           "insert on table order_events violates foreign key constraint"),
         w)
    | Some _ =>
        (Ok tt,
         set_order_events
           (order_events w
              ++ [{| ev_order_id := orderId; ev_status := status;
                     ev_data := data |}]) w)
    end).

(** [INSERT INTO routing_decisions (...)]; [order_id] references
    [orders(id)].  The row is recorded with the values that the statement
    sends: the engine never reads this table, whose columns
    [DECIMAL(20, 8)] and [DECIMAL(10, 8)] keep 8 decimals of a price below
    [10^12] and of a fee below 100, as the quotes of the two venues
    have. *)
Definition insert_routing_decision (row : RoutingDecisionRow) : M unit :=
  external (fun w =>
    match orders w !! rr_order_id row with
    | None =>
        (Throw (Error
           "insert on table routing_decisions violates foreign key constraint"),
         w)
    | Some _ =>
        (Ok tt, set_routing_decisions (routing_decisions w ++ [row]) w)
    end).

(** [SELECT * FROM orders WHERE id = $1] *)
Definition select_order (orderId : string) : M (list Order) :=
  external (fun w =>
    (Ok match orders w !! orderId with Some o => [o] | None => [] end, w)).

(** [SELECT * FROM order_events WHERE order_id = $1 ORDER BY timestamp ASC] *)
Definition select_events (orderId : string) : M (list OrderEvent) :=
  external (fun w =>
    (Ok (List.filter (fun e => String.eqb (ev_order_id e) orderId)
           (order_events w)), w)).

End Pg.

Module JobQueue.

Definition has_job (jobId : string) (q : list Job) : bool :=
  existsb (fun j => String.eqb jobId (job_id j)) q.

(** Modelled from the spec: the queue of the Job Runner ([queue.add] of the
    queue library), which is not part of the sources.  A task is keyed by
    its job id, and adding a task whose id is already in the queue creates
    no second task. *)
Definition add (name : string) (data : Order) (jobId : string) : M unit :=
  external (fun w =>
    if has_job jobId (queue w) then (Ok tt, w)
    else (Ok tt,
          set_queue (queue w ++ [{| job_id := jobId; job_name := name;
                                    job_data := data |}]) w)).

End JobQueue.

(* ===================================================================== *)
(** ** services/orderProcessor.ts *)
(* ===================================================================== *)

(** What the processor calls on its [dexRouter].  Production wires
    [MockDexRouter]; the unit tests wire rejecting doubles. *)
Record DexRouter : Type := mkDexRouter {
  r_getRaydiumQuote : string -> string -> Q -> Outcome DexQuote;
  r_getMeteorQuote : string -> string -> Q -> Outcome DexQuote;
  r_selectBestDex : DexQuote -> DexQuote -> Q -> Outcome RoutingDecision;
  r_executeSwap : DexName -> Order -> Outcome SwapResult
}.

(** The production router, on three randomness sources. *)
Definition mockDexRouter (rndR rndM rndX : JsNum.RandomSource) : DexRouter :=
  {| r_getRaydiumQuote := fun i o a => Ok (MockDexRouter.getRaydiumQuote rndR i o a);
     r_getMeteorQuote := fun i o a => Ok (MockDexRouter.getMeteorQuote rndM i o a);
     r_selectBestDex := fun r m a => Ok (MockDexRouter.selectBestDex r m a);
     r_executeSwap := fun d o => Ok (MockDexRouter.executeSwap rndX d o) |}.

Record Metrics : Type := mkMetrics {
  totalOrders : jsnum;
  successfulOrders : jsnum;
  failedOrders : jsnum;
  raydiumRouted : jsnum;
  meteoraRouted : jsnum;
  successRate : jsnum
}.

Module OrderProcessor.

(** [this.wsManager.emitToOrder(orderId, status, data)] *)
Definition emitToOrder (orderId status : string)
    (data : option ExecutionData) : M unit :=
  fun w => (Ok tt, set_ws (WsManager.emitToOrder orderId status data (ws w)) w).

Definition updateOrderStatus (orderId : string) (status : OrderStatus)
    (data : option ExecutionData) : M unit :=
  try_catch
    (let orderKey := "order:" ++ orderId in
     Redis.hset orderKey (status_text status) data ;;;
     Pg.update_status_data (status_text status) data orderId ;;;
     Pg.insert_event orderId (status_text status)
       (option_map ExecutionPayload data) ;;;
     emitToOrder orderId (status_text status) data)
    (fun error => throw error).

Definition persistOrder (order : Order) : M unit :=
  Pg.insert_order order.

Definition persistRoutingDecision (orderId : string)
    (decision : RoutingDecision) : M unit :=
  Pg.insert_routing_decision
    {| rr_order_id := orderId;
       rr_selected_dex := rd_dex decision;
       rr_price := rd_price decision;
       rr_fee := rd_fee decision;
       rr_reason := rd_reason decision;
       rr_alternatives := rd_alternatives decision |}.

Definition updateMetrics (dex : string) (success : bool) : M unit :=
  Redis.incr "stats:total_orders" ;;;
  if success then
    Redis.incr "stats:successful_orders" ;;;
    match dex with
    | EmptyString => ret tt
    | _ => Redis.incr ("stats:" ++ dex ++ "_routed") ;;; ret tt
    end
  else
    Redis.incr "stats:failed_orders" ;;; ret tt.

Definition submitOrder (order : Order) : M unit :=
  try_catch
    (persistOrder order ;;;
     JobQueue.add "execute-order" order (id order) ;;;
     updateOrderStatus (id order) pending None)
    (fun error => throw error).

(** [simulateDelay(ms)]: time passes, nothing else. *)
Definition simulateDelay (ms : Z) : M unit := ret tt.

Section WithRouter.
Variable dexRouter : DexRouter.

(** [Promise.all([getRaydiumQuote(...), getMeteorQuote(...)])] *)
Definition quotes (order : Order) : M (DexQuote * DexQuote) :=
  l <- promise_all
         [lift (r_getRaydiumQuote dexRouter (tokenIn order)
                  (tokenOut order) (amountIn order));
          lift (r_getMeteorQuote dexRouter (tokenIn order)
                  (tokenOut order) (amountIn order))] ;;
  match l with
  | [raydiumQuote; meteoraQuote] => ret (raydiumQuote, meteoraQuote)
  | _ => throw (NonError "unreachable")
  end.

(** The [try] block of [processOrder]. *)
Definition processOrder_try (order : Order) : M ExecutionData :=
  updateOrderStatus (id order) routing None ;;;
  qs <- quotes order ;;
  let '(raydiumQuote, meteoraQuote) := qs in
  routingDecision <- lift (r_selectBestDex dexRouter raydiumQuote
                             meteoraQuote (amountIn order)) ;;
  persistRoutingDecision (id order) routingDecision ;;;
  updateOrderStatus (id order) building None ;;;
  simulateDelay 500 ;;;
  updateOrderStatus (id order) submitted None ;;;
  result <- lift (r_executeSwap dexRouter (rd_dex routingDecision)
                    order) ;;
  let executionData :=
    {| ed_txHash := Some (sr_txHash result);
       ed_executedPrice := Some (sr_executedPrice result);
       ed_dex := Some (dex_text (rd_dex routingDecision));
       ed_gasUsed := Some (sr_gasUsed result);
       ed_error := None |} in
  updateOrderStatus (id order) confirmed (Some executionData) ;;;
  updateMetrics (dex_text (rd_dex routingDecision)) true ;;;
  ret executionData.

(** The [catch (error)] block of [processOrder]. *)
Definition processOrder_catch (order : Order) (error : Exn)
    : M ExecutionData :=
  let executionData :=
    {| ed_txHash := None; ed_executedPrice := None; ed_dex := None;
       ed_gasUsed := None;
       ed_error := Some (error_message error) |} in
  updateOrderStatus (id order) failed (Some executionData) ;;;
  updateMetrics "" false ;;;
  throw error.

Definition processOrder (order : Order) : M ExecutionData :=
  try_catch (processOrder_try order) (processOrder_catch order).

End WithRouter.

Definition getMetrics : M Metrics :=
  l <- promise_all
         [Redis.get "stats:total_orders";
          Redis.get "stats:successful_orders";
          Redis.get "stats:failed_orders";
          Redis.get "stats:raydium_routed";
          Redis.get "stats:meteora_routed"] ;;
  match l with
  | [total; successful; failed_; raydium_; meteora_] =>
      let totalOrders := JsArith.parseInt (JsArith.or_zero total) in
      let successfulOrders := JsArith.parseInt (JsArith.or_zero successful) in
      ret {| totalOrders := totalOrders;
             successfulOrders := successfulOrders;
             failedOrders := JsArith.parseInt (JsArith.or_zero failed_);
             raydiumRouted := JsArith.parseInt (JsArith.or_zero raydium_);
             meteoraRouted := JsArith.parseInt (JsArith.or_zero meteora_);
             successRate :=
               if JsArith.gt totalOrders (Num 0)
               then JsArith.mul
                      (JsArith.div successfulOrders totalOrders) (Num 100)
               else Num 0 |}
  | _ => throw (NonError "unreachable")
  end.

(** [parseFloat] of a column [amount_in] or [slippage]: finite, a column
    [DECIMAL(20, 8)] holding less than [10^12] in absolute value. *)
Definition column_number (decimal : Q) : Q :=
  match JsArith.parseFloat decimal with
  | Num x => x
  | _ => decimal
  end.

Definition getOrder (orderId : string) : M (option Order) :=
  try_catch
    (rows <- Pg.select_order orderId ;;
     match rows with
     | [] => ret None
     | row :: _ =>
         ret (Some {| id := id row;
                      type := type row;
                      tokenIn := tokenIn row;
                      tokenOut := tokenOut row;
                      amountIn := column_number (amountIn row);
                      slippage := column_number (slippage row);
                      status := status row;
                      executionData := executionData row;
                      userId := userId row |})
     end)
    (fun error => throw error).

Definition getOrderEvents (orderId : string) : M (list OrderEvent) :=
  Pg.select_events orderId.

End OrderProcessor.

(* ===================================================================== *)
(** ** routes/orders.ts: DELETE /api/orders/:orderId *)
(* ===================================================================== *)

Inductive ReplyBody : Type :=
  | ErrorBody (error message : string)
  | CancelledBody (message orderId : string).

Record Reply : Type := mkReply {
  reply_status : nat;
  reply_body : ReplyBody
}.

Module OrderRoutes.

(** The handler of the route, on a path parameter that passed the schema. *)
Definition cancelOrder (orderId : string) : M Reply :=
  try_catch
    (order <- OrderProcessor.getOrder orderId ;;
     match order with
     | None =>
         ret {| reply_status := 404;
                reply_body :=
                  ErrorBody "Order not found"
                    ("Order with ID " ++ orderId ++ " does not exist") |}
     | Some order =>
         if negb (String.eqb (status order) "pending") then
           ret {| reply_status := 400;
                  reply_body :=
                    ErrorBody "Cannot cancel order"
                      ("Order is in " ++ status order
                       ++ " status and cannot be cancelled") |}
         else
           Pg.update_status "cancelled" orderId ;;;
           Pg.insert_event orderId "cancelled"
             (Some (ReasonPayload "User cancelled")) ;;;
           ret {| reply_status := 200;
                  reply_body :=
                    CancelledBody "Order cancelled successfully" orderId |}
     end)
    (fun error =>
       ret {| reply_status := 500;
              reply_body :=
                ErrorBody "Internal Server Error"
                  "Failed to cancel order" |}).

End OrderRoutes.

(* ===================================================================== *)
(** ** routes/orders.ts: submission and status handlers *)
(* ===================================================================== *)

(** What a handler sends: [reply.status(code).send(payload)], or an error
    body [{error, message}]. *)
Inductive Response (A : Type) : Type :=
  | Sent (code : nat) (payload : A)
  | Refused (code : nat) (error message : string).
Arguments Sent {A} code payload.
Arguments Refused {A} code error message.

Record OrderExecutionRequest : Type := mkRequest {
  req_type : OrderType;
  req_tokenIn : string;
  req_tokenOut : string;
  req_amountIn : Q;
  req_slippage : Q;
  req_userId : option string
}.

Record OrderExecutionResponse : Type := mkExecutionResponse {
  oer_orderId : string;
  oer_status : string;
  oer_message : string;
  oer_websocketUrl : string
}.

Record OrderStatusResponse : Type := mkStatusResponse {
  osr_orderId : string;
  osr_status : string;
  osr_executionData : option ExecutionData;
  osr_events : list OrderEvent
}.

Record OrderEventsResponse : Type := mkEventsResponse {
  oev_orderId : string;
  oev_events : list OrderEvent
}.

(** The Fastify instance as the WebSocket manager uses it: the paths given
    to [get], and the exception with which the instance answers [get], if
    it refuses new routes. *)
Record Fastify : Type := mkFastify {
  get_calls : list string;
  get_raises : option Exn
}.

(** The server: the engine's world and the [fastifyInstance] field of the
    WebSocket manager ([None] until [setFastifyInstance]). *)
Record Server : Type := mkServer {
  world : World;
  fastifyInstance : option Fastify
}.

Module WsRoutes.

Definition setFastifyInstance (fastify : Fastify) (s : Server) : Server :=
  {| world := world s; fastifyInstance := Some fastify |}.

Definition registerWebSocketRoute (orderId : string) (s : Server)
    : Outcome unit * Server :=
  match fastifyInstance s with
  | None => (Throw (Error "Fastify instance not set"), s)
  | Some fastify =>
      let called :=
        {| get_calls := get_calls fastify ++ ["/ws/orders/" ++ orderId];
           get_raises := get_raises fastify |} in
      let s' := {| world := world s; fastifyInstance := Some called |} in
      match get_raises fastify with
      | Some error => (Throw error, s')
      | None => (Ok tt, s')
      end
  end.

End WsRoutes.

Module OrderHandlers.

(** The schema of POST /api/orders/execute, which Fastify checks before
    the handler runs: [tokenIn] and [tokenOut] of at least one character,
    [amountIn] at least 0.000001, [slippage] between 0.001 and 0.5, the
    three bounds being the doubles that these literals denote (the first
    one is just below the decimal 0.000001).  The type of the request
    holds what [required], [type] and [enum] ask. *)
Definition bodySchema (body : OrderExecutionRequest) : bool :=
  ((1 <=? String.length (req_tokenIn body))%nat
   && (1 <=? String.length (req_tokenOut body))%nat
   && Qle_bool (JsArith.literal 0.000001) (req_amountIn body)
   && Qle_bool (JsArith.literal 0.001) (req_slippage body)
   && Qle_bool (req_slippage body) (JsArith.literal 0.5))%bool.

(** The handler of POST /api/orders/execute, on a body that passed the
    schema; [uuid] is the result of [uuidv4()]. *)
Definition executeOrder (uuid : string) (body : OrderExecutionRequest)
    (s : Server) : Response OrderExecutionResponse * Server :=
  if Qle_bool (req_amountIn body) 0 then
    (Refused 400 "Invalid amount" "Amount must be greater than 0", s)
  else if (JsNum.gtb 0.001 (req_slippage body)
           || JsNum.gtb (req_slippage body) 0.5)%bool then
    (Refused 400 "Invalid slippage" "Slippage must be between 0.1% and 50%",
     s)
  else
    let orderId := uuid in
    let order :=
      {| id := orderId;
         type := req_type body;
         tokenIn := req_tokenIn body;
         tokenOut := req_tokenOut body;
         amountIn := req_amountIn body;
         slippage := req_slippage body;
         status := "pending";
         executionData := None;
         userId := req_userId body |} in
    let failure :=
      Refused 500 "Internal Server Error"
        "Failed to submit order for execution" in
    match OrderProcessor.submitOrder order (world s) with
    | (Throw _, w') =>
        (failure, {| world := w'; fastifyInstance := fastifyInstance s |})
    | (Ok _, w') =>
        match WsRoutes.registerWebSocketRoute orderId
                {| world := w'; fastifyInstance := fastifyInstance s |} with
        | (Throw _, s') => (failure, s')
        | (Ok _, s') =>
            (Sent 200
               {| oer_orderId := orderId;
                  oer_status := "pending";
                  oer_message := "Order submitted successfully";
                  oer_websocketUrl := "/ws/orders/" ++ orderId |}, s')
        end
    end.

(** GET /api/orders/:orderId *)
Definition getOrderStatus (orderId : string)
    : M (Response OrderStatusResponse) :=
  try_catch
    (order <- OrderProcessor.getOrder orderId ;;
     match order with
     | None =>
         ret (Refused 404 "Order not found"
                ("Order with ID " ++ orderId ++ " does not exist"))
     | Some order =>
         events <- OrderProcessor.getOrderEvents orderId ;;
         ret (Sent 200
                {| osr_orderId := id order;
                   osr_status := status order;
                   osr_executionData := executionData order;
                   osr_events := events |})
     end)
    (fun error =>
       ret (Refused 500 "Internal Server Error"
              "Failed to retrieve order details")).

(** GET /api/orders/:orderId/events *)
Definition getOrderEventsTimeline (orderId : string)
    : M (Response OrderEventsResponse) :=
  try_catch
    (order <- OrderProcessor.getOrder orderId ;;
     match order with
     | None =>
         ret (Refused 404 "Order not found"
                ("Order with ID " ++ orderId ++ " does not exist"))
     | Some _ =>
         events <- OrderProcessor.getOrderEvents orderId ;;
         ret (Sent 200 {| oev_orderId := orderId; oev_events := events |})
     end)
    (fun error =>
       ret (Refused 500 "Internal Server Error"
              "Failed to retrieve order events")).

End OrderHandlers.

(* ===================================================================== *)
(** ** server.ts: the error handler, and the submission route as served *)
(* ===================================================================== *)

Module OrderExecutionServer.

(** [setErrorHandler]: the reply to an error that no handler caught;
    [development] is [process.env.NODE_ENV === 'development'] and
    [message] is [error.message]. *)
Definition errorHandler {A : Type} (development : bool) (message : string)
    : Response A :=
  Refused 500 "Internal Server Error"
    (if development then message else "Something went wrong").

(** POST /api/orders/execute as served: a body that the schema refuses
    does not reach the handler; its validation error, of message
    [invalid], goes to the error handler. *)
Definition postExecute (development : bool) (invalid : string)
    (uuid : string) (body : OrderExecutionRequest) (s : Server)
    : Response OrderExecutionResponse * Server :=
  if OrderHandlers.bodySchema body
  then OrderHandlers.executeOrder uuid body s
  else (errorHandler development invalid, s).

End OrderExecutionServer.

(* ===================================================================== *)
(** ** routes/metrics.ts: GET /api/metrics/health *)
(* ===================================================================== *)

Record HealthCheck : Type := mkHealthCheck {
  hc_healthy : bool;
  hc_error : option string
}.

(** The reply of the health handler: the report of the three checks, or
    the reply of its [catch] block. *)
Inductive HealthResponse : Type :=
  | HealthReport (code : nat) (healthy : bool)
      (redis postgres queue : HealthCheck)
  | HealthCheckFailed (code : nat) (message : string).

Module MetricsHandlers.

(** [redis.ping()], [pgPool.query('SELECT 1')] and [queue.getJobCounts()]:
    calls whose answer the handler does not read. *)
Definition ping : M unit := external (ret tt).
Definition select_1 : M unit := external (ret tt).
Definition getJobCounts : M unit := external (ret tt).

(** One entry of [Promise.allSettled]: the call is issued and its outcome
    kept, fulfilled or rejected. *)
Definition settled {A : Type} (call : M A) : M (Outcome A) :=
  fun w => let '(o, w') := call w in (Ok o, w').

(** [status === 'fulfilled'], and [reason?.message] of a rejection. *)
Definition check_of {A : Type} (o : Outcome A) : HealthCheck :=
  match o with
  | Ok _ => {| hc_healthy := true; hc_error := None |}
  | Throw (Error m) => {| hc_healthy := false; hc_error := Some m |}
  | Throw (NonError _) => {| hc_healthy := false; hc_error := None |}
  end.

Definition health : M HealthResponse :=
  try_catch
    (r <- settled ping ;;
     p <- settled select_1 ;;
     q <- settled getJobCounts ;;
     let redisHealthy := hc_healthy (check_of r) in
     let postgresHealthy := hc_healthy (check_of p) in
     let queueHealthy := hc_healthy (check_of q) in
     let overallHealth :=
       (redisHealthy && postgresHealthy && queueHealthy)%bool in
     ret (HealthReport (if overallHealth then 200 else 503) overallHealth
            (check_of r) (check_of p) (check_of q)))
    (fun error => ret (HealthCheckFailed 503 (error_message error))).

End MetricsHandlers.

(* ===================================================================== *)
(** ** The worker of the queue *)
(* ===================================================================== *)

Module Worker.

(** The processor function given to the worker:
    [async (job) => await this.processOrder(job.data)]. *)
Definition process (dexRouter : DexRouter) (job : Job) : M ExecutionData :=
  OrderProcessor.processOrder dexRouter (job_data job).

End Worker.

(* ===================================================================== *)
(** * Vocabulary of the statements *)
(* ===================================================================== *)

(** ** Inputs taken from the unit tests *)

Module Fixtures.
Local Open Scope Q_scope.

(** The quotes of the first selection test. *)
Definition test_raydiumQuote : DexQuote :=
  {| dex := raydium; price := 100; fee := 0.0025; liquidity := 1000000;
     estimatedGas := 0.0001; amountOut := 99.75; priceImpact := 0.001 |}.

Definition test_meteoraQuote : DexQuote :=
  {| dex := meteora; price := 99; fee := 0.002; liquidity := 800000;
     estimatedGas := 0.00008; amountOut := 98.802; priceImpact := 0.0008 |}.

(** The quotes of the test on equal costs. *)
Definition tie_raydiumQuote : DexQuote :=
  {| dex := raydium; price := 100; fee := 0.0025; liquidity := 1200000;
     estimatedGas := 0.0001; amountOut := 99.75; priceImpact := 0.001 |}.

Definition tie_meteoraQuote : DexQuote :=
  {| dex := meteora; price := 100; fee := 0.0025; liquidity := 800000;
     estimatedGas := 0.0001; amountOut := 99.75; priceImpact := 0.001 |}.

(** Two quotes whose amounts are so large that the gas estimates vanish
    in the rounding of the total costs. *)
Definition large_raydiumQuote : DexQuote :=
  {| dex := raydium; price := 100; fee := 0.0025; liquidity := 1200000;
     estimatedGas := 0.0001; amountOut := 2000000000000;
     priceImpact := 0.001 |}.

Definition large_meteoraQuote : DexQuote :=
  {| dex := meteora; price := 100; fee := 0.002; liquidity := 800000;
     estimatedGas := 0.00008; amountOut := 2000000000000;
     priceImpact := 0.0008 |}.

Definition test_order : Order :=
  {| id := "test-order-123"; type := market; tokenIn := "SOL";
     tokenOut := "USDC"; amountIn := 1.5; slippage := 0.01;
     status := "pending"; executionData := None;
     userId := Some "user123" |}.

Definition swap_data : ExecutionData :=
  {| ed_txHash := Some "0x1234567890abcdef";
     ed_executedPrice := Some 99.5;
     ed_dex := Some "meteora";
     ed_gasUsed := Some 0.00008;
     ed_error := None |}.

(** A randomness source that always answers one half. *)
Definition half : JsNum.RandomSource := fun _ => 0.5.

(** The router double of the failure test: Raydium's quote rejects. *)
Definition rejecting_router : DexRouter :=
  {| r_getRaydiumQuote := fun _ _ _ => Throw (Error "DEX error");
     r_getMeteorQuote :=
       fun i o a => Ok (MockDexRouter.getMeteorQuote half i o a);
     r_selectBestDex :=
       fun r m a => Ok (MockDexRouter.selectBestDex r m a);
     r_executeSwap := fun d o => Ok (MockDexRouter.executeSwap half d o) |}.

(** The test order persisted and pending; the stores answer. *)
Definition world_pending : World :=
  mkWorld ∅ ∅ {[ "test-order-123" := test_order ]} [] [] []
    WsManager.empty [].

(** The stores answer the three calls of the transition to [routing]; the
    cache then rejects the next call, the first one of the [catch] block. *)
Definition world_cache_down_on_failure : World :=
  mkWorld ∅ ∅ {[ "test-order-123" := test_order ]} [] [] []
    WsManager.empty
    [None; None; None; Some (Error "Connection is closed.")].

(** PostgreSQL answers the select and the update of a cancellation, and
    rejects the insert of the event. *)
Definition world_event_insert_down : World :=
  mkWorld ∅ ∅ {[ "test-order-123" := test_order ]} [] [] []
    WsManager.empty
    [None; None; Some (Error "Connection terminated unexpectedly")].

(** The test order after its confirmation. *)
Definition world_confirmed : World :=
  mkWorld ∅ ∅
    {[ "test-order-123" :=
         Pg.set_status_data "confirmed" (Some swap_data) test_order ]}
    [] [] [] WsManager.empty [].

(** The cache answers, then PostgreSQL drops the connection. *)
Definition world_db_down : World :=
  mkWorld ∅ ∅ {[ "test-order-123" := test_order ]} [] [] []
    WsManager.empty
    [None; Some (Error "Connection terminated unexpectedly")].

(** Two subscribers, the first on a channel that throws. *)
Definition broken_first : WebSocketManager :=
  {| connections :=
       [("order-1", {| conn_orderId := "order-1";
                       conn_socket := mkSocket 1 true false |});
        ("order-2", {| conn_orderId := "order-2";
                       conn_socket := mkSocket 2 false false |})];
     send_calls := [];
     close_calls := [] |}.

Definition status_update : WebSocketMessage :=
  {| msg_orderId := "order-1"; msg_status := "routing"; msg_data := None |}.

(** A counter text of 310 digits. *)
Definition huge_text : string :=
  String "1" (string_of_list_ascii (List.repeat "0"%char 309)).

(** The counters of the metrics test. *)
Definition world_counted : World :=
  set_cache_strings
    (<["stats:total_orders" := "100"]>
       (<["stats:successful_orders" := "90"]>
          (<["stats:failed_orders" := "10"]>
             (<["stats:raydium_routed" := "60"]>
                (<["stats:meteora_routed" := "30"]> ∅)))))
    empty_world.

End Fixtures.

(** ** The fan-out *)

Module FanoutSpec.

(** The keys of a [Map] are pairwise different. *)
Definition well_formed (ws : WebSocketManager) : Prop :=
  List.NoDup (List.map fst (connections ws)).

(** The call of [socket.send] that a broadcast makes for an entry. *)
Definition attempt (f : Frame) (kv : string * WebSocketConnection)
    : nat * Frame :=
  (socket_id (conn_socket (snd kv)), f).

(** Whether [socket.send] answers an entry. *)
Definition delivers (kv : string * WebSocketConnection) : bool :=
  negb (send_throws (conn_socket (snd kv))).

(** An entry of [es] under key [k] whose delivery throws. *)
Definition failing_key (es : list (string * WebSocketConnection))
    (k : string) : bool :=
  existsb (fun e => String.eqb (fst e) k
                    && send_throws (conn_socket (snd e)))%bool es.

End FanoutSpec.

(** ** Transitions *)

Module EngineSpec.

(** The terminal statuses of the lifecycle, on the stored text. *)
Definition terminal_text (s : string) : bool :=
  (String.eqb s "confirmed" || String.eqb s "failed"
   || String.eqb s "cancelled")%bool.

(** The hash that a transition writes under [order:<id>]. *)
Definition written_hash (orderId : string) (status : OrderStatus)
    (data : option ExecutionData) (w : World) : OrderHash :=
  {| h_status := status_text status;
     h_executionData :=
       match data with
       | Some d => Some d
       | None => match cache_hashes w !! ("order:" ++ orderId) with
                 | Some h => h_executionData h
                 | None => None
                 end
       end |}.

(** The event that a transition appends. *)
Definition appended_event (orderId : string) (status : OrderStatus)
    (data : option ExecutionData) : OrderEvent :=
  {| ev_order_id := orderId;
     ev_status := status_text status;
     ev_data := option_map ExecutionPayload data |}.

(** The world after the four effects of a transition: (a) the cache entry,
    (b) the durable row, (c) the event, (d) the notification. *)
Definition transitioned (orderId : string) (status : OrderStatus)
    (data : option ExecutionData) (w : World) : World :=
  mkWorld
    (<["order:" ++ orderId := written_hash orderId status data w]>
       (cache_hashes w))
    (cache_strings w)
    (alter (Pg.set_status_data (status_text status) data) orderId (orders w))
    (order_events w ++ [appended_event orderId status data])
    (routing_decisions w)
    (queue w)
    (WsManager.emitToOrder orderId (status_text status) data (ws w))
    (faults w).

(** The same four parts in two worlds. *)
Definition same_effects (w1 w2 : World) : Prop :=
  cache_hashes w1 = cache_hashes w2
  /\ orders w1 = orders w2
  /\ order_events w1 = order_events w2
  /\ ws w1 = ws w2.

(** "All four effects occur, or the operation fails with no effect." *)
Definition atomic_at (orderId : string) (status : OrderStatus)
    (data : option ExecutionData) (w : World) : Prop :=
  let run := OrderProcessor.updateOrderStatus orderId status data w in
  (fst run = Ok tt
   /\ same_effects (snd run) (transitioned orderId status data w))
  \/ ((exists e, fst run = Throw e) /\ same_effects (snd run) w).

(** "A transition attempted on an order in a terminal status leaves its
    stored status and execution data, and the event log, unchanged." *)
Definition terminal_immutable_at (orderId : string)
    (newStatus : OrderStatus) (data : option ExecutionData) (w : World)
    : Prop :=
  forall row : Order,
    orders w !! orderId = Some row ->
    terminal_text (status row) = true ->
    let run := OrderProcessor.updateOrderStatus orderId newStatus data w in
    orders (snd run) !! orderId = Some row
    /\ order_events (snd run) = order_events w.

End EngineSpec.

(** ** Processing *)

Module ProcessSpec.

(** What [Promise.all] over the two quote requests settles to. *)
Definition quotes_outcome (dexRouter : DexRouter) (order : Order)
    : Outcome (DexQuote * DexQuote) :=
  match r_getRaydiumQuote dexRouter (tokenIn order) (tokenOut order)
          (amountIn order),
        r_getMeteorQuote dexRouter (tokenIn order) (tokenOut order)
          (amountIn order) with
  | Ok r, Ok m => Ok (r, m)
  | Throw e, _ => Throw e
  | Ok _, Throw e => Throw e
  end.

(** The router steps of [processOrder]. *)
Inductive Stage : Type := AtQuotes | AtSelection | AtExecution.

(** The router step [stage] rejects with [e], the earlier ones succeed. *)
Definition raises_at (dexRouter : DexRouter) (order : Order)
    (stage : Stage) (e : Exn) : Prop :=
  match stage with
  | AtQuotes => quotes_outcome dexRouter order = Throw e
  | AtSelection =>
      exists r m,
        quotes_outcome dexRouter order = Ok (r, m)
        /\ r_selectBestDex dexRouter r m (amountIn order) = Throw e
  | AtExecution =>
      exists r m d,
        quotes_outcome dexRouter order = Ok (r, m)
        /\ r_selectBestDex dexRouter r m (amountIn order) = Ok d
        /\ r_executeSwap dexRouter (rd_dex d) order = Throw e
  end.

(** The transitions made before the router step. *)
Definition path_before (stage : Stage) : list OrderStatus :=
  match stage with
  | AtQuotes | AtSelection => [routing]
  | AtExecution => [routing; building; submitted]
  end.

(** The execution data of a failed order: the message of an [Error], and
    the text [Unknown error] for any other thrown value. *)
Definition failure_data (e : Exn) : ExecutionData :=
  {| ed_txHash := None; ed_executedPrice := None; ed_dex := None;
     ed_gasUsed := None;
     ed_error := Some match e with
                      | Error message => message
                      | NonError _ => "Unknown error"
                      end |}.

(** The value of a counter of the cache: 0 when absent. *)
Definition counter (w : World) (key : string) : option Z :=
  match cache_strings w !! key with
  | Some s => Redis.string2ll s
  | None => Some 0%Z
  end.


End ProcessSpec.

(** ** Submission *)

Module SubmitSpec.

(** The job that [submitOrder] hands to the queue. *)
Definition job_of (order : Order) : Job :=
  {| job_id := id order; job_name := "execute-order"; job_data := order |}.

(** The number of tasks of the queue with a given job id. *)
Definition tasks_for (jobId : string) (q : list Job) : nat :=
  List.length (List.filter (fun j => String.eqb jobId (job_id j)) q).

(** No job id occurs twice in the queue. *)
Definition one_task_per_id (q : list Job) : Prop :=
  forall jobId : string, (tasks_for jobId q <= 1)%nat.

(** The world after the submissions of a list of orders, one after the
    other, whatever each of them answers. *)
Fixpoint submissions (l : list Order) (w : World) : World :=
  match l with
  | [] => w
  | order :: rest =>
      submissions rest (snd (OrderProcessor.submitOrder order w))
  end.

End SubmitSpec.

(** ** Cancellation *)

Module CancelSpec.



Definition cancelled_reply (orderId : string) : Reply :=
  {| reply_status := 200;
     reply_body := CancelledBody "Order cancelled successfully" orderId |}.

Definition cancelled_event (orderId : string) : OrderEvent :=
  {| ev_order_id := orderId; ev_status := "cancelled";
     ev_data := Some (ReasonPayload "User cancelled") |}.

(** The world after a successful cancellation. *)
Definition cancelled (orderId : string) (w : World) : World :=
  set_order_events (order_events w ++ [cancelled_event orderId])
    (set_orders (alter (Pg.set_status "cancelled") orderId (orders w)) w).


End CancelSpec.

(** ** Metrics *)

Module MetricsSpec.

(** A counter as [getMetrics] reports it. *)
Definition reported (w : World) (key : string) : jsnum :=
  JsArith.parseInt (JsArith.or_zero (cache_strings w !! key)).

End MetricsSpec.

(** ** Rounded numbers *)

Module RoundingSpec.

(** A rounded result: an infinity, or a number in lowest terms. *)
Definition rounded (a : jsnum) : Prop :=
  match a with
  | NaN => False
  | PosInfinity | NegInfinity => True
  | Num q => Qred q = q
  end.

End RoundingSpec.

(** ** The router *)

Module RouterSpec.
Import MockDexRouter.
Local Open Scope Q_scope.

(** [amountOut + estimatedGas] as the selector computes it: the sum
    rounded to a double. *)
Definition totalCost (q : DexQuote) : jsnum :=
  JsArith.add (Num (amountOut q)) (Num (estimatedGas q)).

(** The quote of a decision: the one of [alternatives] it names. *)
Definition selected_quote (raydiumQuote meteoraQuote : DexQuote)
    (d : RoutingDecision) : DexQuote :=
  match rd_dex d with raydium => raydiumQuote | meteora => meteoraQuote end.

(** The adapter of a venue. *)
Definition quote_of (dex : DexName) (rnd : JsNum.RandomSource)
    (tokenIn tokenOut : string) (amount : Q) : DexQuote :=
  match dex with
  | raydium => getRaydiumQuote rnd tokenIn tokenOut amount
  | meteora => getMeteorQuote rnd tokenIn tokenOut amount
  end.

(** A lower-case hexadecimal digit. *)
Definition is_hex_digit (c : ascii) : bool :=
  let n := nat_of_ascii c in
  ((48 <=? n)%nat && (n <=? 57)%nat || (97 <=? n)%nat && (n <=? 102)%nat)%bool.

End RouterSpec.

(** ** Subscriptions *)

Module SubscriptionSpec.

(** The synthetic first message of a subscription. *)
Definition connected_message (orderId : string) : WebSocketMessage :=
  {| msg_orderId := orderId; msg_status := "connected"; msg_data := None |}.

(** The socket ids of the subscribers, in map order. *)
Definition subscriber_sockets (ws : WebSocketManager) : list nat :=
  List.map (fun kv => socket_id (conn_socket (snd kv))) (connections ws).

End SubscriptionSpec.

(** ** History *)

Module HistorySpec.

(** The request part of an order: everything but status and outcome. *)
Definition same_request (o o' : Order) : Prop :=
  id o = id o' /\ type o = type o' /\ tokenIn o = tokenIn o'
  /\ tokenOut o = tokenOut o' /\ amountIn o = amountIn o'
  /\ slippage o = slippage o' /\ userId o = userId o'.

(** [w'] keeps the history of [w]: the two append-only tables and the queue
    are extended at their end, and every order is still there with the
    same request part. *)
Definition keeps_history (w w' : World) : Prop :=
  (exists l, order_events w' = (order_events w ++ l)%list)
  /\ (exists l, routing_decisions w' = (routing_decisions w ++ l)%list)
  /\ (exists l, queue w' = (queue w ++ l)%list)
  /\ (forall k o, orders w !! k = Some o ->
        exists o', orders w' !! k = Some o' /\ same_request o o').

(** An operation that keeps the history whatever the stores answer. *)
Definition historic {A : Type} (m : M A) : Prop :=
  forall w : World, keeps_history w (snd (m w)).

End HistorySpec.

(** ** Successful runs *)

Module SuccessSpec.
Import EngineSpec ProcessSpec.

(** The row that [persistRoutingDecision] inserts. *)
Definition decision_row (orderId : string) (d : RoutingDecision)
    : RoutingDecisionRow :=
  {| rr_order_id := orderId;
     rr_selected_dex := rd_dex d;
     rr_price := rd_price d;
     rr_fee := rd_fee d;
     rr_reason := rd_reason d;
     rr_alternatives := rd_alternatives d |}.

(** The execution data of a confirmed order. *)
Definition success_data (d : RoutingDecision) (result : SwapResult)
    : ExecutionData :=
  {| ed_txHash := Some (sr_txHash result);
     ed_executedPrice := Some (sr_executedPrice result);
     ed_dex := Some (dex_text (rd_dex d));
     ed_gasUsed := Some (sr_gasUsed result);
     ed_error := None |}.

(** The key of the per-venue counter. *)
Definition routed_key (d : DexName) : string :=
  "stats:" ++ dex_text d ++ "_routed".

(** Every router step answers. *)
Definition router_answers (dexRouter : DexRouter) (order : Order)
    (d : RoutingDecision) (result : SwapResult) : Prop :=
  exists r m,
    quotes_outcome dexRouter order = Ok (r, m)
    /\ r_selectBestDex dexRouter r m (amountIn order) = Ok d
    /\ r_executeSwap dexRouter (rd_dex d) order = Ok result.

(** The counters that [updateMetrics] may increment can be incremented. *)
Definition counters_ready (w : World) : Prop :=
  forall key,
    In key ["stats:total_orders"; "stats:successful_orders";
            "stats:failed_orders"; "stats:raydium_routed";
            "stats:meteora_routed"] ->
    exists n, counter w key = Some n /\ (n < Redis.LLONG_MAX)%Z.

(** The world after a run of [processOrder] in which every step answers. *)
Definition confirmed_world (order : Order) (d : RoutingDecision)
    (result : SwapResult) (nt ns nr : Z) (w : World) : World :=
  let w1 := transitioned (id order) routing None w in
  let w2 := set_routing_decisions
              (routing_decisions w1 ++ [decision_row (id order) d]) w1 in
  let w3 := transitioned (id order) building None w2 in
  let w4 := transitioned (id order) submitted None w3 in
  let w5 := transitioned (id order) confirmed
              (Some (success_data d result)) w4 in
  set_cache_strings
    (<[routed_key (rd_dex d) := Redis.ll2string (nr + 1)]>
       (<["stats:successful_orders" := Redis.ll2string (ns + 1)]>
          (<["stats:total_orders" := Redis.ll2string (nt + 1)]>
             (cache_strings w5)))) w5.

(** The two ways in which a run of [processOrder] on the stored [row] can
    end. *)
Definition ends_confirmed (dexRouter : DexRouter) (order row : Order)
    (w : World) : Prop :=
  let run := OrderProcessor.processOrder dexRouter order w in
  exists data,
    fst run = Ok data
    /\ orders (snd run) !! id order
       = Some (Pg.set_status_data "confirmed" (Some data) row)
    /\ List.map ev_status (order_events (snd run))
       = (List.map ev_status (order_events w)
          ++ ["routing"; "building"; "submitted"; "confirmed"])%list
    /\ List.length (routing_decisions (snd run))
       = S (List.length (routing_decisions w)).

Definition ends_failed (dexRouter : DexRouter) (order row : Order)
    (w : World) : Prop :=
  let run := OrderProcessor.processOrder dexRouter order w in
  exists e stage,
    fst run = Throw e
    /\ raises_at dexRouter order stage e
    /\ orders (snd run) !! id order
       = Some (Pg.set_status_data "failed" (Some (failure_data e)) row)
    /\ List.map ev_status (order_events (snd run))
       = (List.map ev_status (order_events w)
          ++ List.map status_text (path_before stage) ++ ["failed"])%list
    /\ (List.length (routing_decisions (snd run))
        <= S (List.length (routing_decisions w)))%nat.

(** The decision and the swap of the test order when every draw is one
    half. *)
Definition test_decision : RoutingDecision :=
  MockDexRouter.selectBestDex
    (MockDexRouter.getRaydiumQuote Fixtures.half "SOL" "USDC" 1.5)
    (MockDexRouter.getMeteorQuote Fixtures.half "SOL" "USDC" 1.5) 1.5.

Definition test_result : SwapResult :=
  MockDexRouter.executeSwap Fixtures.half (rd_dex test_decision)
    Fixtures.test_order.

Definition test_router : DexRouter :=
  mockDexRouter Fixtures.half Fixtures.half Fixtures.half.

End SuccessSpec.

(** ** The ledger *)

Module LedgerSpec.
Import ProcessSpec.

(** The three order counters add up. *)
Definition balanced (w : World) : Prop :=
  exists t s f,
    counter w "stats:total_orders" = Some t
    /\ counter w "stats:successful_orders" = Some s
    /\ counter w "stats:failed_orders" = Some f
    /\ t = (s + f)%Z.

(** The events of one order, oldest first. *)
Definition events_of (orderId : string) (w : World) : list OrderEvent :=
  List.filter (fun e => String.eqb (ev_order_id e) orderId) (order_events w).

(** The row that the insert stores for the test order. *)
Definition test_row : Order :=
  {| id := "test-order-123"; type := market; tokenIn := "SOL";
     tokenOut := "USDC"; amountIn := 3 # 2; slippage := 1 # 100;
     status := "pending"; executionData := None;
     userId := Some "user123" |}.

(** The double that the literal 1.000000005 denotes. *)
Definition precise_amount : Q := 2251799824944247 # 2251799813685248.

(** The cache answers, then the queue rejects the job. *)
Definition world_queue_down : World :=
  set_faults [None; Some (Error "Connection is closed.")] empty_world.

End LedgerSpec.

(** ** The handlers *)

Module HandlerSpec.
Import LedgerSpec.

(** The bounds that the submission handler checks. *)
Definition valid_request (body : OrderExecutionRequest) : Prop :=
  (0 < req_amountIn body /\ 0.001 <= req_slippage body
   /\ req_slippage body <= 0.5)%Q.

(** The order that the submission handler builds. *)
Definition order_of (uuid : string) (body : OrderExecutionRequest) : Order :=
  {| id := uuid;
     type := req_type body;
     tokenIn := req_tokenIn body;
     tokenOut := req_tokenOut body;
     amountIn := req_amountIn body;
     slippage := req_slippage body;
     status := "pending";
     executionData := None;
     userId := req_userId body |}.

Definition accepted (uuid : string) : OrderExecutionResponse :=
  {| oer_orderId := uuid;
     oer_status := "pending";
     oer_message := "Order submitted successfully";
     oer_websocketUrl := "/ws/orders/" ++ uuid |}.

Definition submission_failed : Response OrderExecutionResponse :=
  Refused 500 "Internal Server Error" "Failed to submit order for execution".

(** Route registration cannot succeed on this server. *)
Definition routes_refused (s : Server) : Prop :=
  match fastifyInstance s with
  | None => True
  | Some fastify => is_Some (get_raises fastify)
  end.

(** Two worlds that differ at most in the script of the environment. *)
Definition same_stores (w w' : World) : Prop :=
  cache_hashes w' = cache_hashes w
  /\ cache_strings w' = cache_strings w
  /\ orders w' = orders w
  /\ order_events w' = order_events w
  /\ routing_decisions w' = routing_decisions w
  /\ queue w' = queue w
  /\ ws w' = ws w.

(** The replies of the status handlers for a stored order. *)
Definition status_of (orderId : string) (order : Order) (w : World)
    : OrderStatusResponse :=
  {| osr_orderId := id order;
     osr_status := status order;
     osr_executionData := executionData order;
     osr_events := events_of orderId w |}.

Definition timeline_of (orderId : string) (w : World) : OrderEventsResponse :=
  {| oev_orderId := orderId; oev_events := events_of orderId w |}.

Definition not_found {A : Type} (orderId : string) : Response A :=
  Refused 404 "Order not found"
    ("Order with ID " ++ orderId ++ " does not exist").

(** The environment lets the next [n] calls proceed. *)
Definition answers (n : nat) (w : World) : bool :=
  List.forallb (fun f => match f with None => true | Some _ => false end)
    (List.firstn n (faults w)).

(** The request of the test order, and servers with and without a Fastify
    instance that accepts routes. *)
Definition test_request : OrderExecutionRequest :=
  {| req_type := market; req_tokenIn := "SOL"; req_tokenOut := "USDC";
     req_amountIn := 1.5; req_slippage := 0.01;
     req_userId := Some "user123" |}.

Definition test_server : Server :=
  {| world := empty_world;
     fastifyInstance := Some {| get_calls := []; get_raises := None |} |}.

Definition server_without_instance : Server :=
  {| world := empty_world; fastifyInstance := None |}.

End HandlerSpec.

Module HealthSpec.
Import HandlerSpec.

(** The outcome of the [n]-th of the coming calls to the environment. *)
Definition check_at (n : nat) (w : World) : HealthCheck :=
  match List.nth_error (faults w) n with
  | Some (Some e) => MetricsHandlers.check_of (Throw (A := unit) e)
  | _ => MetricsHandlers.check_of (Ok tt)
  end.

End HealthSpec.

(* ===================================================================== *)
(** * Properties *)
(* ===================================================================== *)

(** ** Comparisons of finite numbers *)

Module JsNumFacts.
Import JsNum.

Lemma gtb_true (x y : Q) : gtb x y = true <-> (y < x)%Q.
Proof.
  unfold gtb. rewrite negb_true_iff. split.
  - intros H. apply Qnot_le_lt. intros Hle.
    apply Qle_bool_iff in Hle. congruence.
  - intros H. destruct (Qle_bool x y) eqn:E; [|reflexivity].
    apply Qle_bool_iff in E. exfalso. apply (Qlt_not_le _ _ H E).
Qed.

Lemma gtb_false (x y : Q) : gtb x y = false <-> (x <= y)%Q.
Proof. unfold gtb. rewrite negb_false_iff. apply Qle_bool_iff. Qed.

Lemma gtb_of_lt (x y : Q) : (y < x)%Q -> gtb x y = true.
Proof. apply gtb_true. Qed.

Lemma gtb_of_le (x y : Q) : (x <= y)%Q -> gtb x y = false.
Proof. apply gtb_false. Qed.

End JsNumFacts.

(** ** Rounding to a double *)

Module JsArithFacts.
Import JsNum JsNumFacts JsArith RoundingSpec.
Local Open Scope Q_scope.

Lemma Qred_inject_Z (z : Z) : Qred (inject_Z z) = inject_Z z.
Proof.
  unfold Qred, inject_Z.
  pose proof (Z.ggcd_gcd z 1) as Hg.
  pose proof (Z.ggcd_correct_divisors z 1) as Hd.
  destruct (Z.ggcd z 1) as [g [a b]]. simpl in Hg.
  rewrite Z.gcd_1_r in Hg. subst g. destruct Hd as [Ha Hb].
  replace a with z by lia. replace b with 1%Z by lia. reflexivity.
Qed.

Lemma round_half_even_integer (x : Q) (n : Z) :
  x == inject_Z n -> round_half_even x = n.
Proof.
  intros H. unfold round_half_even.
  assert (Hf : Qfloor x = n) by (rewrite H; apply Qfloor_Z).
  rewrite Hf.
  assert (Hc : Qcompare (x - inject_Z n) (1 # 2) = Lt).
  { apply -> Qlt_alt. rewrite H. unfold Qminus. rewrite Qplus_opp_r.
    reflexivity. }
  now rewrite Hc.
Qed.

Lemma pow2_nonpos (k : Z) :
  (k <= 0)%Z -> pow2 k == / inject_Z (2 ^ (- k)).
Proof.
  intros Hk. unfold pow2. destruct (0 <=? k)%Z eqn:E; [|reflexivity].
  apply Z.leb_le in E. assert (k = 0%Z) by lia. subst k. reflexivity.
Qed.

Lemma magnitude_integer (z : Z) :
  z <> 0%Z -> magnitude (inject_Z z) = Z.log2 (Z.abs z).
Proof.
  intros Hz.
  change (magnitude (inject_Z z))
    with (if Qle_bool (pow2 (Z.log2 (Z.abs z) - 0)) (Qabs (inject_Z z))
          then (Z.log2 (Z.abs z) - 0)%Z else (Z.log2 (Z.abs z) - 0 - 1)%Z).
  rewrite Z.sub_0_r.
  assert (Hle : Qle_bool (pow2 (Z.log2 (Z.abs z))) (Qabs (inject_Z z))
                = true).
  { apply Qle_bool_iff. unfold pow2.
    pose proof (Z.log2_nonneg (Z.abs z)) as Hn.
    apply Z.leb_le in Hn. rewrite Hn.
    change (Qabs (inject_Z z)) with (inject_Z (Z.abs z)).
    rewrite <- Zle_Qle. apply Z.log2_spec. lia. }
  now rewrite Hle.
Qed.

(** An integer of less than 54 bits is a double: rounding keeps it. *)
Lemma round_integer (z : Z) :
  (Z.abs z < 2 ^ 53)%Z -> round (inject_Z z) = Num (inject_Z z).
Proof.
  intros Hz. unfold round.
  destruct (Qeq_bool (inject_Z z) 0) eqn:E0.
  { apply Qeq_bool_iff in E0. unfold Qeq in E0. simpl in E0.
    assert (z = 0%Z) by lia. now subst z. }
  assert (Hnz : z <> 0%Z).
  { intros ->. discriminate. }
  rewrite (magnitude_integer z Hnz).
  set (e := Z.log2 (Z.abs z)).
  assert (He : (0 <= e < 53)%Z).
  { split; [apply Z.log2_nonneg|]. apply Z.log2_lt_pow2; lia. }
  rewrite Z.max_l by lia.
  assert (Hulp : pow2 (e - 52) == / inject_Z (2 ^ (52 - e))).
  { rewrite pow2_nonpos by lia.
    now replace (- (e - 52))%Z with (52 - e)%Z by lia. }
  assert (Hpos : (0 < 2 ^ (52 - e))%Z) by (apply Z.pow_pos_nonneg; lia).
  assert (Hne : ~ inject_Z (2 ^ (52 - e)) == 0).
  { intros H. unfold Qeq in H. cbn [Qnum Qden inject_Z] in H. lia. }
  assert (Hscaled : inject_Z z / pow2 (e - 52)
                    == inject_Z (z * 2 ^ (52 - e))).
  { rewrite Hulp, inject_Z_mult. field. exact Hne. }
  rewrite (round_half_even_integer _ _ Hscaled).
  assert (Hr : inject_Z (z * 2 ^ (52 - e)) * pow2 (e - 52) == inject_Z z).
  { rewrite Hulp, inject_Z_mult. field. exact Hne. }
  assert (Hsmall : Qle_bool (pow2 1024)
                     (Qabs (inject_Z (z * 2 ^ (52 - e)) * pow2 (e - 52)))
                   = false).
  { apply Bool.not_true_is_false. intros H. apply Qle_bool_iff in H.
    rewrite Hr in H.
    change (Qabs (inject_Z z)) with (inject_Z (Z.abs z)) in H.
    change (pow2 1024) with (inject_Z (2 ^ 1024)) in H.
    rewrite <- Zle_Qle in H.
    assert ((2 ^ 53 <= 2 ^ 1024)%Z) by (apply Z.pow_le_mono_r; lia).
    lia. }
  rewrite Hsmall. f_equal.
  rewrite (Qred_complete _ _ Hr). apply Qred_inject_Z.
Qed.

Lemma pow2_Qpower (k : Z) : pow2 k == 2 ^ k.
Proof.
  unfold pow2. destruct (0 <=? k)%Z eqn:E.
  - apply Z.leb_le in E. now rewrite Zpower_Qpower.
  - apply Z.leb_gt in E. rewrite Zpower_Qpower by lia.
    rewrite <- Qpower_opp. now rewrite Z.opp_involutive.
Qed.

Lemma pow2_pos (k : Z) : 0 < pow2 k.
Proof. rewrite pow2_Qpower. now apply Qpower_0_lt. Qed.

Lemma pow2_le (a b : Z) : (a <= b)%Z -> pow2 a <= pow2 b.
Proof.
  intros H. rewrite !pow2_Qpower. apply Qpower_le_compat_l; [exact H|].
  discriminate.
Qed.

Lemma pow2_le_inv (a b : Z) : pow2 a <= pow2 b -> (a <= b)%Z.
Proof.
  rewrite !pow2_Qpower. intros H.
  apply (Qpower_le_compat_l_inv 2); [exact H | reflexivity].
Qed.

Lemma inject_pow2 (k : Z) : (0 <= k)%Z -> inject_Z (2 ^ k) == 2 ^ k.
Proof. intros H. exact (Zpower_Qpower 2 k H). Qed.

(** [magnitude x] is not above the binary logarithm of [|x|]. *)
Lemma magnitude_below (x : Q) : ~ x == 0 -> pow2 (magnitude x) <= Qabs x.
Proof.
  intros Hx. unfold magnitude.
  set (n := Z.abs (Qnum x)). set (d := Zpos (Qden x)).
  destruct (Qle_bool (pow2 (Z.log2 n - Z.log2 d)) (Qabs x)) eqn:E.
  { now apply Qle_bool_iff. }
  assert (Hn : (0 < n)%Z).
  { unfold n. unfold Qeq in Hx. simpl in Hx. lia. }
  assert (Hd : (0 < d)%Z) by (unfold d; lia).
  pose proof (Z.log2_spec n Hn) as [Hn1 _].
  pose proof (Z.log2_spec d Hd) as [_ Hd2].
  pose proof (Z.log2_nonneg n) as Hln.
  pose proof (Z.log2_nonneg d) as Hld.
  rewrite pow2_Qpower.
  replace (Z.log2 n - Z.log2 d - 1)%Z
    with (Z.log2 n - Z.succ (Z.log2 d))%Z by lia.
  rewrite Qpower_minus by discriminate.
  rewrite <- !inject_pow2 by lia.
  assert (Hx' : Qabs x == inject_Z n / inject_Z d).
  { unfold n, d. destruct x as [a b]. unfold Qabs, Qeq, Qdiv, Qmult, Qinv.
    simpl. lia. }
  rewrite Hx'.
  assert (H1 : inject_Z (2 ^ Z.log2 n) <= inject_Z n)
    by now rewrite <- Zle_Qle.
  assert (H2 : inject_Z d <= inject_Z (2 ^ Z.succ (Z.log2 d)))
    by (rewrite <- Zle_Qle; lia).
  assert (H3 : 0 < inject_Z d) by (now rewrite <- (Zlt_Qlt 0)).
  assert (H4 : 0 < inject_Z (2 ^ Z.log2 n)).
  { rewrite <- (Zlt_Qlt 0). apply Z.pow_pos_nonneg; lia. }
  set (p := inject_Z (2 ^ Z.succ (Z.log2 d))) in *.
  set (q := inject_Z (2 ^ Z.log2 n)) in *.
  set (a := inject_Z n) in *. set (b := inject_Z d) in *.
  assert (H5 : 0 < p) by lra.
  apply Qle_shift_div_l; [exact H3|].
  assert (Hq : q / p * b == q * b / p) by (field; lra).
  rewrite Hq.
  apply Qle_shift_div_r; [exact H5|]. nra.
Qed.

Lemma round_half_even_bound (y : Q) :
  y - 1 <= inject_Z (round_half_even y) <= y + 1.
Proof.
  unfold round_half_even.
  pose proof (Qfloor_le y) as H1. pose proof (Qlt_floor y) as H2.
  rewrite inject_Z_plus in H2.
  destruct (Qcompare _ _); [destruct (Z.even _)| |];
    rewrite ?inject_Z_plus; change (inject_Z 1) with 1 in *; lra.
Qed.

(** Rounding a number of absolute value up to [2^1023] gives a finite
    double. *)
Lemma round_finite (x : Q) :
  Qabs x <= pow2 1023 -> exists r, round x = Num r.
Proof.
  intros Hx. unfold round.
  destruct (Qeq_bool x 0) eqn:E0; [eauto|].
  assert (Hnz : ~ x == 0).
  { intros H. apply Qeq_bool_iff in H. congruence. }
  cbv zeta.
  set (e := Z.max (magnitude x) (-1022)).
  assert (He : (e <= 1023)%Z).
  { unfold e. apply Z.max_lub; [|lia]. apply pow2_le_inv.
    eapply Qle_trans; [apply magnitude_below, Hnz | exact Hx]. }
  set (ulp := pow2 (e - 52)).
  assert (Hu : 0 < ulp) by apply pow2_pos.
  assert (Hu2 : ulp <= pow2 971) by (apply pow2_le; lia).
  set (n := round_half_even (x / ulp)).
  destruct (Qle_bool (pow2 1024) (Qabs (inject_Z n * ulp))) eqn:E; [|eauto].
  exfalso. apply Qle_bool_iff in E.
  pose proof (round_half_even_bound (x / ulp)) as [Hlo Hhi].
  fold n in Hlo, Hhi.
  assert (Hr : Qabs (inject_Z n * ulp) <= Qabs x + ulp).
  { apply Qabs_Qle_condition. split.
    - assert (- Qabs x <= x).
      { pose proof (Qle_Qabs (- x)) as H. rewrite Qabs_opp in H. lra. }
      assert (x - ulp <= inject_Z n * ulp).
      { assert (Hq : x - ulp == (x / ulp - 1) * ulp) by (field; lra).
        rewrite Hq. apply Qmult_le_compat_r; lra. }
      lra.
    - pose proof (Qle_Qabs x).
      assert (inject_Z n * ulp <= x + ulp).
      { assert (Hq : x + ulp == (x / ulp + 1) * ulp) by (field; lra).
        rewrite Hq. apply Qmult_le_compat_r; lra. }
      lra. }
  assert (Hc : pow2 1023 + pow2 971 < pow2 1024) by reflexivity.
  lra.
Qed.

Lemma round_rounded (x : Q) : rounded (round x).
Proof.
  unfold round. destruct (Qeq_bool x 0); [reflexivity|].
  cbv zeta. destruct (Qle_bool _ _).
  - destruct (sign_negative x); exact I.
  - apply Qred_complete, Qred_correct.
Qed.

Lemma add_rounded (x y : Q) : rounded (add (Num x) (Num y)).
Proof. apply round_rounded. Qed.

Lemma gt_irrefl (a : jsnum) : gt a a = false.
Proof.
  destruct a as [| | |q]; try reflexivity.
  simpl. apply gtb_of_le, Qle_refl.
Qed.

Lemma gt_asym (a b : jsnum) : gt a b = true -> gt b a = false.
Proof.
  destruct a as [| | |p], b as [| | |q]; simpl; try discriminate;
    try reflexivity.
  intros H. apply gtb_true in H. apply gtb_of_le, Qlt_le_weak, H.
Qed.

(** Two rounded results are equal or one is greater. *)
Lemma gt_total (a b : jsnum) :
  rounded a -> rounded b ->
  gt a b = true \/ gt b a = true \/ a = b.
Proof.
  destruct a as [| | |p], b as [| | |q]; simpl; try contradiction; auto.
  intros Hp Hq.
  destruct (gtb p q) eqn:E1; [auto|].
  destruct (gtb q p) eqn:E2; [auto|].
  right. right. apply gtb_false in E1, E2.
  assert (Heq : p == q) by (apply Qle_antisym; assumption).
  rewrite <- Hp, <- Hq. f_equal. apply Qred_complete, Heq.
Qed.

End JsArithFacts.

(** ** The venue selector and the simulators *)

Module MockDexRouterFacts.
Import JsNum JsNumFacts JsArithFacts MockDexRouter RouterSpec Fixtures.
Local Open Scope Q_scope.


(** The selector's branches, one per outcome of its comparisons. *)
Lemma select_meteora_cheaper (r m : DexQuote) (amount : Q) :
  JsArith.gt (totalCost r) (totalCost m) = true ->
  rd_dex (selectBestDex r m amount) = meteora.
Proof.
  unfold totalCost. intros H. unfold selectBestDex. cbv zeta.
  rewrite H. reflexivity.
Qed.

Lemma select_raydium_cheaper (r m : DexQuote) (amount : Q) :
  JsArith.gt (totalCost m) (totalCost r) = true ->
  rd_dex (selectBestDex r m amount) = raydium.
Proof.
  unfold totalCost. intros H. unfold selectBestDex. cbv zeta.
  rewrite (gt_asym _ _ H), H. reflexivity.
Qed.

Lemma select_equal_cost (r m : DexQuote) (amount : Q) :
  totalCost r = totalCost m ->
  rd_dex (selectBestDex r m amount)
  = if gtb (liquidity r) (liquidity m) then raydium else meteora.
Proof.
  unfold totalCost. intros H. unfold selectBestDex. cbv zeta.
  rewrite H, gt_irrefl.
  destruct (gtb (liquidity r) (liquidity m)); reflexivity.
Qed.

Lemma select_alternatives (r m : DexQuote) (amount : Q) :
  rd_alternatives (selectBestDex r m amount) = [r; m].
Proof.
  unfold selectBestDex. cbv zeta.
  destruct (JsArith.gt _ _); [reflexivity|].
  destruct (JsArith.gt _ _); [reflexivity|].
  destruct (gtb (liquidity r) (liquidity m)); reflexivity.
Qed.

(** C2.  [selectBestDex] is a function of its two quotes alone (the amount
    is not consulted).  The total cost of a quote is [amountOut +
    estimatedGas] as the code computes it, the sum rounded to a double.
    The venue whose total cost is lower is chosen; on equal total costs
    the venue with the higher liquidity is chosen; on equal liquidity too
    the choice is Meteora; these cases are exhaustive; and the decision
    carries both quotes, Raydium's first, in [alternatives] whichever
    venue is chosen. *)
Theorem selectBestDex_lower_cost_then_liquidity
    (raydiumQuote meteoraQuote : DexQuote) (amount : Q) :
  let raydiumTotalCost :=
    JsArith.add (Num (amountOut raydiumQuote))
      (Num (estimatedGas raydiumQuote)) in
  let meteoraTotalCost :=
    JsArith.add (Num (amountOut meteoraQuote))
      (Num (estimatedGas meteoraQuote)) in
  let decision := selectBestDex raydiumQuote meteoraQuote amount in
  (JsArith.gt raydiumTotalCost meteoraTotalCost = true ->
   rd_dex decision = meteora)
  /\ (JsArith.gt meteoraTotalCost raydiumTotalCost = true ->
      rd_dex decision = raydium)
  /\ (raydiumTotalCost = meteoraTotalCost ->
      liquidity meteoraQuote < liquidity raydiumQuote ->
      rd_dex decision = raydium)
  /\ (raydiumTotalCost = meteoraTotalCost ->
      liquidity raydiumQuote < liquidity meteoraQuote ->
      rd_dex decision = meteora)
  /\ (raydiumTotalCost = meteoraTotalCost ->
      liquidity raydiumQuote == liquidity meteoraQuote ->
      rd_dex decision = meteora)
  /\ (JsArith.gt raydiumTotalCost meteoraTotalCost = true
      \/ JsArith.gt meteoraTotalCost raydiumTotalCost = true
      \/ raydiumTotalCost = meteoraTotalCost)
  /\ raydiumTotalCost
     = JsArith.round (amountOut raydiumQuote + estimatedGas raydiumQuote)
  /\ meteoraTotalCost
     = JsArith.round (amountOut meteoraQuote + estimatedGas meteoraQuote)
  /\ rd_alternatives decision = [raydiumQuote; meteoraQuote]
  /\ (forall amount' : Q,
        selectBestDex raydiumQuote meteoraQuote amount' = decision).
Proof.
  cbv zeta.
  split; [apply select_meteora_cheaper|].
  split; [apply select_raydium_cheaper|].
  split.
  { intros Hc Hl. rewrite (select_equal_cost _ _ _ Hc).
    now rewrite (gtb_of_lt _ _ Hl). }
  split.
  { intros Hc Hl. rewrite (select_equal_cost _ _ _ Hc).
    now rewrite (gtb_of_le _ _ (Qlt_le_weak _ _ Hl)). }
  split.
  { intros Hc Hl. rewrite (select_equal_cost _ _ _ Hc).
    rewrite (gtb_of_le (liquidity raydiumQuote) (liquidity meteoraQuote));
      [reflexivity | rewrite Hl; apply Qle_refl]. }
  split; [apply gt_total; apply add_rounded|].
  split; [reflexivity|]. split; [reflexivity|].
  split; [apply select_alternatives | reflexivity].
Qed.

Lemma selectBestDex_lower_cost_then_liquidity_witness :
  rd_dex (selectBestDex test_raydiumQuote test_meteoraQuote 1) = meteora.
Proof.
  apply (proj1 (selectBestDex_lower_cost_then_liquidity
                  test_raydiumQuote test_meteoraQuote 1)).
  vm_compute. reflexivity.
Defined.

(** The selection on equal costs of the unit tests: the liquidities
    1,200,000 and 800,000 select Raydium. *)
Example selectBestDex_equal_costs :
  rd_dex (selectBestDex tie_raydiumQuote tie_meteoraQuote 1) = raydium
  /\ rd_reason (selectBestDex tie_raydiumQuote tie_meteoraQuote 1)
     = EqualCostsHigherLiquidity raydium 1200000 800000.
Proof. split; vm_compute; reflexivity. Qed.

(** Fully equal quotes select Meteora. *)
Example selectBestDex_fully_equal :
  rd_dex (selectBestDex tie_meteoraQuote tie_meteoraQuote 1) = meteora.
Proof. vm_compute. reflexivity. Qed.

(** Amounts of 2,000,000,000,000: the gas estimates 0.0001 and 0.00008 are
    below half the spacing of the doubles at that size, the two total
    costs are the same double, and the liquidity decides for Raydium
    although Meteora's gas estimate is the lower one. *)
Example selectBestDex_gas_absorbed :
  totalCost large_raydiumQuote = Num 2000000000000
  /\ totalCost large_meteoraQuote = Num 2000000000000
  /\ rd_dex (selectBestDex large_raydiumQuote large_meteoraQuote 1)
     = raydium.
Proof. repeat split; vm_compute; reflexivity. Qed.

(** C5.  Each adapter's quote satisfies
    [amountOut = amount * price * (1 - fee)] on its own [price] and [fee]
    fields, whatever the tokens, the amount and the random draws. *)
Theorem quote_amountOut_is_amount_price_net_of_fee
    (rnd : RandomSource) (tokenIn tokenOut : string) (amount : Q) :
  let r := getRaydiumQuote rnd tokenIn tokenOut amount in
  let m := getMeteorQuote rnd tokenIn tokenOut amount in
  amountOut r = amount * price r * (1 - fee r)
  /\ amountOut m = amount * price m * (1 - fee m).
Proof. split; reflexivity. Qed.



End MockDexRouterFacts.

(** ** The notification fan-out *)

Module WsManagerFacts.
Import WsManager FanoutSpec Fixtures.
Local Open Scope list_scope.

Lemma get_delete_same {V : Type} (k : string) (m : list (string * V)) :
  JsMap.get k (JsMap.delete k m) = None.
Proof.
  induction m as [|[k' v] m IH]; simpl; [reflexivity|].
  destruct (String.eqb k k') eqn:E; simpl; [exact IH|].
  rewrite E. exact IH.
Qed.

Lemma in_delete {V : Type} (k : string) (m : list (string * V))
    (kv : string * V) :
  In kv (JsMap.delete k m) <-> In kv m /\ fst kv <> k.
Proof.
  unfold JsMap.delete. rewrite List.filter_In, negb_true_iff.
  rewrite String.eqb_neq. intuition congruence.
Qed.

Lemma get_in {V : Type} (k : string) (v : V) (m : list (string * V)) :
  JsMap.get k m = Some v -> In (k, v) m.
Proof.
  induction m as [|[k' v'] m IH]; simpl; [discriminate|].
  destruct (String.eqb k k') eqn:E.
  - apply String.eqb_eq in E. intros [= ->]. left. congruence.
  - intros H. right. exact (IH H).
Qed.

Lemma filter_filter {A : Type} (f g : A -> bool) (l : list A) :
  List.filter f (List.filter g l)
  = List.filter (fun x => g x && f x)%bool l.
Proof.
  induction l as [|x l IH]; simpl; [reflexivity|].
  destruct (g x); simpl; [destruct (f x)|]; rewrite IH; reflexivity.
Qed.

Lemma filter_agree {A : Type} (f g : A -> bool) (l : list A) :
  (forall x, In x l -> f x = g x) -> List.filter f l = List.filter g l.
Proof.
  induction l as [|x l IH]; simpl; intros H; [reflexivity|].
  rewrite (H x) by (left; reflexivity).
  rewrite IH by (intros y Hy; apply H; right; exact Hy). reflexivity.
Qed.

(** One turn of the loops: the call is recorded, and the entry is dropped
    exactly when the call throws. *)
Lemma socket_send_send_calls (c : WebSocketConnection) (f : Frame)
    (ws : WebSocketManager) :
  send_calls (snd (socket_send c f ws))
  = send_calls ws ++ [(socket_id (conn_socket c), f)].
Proof. unfold socket_send. destruct (send_throws (conn_socket c)); reflexivity. Qed.

Lemma broadcast_loop_send_calls (es : list (string * WebSocketConnection))
    (f : Frame) (ws : WebSocketManager) :
  send_calls (broadcast_loop es f ws)
  = send_calls ws ++ List.map (attempt f) es.
Proof.
  revert ws. induction es as [|[k c] es IH]; intros ws; simpl.
  - now rewrite List.app_nil_r.
  - rewrite IH. unfold socket_send, attempt.
    destruct (send_throws (conn_socket c)); simpl;
      now rewrite <- List.app_assoc.
Qed.

Lemma broadcast_loop_connections (es : list (string * WebSocketConnection))
    (f : Frame) (ws : WebSocketManager) :
  connections (broadcast_loop es f ws)
  = List.filter (fun kv => negb (failing_key es (fst kv))) (connections ws).
Proof.
  revert ws. induction es as [|[k c] es IH]; intros ws; simpl.
  - induction (connections ws) as [|x l IHl]; simpl; congruence.
  - rewrite IH. unfold socket_send.
    destruct (send_throws (conn_socket c)); simpl.
    + unfold JsMap.delete. rewrite filter_filter.
      apply filter_agree. intros x _.
      now rewrite andb_true_r, negb_orb.
    + apply filter_agree. intros x _. now rewrite andb_false_r.
Qed.

Lemma failing_key_nodup (m : list (string * WebSocketConnection))
    (kv : string * WebSocketConnection) :
  List.NoDup (List.map fst m) -> In kv m ->
  failing_key m (fst kv) = send_throws (conn_socket (snd kv)).
Proof.
  induction m as [|[k c] m IH]; simpl; intros Hnd Hin; [contradiction|].
  inversion Hnd as [|? ? Hnotin Hnd']; subst.
  destruct Hin as [<- | Hin]; simpl.
  - rewrite String.eqb_refl. simpl.
    destruct (send_throws (conn_socket c)); [reflexivity|]. simpl.
    unfold failing_key. apply not_true_is_false. intros Hex.
    apply List.existsb_exists in Hex. destruct Hex as ([k' c'] & Hin' & Hb).
    apply andb_true_iff in Hb. destruct Hb as [Hk _]. simpl in Hk.
    apply String.eqb_eq in Hk. subst k'.
    apply Hnotin. apply List.in_map_iff. exists (k, c'). split; [reflexivity|exact Hin'].
  - assert (Hne : String.eqb k (fst kv) = false).
    { apply String.eqb_neq. intros ->. apply Hnotin.
      apply List.in_map_iff. exists kv. split; [reflexivity|exact Hin]. }
    rewrite Hne. simpl. apply IH; assumption.
Qed.

(** A broadcast calls [socket.send] once per subscriber, in the order of
    the map, whatever the earlier calls answered, and drops exactly the
    subscribers whose call threw. *)
Lemma broadcast_each_subscriber (b : BroadcastMessage)
    (ws : WebSocketManager) :
  well_formed ws ->
  send_calls (broadcast b ws)
  = send_calls ws ++ List.map (attempt (BroadcastFrameOf b)) (connections ws)
  /\ connections (broadcast b ws) = List.filter delivers (connections ws).
Proof.
  intros Hwf. unfold broadcast. split.
  - apply broadcast_loop_send_calls.
  - rewrite broadcast_loop_connections. apply filter_agree.
    intros kv Hin. unfold delivers. f_equal.
    apply failing_key_nodup; assumption.
Qed.

(** C8.  When the delivery to the current subscriber of an order id throws
    during [sendMessage], the subscriber is removed from the map (the
    others stay); a later [sendMessage] for that id then calls no socket
    and changes nothing; a later [broadcast] calls the sockets of the
    remaining subscribers only, none of which is under that id.  And every
    [broadcast] calls each subscriber's socket once, whatever the other
    calls answered, removes exactly the subscribers whose call threw, and
    returns. *)
Theorem failed_delivery_removes_subscriber
    (ws : WebSocketManager) (orderId : string)
    (connection : WebSocketConnection) (message : WebSocketMessage) :
  JsMap.get orderId (connections ws) = Some connection ->
  send_throws (conn_socket connection) = true ->
  let ws' := sendMessage orderId message ws in
  connections ws' = JsMap.delete orderId (connections ws)
  /\ send_calls ws'
     = send_calls ws ++ [(socket_id (conn_socket connection), FrameOf message)]
  /\ hasConnection orderId ws' = false
  /\ (forall m : WebSocketMessage, sendMessage orderId m ws' = ws')
  /\ (forall b : BroadcastMessage,
        send_calls (broadcast b ws')
        = send_calls ws'
          ++ List.map (attempt (BroadcastFrameOf b)) (connections ws'))
  /\ (forall kv, In kv (connections ws') -> fst kv <> orderId)
  /\ (forall (ws0 : WebSocketManager) (b : BroadcastMessage),
        well_formed ws0 ->
        send_calls (broadcast b ws0)
        = send_calls ws0
          ++ List.map (attempt (BroadcastFrameOf b)) (connections ws0)
        /\ connections (broadcast b ws0)
           = List.filter delivers (connections ws0)).
Proof.
  intros Hget Hthrow. cbv zeta.
  assert (Hconn : connections (sendMessage orderId message ws)
                  = JsMap.delete orderId (connections ws)).
  { unfold sendMessage. rewrite Hget. unfold socket_send.
    rewrite Hthrow. reflexivity. }
  assert (Hnone : JsMap.get orderId
                    (connections (sendMessage orderId message ws)) = None).
  { rewrite Hconn. apply get_delete_same. }
  split; [exact Hconn|].
  split.
  { unfold sendMessage. rewrite Hget. unfold socket_send.
    rewrite Hthrow. reflexivity. }
  split.
  { unfold hasConnection, JsMap.has. now rewrite Hnone. }
  split.
  { intros m. unfold sendMessage at 1. now rewrite Hnone. }
  split.
  { intros b. apply broadcast_loop_send_calls. }
  split.
  { intros kv Hin. rewrite Hconn in Hin. apply in_delete in Hin. tauto. }
  intros ws0 b Hwf. apply broadcast_each_subscriber. exact Hwf.
Qed.

Lemma failed_delivery_removes_subscriber_witness :
  hasConnection "order-1" (sendMessage "order-1" status_update broken_first)
  = false.
Proof.
  refine (proj1 (proj2 (proj2
    (failed_delivery_removes_subscriber broken_first "order-1"
       {| conn_orderId := "order-1"; conn_socket := mkSocket 1 true false |}
       status_update _ _)))); reflexivity.
Defined.

(** The broadcast after it reaches the second subscriber although the
    first one's channel throws. *)
Example broadcast_past_a_broken_channel :
  let ws := broadcast {| bm_status := "shutdown"; bm_data := None |}
              broken_first in
  List.map fst (send_calls ws) = [1%nat; 2%nat]
  /\ List.map fst (connections ws) = ["order-2"].
Proof. split; reflexivity. Qed.

End WsManagerFacts.


(** ** Running the engine when the stores answer *)

Module EngineFacts.
Import EngineSpec ProcessSpec OrderProcessor Fixtures.
Local Open Scope list_scope.

Lemma external_no_faults {A : Type} (call : M A) (w : World) :
  faults w = [] -> external call w = call w.
Proof. intros H. unfold external. now rewrite H. Qed.

(** A transition whose three store calls answer, on a persisted order. *)
Lemma updateOrderStatus_ok (orderId : string) (st : OrderStatus)
    (data : option ExecutionData) (w : World) :
  faults w = [] -> is_Some (orders w !! orderId) ->
  updateOrderStatus orderId st data w
  = (Ok tt, transitioned orderId st data w).
Proof.
  intros Hf [row Hrow]. destruct w as [ch cs os evs rds q wsm fl].
  simpl in *. subst fl.
  unfold updateOrderStatus, try_catch, bind, Redis.hset,
    Pg.update_status_data, Pg.insert_event, emitToOrder, external,
    transitioned, written_hash, appended_event.
  simpl. rewrite lookup_alter_eq, Hrow. reflexivity.
Qed.

(** A transition touches neither the counters, nor the routing decisions,
    nor the queue, whatever the stores answer. *)
Lemma updateOrderStatus_frame (orderId : string) (st : OrderStatus)
    (data : option ExecutionData) (w : World) :
  let run := updateOrderStatus orderId st data w in
  cache_strings (snd run) = cache_strings w
  /\ routing_decisions (snd run) = routing_decisions w
  /\ queue (snd run) = queue w.
Proof.
  destruct w as [ch cs os evs rds q wsm fl]. cbv zeta.
  unfold updateOrderStatus, try_catch, bind, Redis.hset,
    Pg.update_status_data, Pg.insert_event, emitToOrder, external, throw.
  simpl.
  destruct fl as [|[e1|] [|[e2|] [|[e3|] fl]]]; simpl;
    rewrite ?lookup_alter_eq; destruct (os !! orderId) eqn:E; simpl; auto.
Qed.

Lemma transitioned_orders_lookup (orderId : string) (st : OrderStatus)
    (data : option ExecutionData) (w : World) (row : Order) :
  orders w !! orderId = Some row ->
  orders (transitioned orderId st data w) !! orderId
  = Some (Pg.set_status_data (status_text st) data row).
Proof. intros H. simpl. rewrite lookup_alter_eq, H. reflexivity. Qed.

(** Counters: the text Redis writes is the text it reads back. *)
Lemma string2ll_ll2string (z : Z) :
  (Redis.LLONG_MIN <= z <= Redis.LLONG_MAX)%Z ->
  Redis.string2ll (Redis.ll2string z) = Some z.
Proof.
  intros [Hlo Hhi]. unfold Redis.string2ll, Redis.ll2string.
  assert (Hisi : NilZero.int_of_string (NilZero.string_of_int (Z.to_int z))
                 = Some (Z.to_int z)).
  { apply NilZero.isi; destruct z; simpl; try discriminate;
      intros [= H]; exact (DecimalPos.Unsigned.to_uint_nonnil _ H). }
  rewrite Hisi, DecimalZ.of_to, String.eqb_refl. simpl.
  apply Z.leb_le in Hlo, Hhi. rewrite Hlo, Hhi. reflexivity.
Qed.

Lemma counter_range (w : World) (key : string) (n : Z) :
  counter w key = Some n -> (Redis.LLONG_MIN <= n <= Redis.LLONG_MAX)%Z.
Proof.
  unfold counter. destruct (cache_strings w !! key) as [s|].
  - unfold Redis.string2ll.
    destruct (NilZero.int_of_string s) as [i|]; [|discriminate].
    destruct (String.eqb _ s); simpl; [|discriminate].
    destruct (Redis.LLONG_MIN <=? Z.of_int i)%Z eqn:E1; simpl;
      [|discriminate].
    destruct (Z.of_int i <=? Redis.LLONG_MAX)%Z eqn:E2; simpl;
      [|discriminate].
    intros [= <-]. split; [apply Z.leb_le, E1 | apply Z.leb_le, E2].
  - intros [= <-]. unfold Redis.LLONG_MIN, Redis.LLONG_MAX. lia.
Qed.

Lemma incr_ok (key : string) (n : Z) (w : World) :
  faults w = [] -> counter w key = Some n -> (n < Redis.LLONG_MAX)%Z ->
  Redis.incr key w
  = (Ok (n + 1)%Z,
     set_cache_strings
       (<[key := Redis.ll2string (n + 1)]> (cache_strings w)) w).
Proof.
  intros Hf Hc Hn. unfold Redis.incr.
  rewrite external_no_faults by exact Hf.
  unfold counter in Hc. rewrite Hc.
  apply Z.ltb_lt in Hn. rewrite Hn. reflexivity.
Qed.

Lemma updateMetrics_failure_ok (w : World) (nt nf : Z) :
  faults w = [] ->
  counter w "stats:total_orders" = Some nt -> (nt < Redis.LLONG_MAX)%Z ->
  counter w "stats:failed_orders" = Some nf -> (nf < Redis.LLONG_MAX)%Z ->
  updateMetrics "" false w
  = (Ok tt,
     set_cache_strings
       (<["stats:failed_orders" := Redis.ll2string (nf + 1)]>
          (<["stats:total_orders" := Redis.ll2string (nt + 1)]>
             (cache_strings w))) w).
Proof.
  intros Hf Ht Hnt Hfl Hnf. unfold updateMetrics.
  unfold bind at 1. rewrite (incr_ok _ nt) by assumption.
  unfold bind at 1. rewrite (incr_ok _ nf).
  - destruct w; reflexivity.
  - destruct w; exact Hf.
  - unfold counter in *. destruct w; simpl in *.
    rewrite lookup_insert_ne by discriminate. exact Hfl.
  - exact Hnf.
Qed.

Lemma quotes_run (dexRouter : DexRouter) (order : Order) (w : World) :
  quotes dexRouter order w = (quotes_outcome dexRouter order, w).
Proof.
  unfold quotes, quotes_outcome, promise_all, bind, lift, ret.
  destruct (r_getRaydiumQuote _ _ _ _), (r_getMeteorQuote _ _ _ _);
    reflexivity.
Qed.

Lemma persistRoutingDecision_ok (orderId : string) (d : RoutingDecision)
    (w : World) :
  faults w = [] -> is_Some (orders w !! orderId) ->
  exists rows,
    persistRoutingDecision orderId d w
    = (Ok tt, set_routing_decisions rows w).
Proof.
  intros Hf [row Hrow].
  unfold persistRoutingDecision, Pg.insert_routing_decision.
  rewrite external_no_faults by exact Hf. simpl. rewrite Hrow. eauto.
Qed.

(** The [try] block up to the router step that rejects. *)
Lemma try_raises (dexRouter : DexRouter) (order : Order) (w : World)
    (row : Order) (stage : Stage) (e : Exn) :
  faults w = [] ->
  orders w !! id order = Some row ->
  raises_at dexRouter order stage e ->
  exists (w1 : World) (s : string),
    processOrder_try dexRouter order w = (Throw e, w1)
    /\ faults w1 = []
    /\ orders w1 !! id order = Some (Pg.set_status_data s None row)
    /\ cache_strings w1 = cache_strings w
    /\ order_events w1
       = order_events w
         ++ List.map (fun st => appended_event (id order) st None)
              (path_before stage).
Proof.
  intros Hf Hrow Hraise. unfold processOrder_try.
  unfold bind at 1.
  rewrite updateOrderStatus_ok by (rewrite ?Hrow; eauto).
  set (w1 := transitioned (id order) routing None w).
  assert (Hrow1 : orders w1 !! id order
                  = Some (Pg.set_status_data "routing" None row))
    by (apply (transitioned_orders_lookup _ routing), Hrow).
  unfold bind at 1. rewrite quotes_run.
  destruct stage; simpl in Hraise.
  - rewrite Hraise. exists w1, "routing"%string.
    repeat split; try assumption.
  - destruct Hraise as (r & m & Hq & Hs). rewrite Hq.
    unfold bind at 1, lift. rewrite Hs.
    exists w1, "routing"%string. repeat split; try assumption.
  - destruct Hraise as (r & m & d & Hq & Hs & Hx). rewrite Hq.
    unfold bind at 1, lift. rewrite Hs.
    destruct (persistRoutingDecision_ok (id order) d w1) as [rows Hp];
      [exact Hf | rewrite Hrow1; eauto |].
    unfold bind at 1. rewrite Hp.
    set (w2 := set_routing_decisions rows w1).
    unfold bind at 1.
    rewrite updateOrderStatus_ok by (simpl; rewrite ?Hrow1; eauto).
    set (w3 := transitioned (id order) building None w2).
    assert (Hrow3 : orders w3 !! id order
                    = Some (Pg.set_status_data "building" None row)).
    { unfold w3.
      rewrite (transitioned_orders_lookup _ building None w2 _ Hrow1).
      reflexivity. }
    unfold bind at 1, simulateDelay, ret.
    unfold bind at 1.
    rewrite updateOrderStatus_ok by (simpl; rewrite ?Hrow3; eauto).
    set (w4 := transitioned (id order) submitted None w3).
    unfold bind at 1. rewrite Hx.
    exists w4, "submitted"%string.
    split; [reflexivity|]. split; [exact Hf|]. split.
    { unfold w4.
      rewrite (transitioned_orders_lookup _ submitted None w3 _ Hrow3).
      reflexivity. }
    split; [reflexivity|].
    simpl. rewrite <- !List.app_assoc. reflexivity.
Qed.

(** The [catch] block when the stores answer. *)
Lemma catch_run (order : Order) (e : Exn) (w : World) (nt nf : Z) :
  faults w = [] ->
  is_Some (orders w !! id order) ->
  counter w "stats:total_orders" = Some nt -> (nt < Redis.LLONG_MAX)%Z ->
  counter w "stats:failed_orders" = Some nf -> (nf < Redis.LLONG_MAX)%Z ->
  processOrder_catch order e w
  = (Throw e,
     set_cache_strings
       (<["stats:failed_orders" := Redis.ll2string (nf + 1)]>
          (<["stats:total_orders" := Redis.ll2string (nt + 1)]>
             (cache_strings w)))
       (transitioned (id order) failed (Some (failure_data e)) w)).
Proof.
  intros Hf Hrow Ht Hnt Hfl Hnf. unfold processOrder_catch.
  unfold bind at 1. rewrite updateOrderStatus_ok by assumption.
  unfold bind at 1.
  rewrite (updateMetrics_failure_ok _ nt nf) by assumption.
  reflexivity.
Qed.



End EngineFacts.

(** ** The transition choke point *)

Module TransitionFacts.
Import EngineSpec ProcessSpec OrderProcessor EngineFacts Fixtures.
Local Open Scope list_scope.

(** C3, as stated, fails: with the cache answering and PostgreSQL dropping
    the connection, the transition throws after the cache entry of the
    order has been written. *)
Lemma transition_not_atomic :
  ~ atomic_at "test-order-123" routing None world_db_down.
Proof.
  unfold atomic_at. intros [[H _] | [_ (H & _)]].
  - vm_compute in H. discriminate.
  - apply (f_equal (fun m => m !! "order:test-order-123"%string)) in H.
    vm_compute in H. discriminate.
Qed.

(** C3, amended.  The four effects of [updateOrderStatus] are attempted in
    the order (a) cache entry, (b) durable row, (c) event, (d)
    notification, and nothing is rolled back: either all four occur and
    the call returns, or the call throws after exactly the effects that
    precede the failing store call, that is none, (a), or (a) and (b).
    When the stores answer and the order is persisted, all four occur. *)
Theorem updateOrderStatus_effects_in_order (orderId : string)
    (st : OrderStatus) (data : option ExecutionData) (w : World) :
  let run := updateOrderStatus orderId st data w in
  let done := transitioned orderId st data w in
  ((fst run = Ok tt /\ same_effects (snd run) done)
   \/ (exists e, fst run = Throw e /\ same_effects (snd run) w)
   \/ (exists e, fst run = Throw e
         /\ cache_hashes (snd run) = cache_hashes done
         /\ orders (snd run) = orders w
         /\ order_events (snd run) = order_events w
         /\ ws (snd run) = ws w)
   \/ (exists e, fst run = Throw e
         /\ cache_hashes (snd run) = cache_hashes done
         /\ orders (snd run) = orders done
         /\ order_events (snd run) = order_events w
         /\ ws (snd run) = ws w))
  /\ (faults w = [] -> is_Some (orders w !! orderId) ->
      run = (Ok tt, done)).
Proof.
  cbv zeta. split; [|apply updateOrderStatus_ok].
  destruct w as [ch cs os evs rds q wsm fl].
  unfold updateOrderStatus, try_catch, bind, Redis.hset,
    Pg.update_status_data, Pg.insert_event, emitToOrder, external,
    transitioned, written_hash, appended_event, same_effects, throw.
  simpl.
  destruct fl as [|[e1|] [|[e2|] [|[e3|] fl]]]; simpl;
    rewrite ?lookup_alter_eq; destruct (os !! orderId) eqn:E; simpl;
    eauto 10.
Qed.

Lemma updateOrderStatus_effects_in_order_witness :
  updateOrderStatus "test-order-123" routing None world_pending
  = (Ok tt, transitioned "test-order-123" routing None world_pending).
Proof.
  apply (proj2 (updateOrderStatus_effects_in_order
                  "test-order-123" routing None world_pending)).
  - reflexivity.
  - exists test_order. reflexivity.
Defined.

(** C1, as stated, fails: a confirmed order that is sent to [failed]
    (as the [catch] block of [processOrder] does when the metrics update
    after the confirmation throws) gets an event appended. *)
Lemma terminal_order_is_overwritten :
  ~ terminal_immutable_at "test-order-123" failed
      (Some (failure_data (Error "Metrics unavailable"))) world_confirmed.
Proof.
  unfold terminal_immutable_at. intros H.
  specialize (H (Pg.set_status_data "confirmed" (Some swap_data) test_order)
                eq_refl eq_refl).
  destruct H as [_ H]. vm_compute in H. discriminate.
Qed.

(** C1, amended.  [updateOrderStatus] has no guard on the current status:
    for a persisted order in a terminal status, with the stores answering,
    the transition is applied like any other.  The stored status becomes
    the new status, the stored execution data becomes the payload of the
    call, one event is appended to the log, and the cache entry is
    written. *)
Theorem updateOrderStatus_applies_from_terminal (orderId : string)
    (newStatus : OrderStatus) (data : option ExecutionData) (w : World)
    (row : Order) :
  faults w = [] ->
  orders w !! orderId = Some row ->
  terminal_text (status row) = true ->
  let run := updateOrderStatus orderId newStatus data w in
  fst run = Ok tt
  /\ orders (snd run) !! orderId
     = Some (Pg.set_status_data (status_text newStatus) data row)
  /\ order_events (snd run)
     = order_events w ++ [appended_event orderId newStatus data]
  /\ cache_hashes (snd run) !! ("order:" ++ orderId)%string
     = Some (written_hash orderId newStatus data w).
Proof.
  intros Hf Hrow _. cbv zeta.
  rewrite updateOrderStatus_ok by (rewrite ?Hrow; eauto).
  simpl. repeat split.
  - rewrite lookup_alter_eq, Hrow. reflexivity.
  - apply lookup_insert_eq.
Qed.

Lemma updateOrderStatus_applies_from_terminal_witness :
  orders (snd (updateOrderStatus "test-order-123" routing None
                 world_confirmed)) !! "test-order-123"%string
  = Some (Pg.set_status_data "routing" None test_order).
Proof.
  refine (proj1 (proj2 (updateOrderStatus_applies_from_terminal
            "test-order-123" routing None world_confirmed
            (Pg.set_status_data "confirmed" (Some swap_data) test_order)
            _ _ _))); reflexivity.
Defined.

End TransitionFacts.

(** ** Processing an order *)

Module ProcessFacts.
Import EngineSpec ProcessSpec OrderProcessor EngineFacts Fixtures.
Local Open Scope list_scope.




(** What the run of the counterexample does: the transition to [routing]
    is made, the quote request rejects, the cache rejects the transition
    to [failed]; the caller sees the exception of the cache, the order
    stays [routing] and no counter moves. *)
Example processOrder_failure_unrecorded_run :
  let run := processOrder rejecting_router test_order
               world_cache_down_on_failure in
  fst run = Throw (Error "Connection is closed.")
  /\ (status <$> orders (snd run) !! "test-order-123"%string)
     = Some "routing"%string
  /\ List.map ev_status (order_events (snd run)) = ["routing"%string]
  /\ cache_strings (snd run) = ∅.
Proof. repeat split; vm_compute; reflexivity. Qed.

(** The failure test of the unit tests, run. *)
Example processOrder_quote_failure_run :
  let run := processOrder rejecting_router test_order world_pending in
  fst run = Throw (Error "DEX error")
  /\ List.map ev_status (order_events (snd run)) = ["routing"; "failed"]%string
  /\ cache_strings (snd run) !! "stats:total_orders"%string = Some "1"%string
  /\ cache_strings (snd run) !! "stats:failed_orders"%string = Some "1"%string.
Proof. repeat split; vm_compute; reflexivity. Qed.

(** A run of the production router on the pending test order. *)
Example processOrder_success_run :
  let run := processOrder (mockDexRouter half half half) test_order
               world_pending in
  List.map ev_status (order_events (snd run))
  = ["routing"; "building"; "submitted"; "confirmed"]%string
  /\ List.length (routing_decisions (snd run)) = 1%nat
  /\ cache_strings (snd run) !! "stats:successful_orders"%string
     = Some "1"%string.
Proof. repeat split; vm_compute; reflexivity. Qed.

(** A retry of the job after a failed run starts again at [routing]: the
    stored status leaves [failed]. *)
Example retry_after_failure_leaves_failed :
  let first := processOrder rejecting_router test_order world_pending in
  let second := processOrder (mockDexRouter half half half) test_order
                  (snd first) in
  status <$> (orders (snd first) !! "test-order-123"%string)
  = Some "failed"%string
  /\ status <$> (orders (snd second) !! "test-order-123"%string)
     = Some "confirmed"%string.
Proof. split; vm_compute; reflexivity. Qed.

End ProcessFacts.

(** ** Submission *)


Module SubmitFacts.
Import EngineSpec SubmitSpec OrderProcessor EngineFacts Fixtures.
Local Open Scope list_scope.

Lemma tasks_for_app (k : string) (q1 q2 : list Job) :
  tasks_for k (q1 ++ q2)
  = (tasks_for k q1 + tasks_for k q2)%nat.
Proof.
  unfold tasks_for. now rewrite List.filter_app, List.length_app.
Qed.

Lemma tasks_for_absent (k : string) (q : list Job) :
  JobQueue.has_job k q = false -> tasks_for k q = 0%nat.
Proof.
  unfold JobQueue.has_job, tasks_for.
  induction q as [|j q IH]; simpl; [reflexivity|].
  destruct (String.eqb k (job_id j)); simpl; [discriminate|exact IH].
Qed.

Lemma has_job_queued (order : Order) (q : list Job) :
  JobQueue.has_job (id order)
    (if JobQueue.has_job (id order) q then q else q ++ [job_of order])
  = true.
Proof.
  destruct (JobQueue.has_job (id order) q) eqn:Eh; [exact Eh|].
  unfold JobQueue.has_job. rewrite List.existsb_app. simpl.
  rewrite String.eqb_refl. now rewrite Bool.orb_true_r.
Qed.

Lemma insert_order_ok (order : Order) (w w1 : World) :
  Pg.insert_order order w = (Ok tt, w1) ->
  queue w1 = queue w /\ orders w !! id order = None.
Proof.
  unfold Pg.insert_order, external.
  destruct w as [ch cs os evs rds q wsm fl]; simpl.
  destruct fl as [|[e|] fl]; simpl; try discriminate;
    destruct (Pg.order_row order); try discriminate;
    destruct (os !! id order); intros [= <-]; auto.
Qed.

Lemma insert_order_throw (order : Order) (w w1 : World) (e : Exn) :
  Pg.insert_order order w = (Throw e, w1) -> queue w1 = queue w.
Proof.
  unfold Pg.insert_order, external.
  destruct w as [ch cs os evs rds q wsm fl]; simpl.
  destruct fl as [|[e0|] fl]; simpl;
    try (intros [= ? <-]; reflexivity);
    (destruct (Pg.order_row order);
     [destruct (os !! id order)|]; intros [= ? <-]; reflexivity).
Qed.

Lemma insert_order_taken (order : Order) (w : World) :
  is_Some (orders w !! id order) ->
  exists e w1, Pg.insert_order order w = (Throw e, w1).
Proof.
  intros [row Hrow]. unfold Pg.insert_order, external.
  destruct w as [ch cs os evs rds q wsm fl]; simpl in *.
  destruct fl as [|[e|] fl]; simpl; eauto;
    destruct (Pg.order_row order); rewrite ?Hrow; eauto.
Qed.

Lemma add_ok (order : Order) (w w1 : World) :
  JobQueue.add "execute-order" order (id order) w = (Ok tt, w1) ->
  (JobQueue.has_job (id order) (queue w) = true /\ queue w1 = queue w)
  \/ (JobQueue.has_job (id order) (queue w) = false
      /\ queue w1 = queue w ++ [job_of order]).
Proof.
  unfold JobQueue.add, external.
  destruct w as [ch cs os evs rds q wsm fl]; simpl.
  destruct fl as [|[e|] fl]; simpl;
    destruct (JobQueue.has_job (id order) q) eqn:Eh;
    intros [= <-]; auto.
Qed.

Lemma add_throw (order : Order) (w w1 : World) (e : Exn) :
  JobQueue.add "execute-order" order (id order) w = (Throw e, w1) ->
  queue w1 = queue w.
Proof.
  unfold JobQueue.add, external.
  destruct w as [ch cs os evs rds q wsm fl]; simpl.
  destruct fl as [|[e0|] fl]; simpl;
    destruct (JobQueue.has_job (id order) q);
    intros [= ? <-]; reflexivity.
Qed.

(** What [submitOrder] does to the queue, whatever the stores answer:
    nothing, or (when no job of that id is queued and no such order is
    persisted) one job appended. *)
Lemma submitOrder_queue (order : Order) (w : World) :
  let run := submitOrder order w in
  (queue (snd run) = queue w
   /\ (fst run = Ok tt -> JobQueue.has_job (id order) (queue w) = true))
  \/ (JobQueue.has_job (id order) (queue w) = false
      /\ orders w !! id order = None
      /\ queue (snd run) = queue w ++ [job_of order]).
Proof.
  cbv zeta. destruct (submitOrder order w) as [r w'] eqn:Erun. simpl.
  unfold submitOrder, try_catch, persistOrder in Erun.
  unfold bind at 1 in Erun.
  destruct (Pg.insert_order order w) as [[[]|e1] w1] eqn:E1.
  - destruct (insert_order_ok _ _ _ E1) as [Hq1 Hnone].
    unfold bind at 1 in Erun.
    destruct (JobQueue.add "execute-order" order (id order) w1)
      as [[[]|e2] w2] eqn:E2.
    + pose proof (updateOrderStatus_frame (id order) pending None w2)
        as (_ & _ & Hq3).
      destruct (updateOrderStatus (id order) pending None w2) as [r3 w3].
      simpl in Hq3.
      assert (Hw' : w' = w3)
        by (destruct r3; unfold throw in Erun; simpl in Erun; congruence).
      subst w'.
      pose proof (add_ok _ _ _ E2) as H2. rewrite Hq1 in H2.
      destruct H2 as [[Hh H2] | [Hh H2]].
      * left. rewrite Hq3, H2. auto.
      * right. rewrite Hq3, H2. auto.
    + left. unfold throw in Erun. injection Erun as <- <-.
      split; [|discriminate].
      rewrite <- Hq1. exact (add_throw _ _ _ _ E2).
  - left. unfold throw in Erun. injection Erun as <- <-.
    split; [|discriminate]. exact (insert_order_throw _ _ _ _ E1).
Qed.

Lemma submitOrder_taken (order : Order) (w : World) :
  is_Some (orders w !! id order) ->
  exists e, fst (submitOrder order w) = Throw e.
Proof.
  intros Hrow. destruct (insert_order_taken order w Hrow) as (e & w1 & H).
  unfold submitOrder, try_catch, persistOrder. unfold bind at 1.
  rewrite H. simpl. eauto.
Qed.

(** The run of [submitOrder] when the stores and the queue answer, the id
    is new and the columns accept the order. *)
Lemma submitOrder_run (order row : Order) (w : World) :
  faults w = [] ->
  orders w !! id order = None ->
  Pg.order_row order = Ok row ->
  submitOrder order w
  = (Ok tt,
     transitioned (id order) pending None
       (set_queue (if JobQueue.has_job (id order) (queue w) then queue w
                   else queue w ++ [job_of order])
          (set_orders (<[id order := row]> (orders w)) w))).
Proof.
  intros Hf Hnone Hrow. unfold submitOrder, try_catch, persistOrder.
  unfold bind at 1. unfold Pg.insert_order.
  rewrite external_no_faults by exact Hf. rewrite Hrow, Hnone.
  unfold bind at 1. unfold JobQueue.add.
  rewrite external_no_faults by (destruct w; exact Hf).
  simpl queue.
  destruct (JobQueue.has_job (id order) (queue w)) eqn:Eh.
  - rewrite updateOrderStatus_ok;
      [destruct w; reflexivity | destruct w; exact Hf |].
    simpl. rewrite lookup_insert_eq. eauto.
  - rewrite updateOrderStatus_ok;
      [destruct w; reflexivity | destruct w; exact Hf |].
    simpl. rewrite lookup_insert_eq. eauto.
Qed.

(** After a submission that returned, the order is persisted. *)
Lemma submitOrder_persists (order : Order) (w : World) :
  fst (submitOrder order w) = Ok tt ->
  is_Some (orders (snd (submitOrder order w)) !! id order).
Proof.
  destruct (submitOrder order w) as [r w'] eqn:Erun. simpl. intros ->.
  unfold submitOrder, try_catch, persistOrder in Erun.
  unfold bind at 1 in Erun.
  destruct (Pg.insert_order order w) as [[[]|e1] w1] eqn:E1;
    [|discriminate].
  assert (H1 : is_Some (orders w1 !! id order)).
  { revert E1. unfold Pg.insert_order, external.
    destruct w as [ch cs os evs rds q wsm fl]; simpl.
    destruct fl as [|[e|] fl]; simpl; try discriminate;
      destruct (Pg.order_row order); try discriminate;
      destruct (os !! id order); intros [= <-]; simpl;
      rewrite lookup_insert_eq; eauto. }
  unfold bind at 1 in Erun.
  destruct (JobQueue.add "execute-order" order (id order) w1)
    as [[[]|e2] w2] eqn:E2; [|discriminate].
  assert (H2 : orders w2 = orders w1).
  { revert E2. unfold JobQueue.add, external.
    destruct w1 as [ch cs os evs rds q wsm fl]; simpl.
    destruct fl as [|[e|] fl]; simpl; try discriminate;
      destruct (JobQueue.has_job (id order) q); intros [= <-];
      reflexivity. }
  rewrite <- H2 in H1. clear E1 E2 H2.
  revert Erun. unfold updateOrderStatus, try_catch, bind, Redis.hset,
    Pg.update_status_data, Pg.insert_event, emitToOrder, external, throw.
  destruct w2 as [ch cs os evs rds q wsm fl]. simpl in *.
  destruct H1 as [row Hrow].
  destruct fl as [|[e1|] [|[e2|] [|[e3|] fl]]]; simpl;
    rewrite ?lookup_alter_eq, ?Hrow; simpl; try discriminate;
    intros [= <-]; simpl; rewrite lookup_alter_eq, Hrow; simpl; eauto.
Qed.

Lemma submitOrder_one_task (order : Order) (w : World) :
  one_task_per_id (queue w) ->
  one_task_per_id (queue (snd (submitOrder order w))).
Proof.
  pose proof (submitOrder_queue order w) as H. cbv zeta in H.
  intros Hone k. destruct H as [[Hq _] | (Hh & _ & Hq)]; rewrite Hq.
  - apply Hone.
  - rewrite tasks_for_app.
    unfold tasks_for at 2. simpl.
    destruct (String.eqb k (id order)) eqn:Ek; simpl.
    + apply String.eqb_eq in Ek. subst k.
      rewrite (tasks_for_absent _ _ Hh). lia.
    + specialize (Hone k). lia.
Qed.

Lemma submissions_one_task (l : list Order) (w : World) :
  one_task_per_id (queue w) ->
  one_task_per_id (queue (submissions l w)).
Proof.
  revert w. induction l as [|order rest IH]; intros w Hone; [exact Hone|].
  simpl. apply IH, submitOrder_one_task, Hone.
Qed.

(** C7.  [submitOrder] hands the queue one job for the order, whose id is
    the order's id: [{jobId: order.id, name: 'execute-order', data:
    order}].  When the stores and the queue answer, the id is new and the
    columns accept the order, it returns and the queue is the old one with
    that job appended, or unchanged if a job of that id was queued
    already.  Whatever the stores answer: the queue afterwards is the old
    one or the old one with that job appended; when [submitOrder] returns,
    a job with the order's id is queued; submitting an order id that is
    already queued leaves the queue as it is; submitting an order that is
    already persisted throws and leaves the queue as it is, so that a
    second submission after one that returned adds no task; and if no job
    id occurs twice in the queue before, none does after, nor after any
    further submissions of any orders: the tasks that the worker can be
    given are the jobs of the queue, of which there is never more than one
    for one order id. *)
Theorem submitOrder_one_task_per_order (order : Order) (w : World) :
  let run := submitOrder order w in
  (faults w = [] -> orders w !! id order = None ->
   (exists row, Pg.order_row order = Ok row) ->
   fst run = Ok tt
   /\ queue (snd run)
      = if JobQueue.has_job (id order) (queue w) then queue w
        else queue w ++ [job_of order])
  /\ (job_id (job_of order) = id order
      /\ job_name (job_of order) = "execute-order"%string
      /\ job_data (job_of order) = order)
  /\ (queue (snd run) = queue w
      \/ queue (snd run) = queue w ++ [job_of order])
  /\ (fst run = Ok tt ->
      exists j, In j (queue (snd run)) /\ job_id j = id order)
  /\ (JobQueue.has_job (id order) (queue w) = false -> fst run = Ok tt ->
      queue (snd run) = queue w ++ [job_of order])
  /\ (JobQueue.has_job (id order) (queue w) = true ->
      queue (snd run) = queue w)
  /\ (is_Some (orders w !! id order) ->
      (exists e, fst run = Throw e) /\ queue (snd run) = queue w)
  /\ (fst run = Ok tt ->
      let again := submitOrder order (snd run) in
      (exists e, fst again = Throw e)
      /\ queue (snd again) = queue (snd run))
  /\ (one_task_per_id (queue w) -> one_task_per_id (queue (snd run)))
  /\ (forall further : list Order,
        one_task_per_id (queue w) ->
        one_task_per_id (queue (submissions (order :: further) w))).
Proof.
  cbv zeta.
  assert (Hall : forall further : list Order,
            one_task_per_id (queue w) ->
            one_task_per_id (queue (submissions (order :: further) w))).
  { intros further. apply submissions_one_task. }
  pose proof (submitOrder_queue order w) as H.
  pose proof (submitOrder_taken order w) as Htaken.
  pose proof (submitOrder_persists order w) as Hpers.
  pose proof (submitOrder_queue order (snd (submitOrder order w))) as H2.
  pose proof (submitOrder_taken order (snd (submitOrder order w))) as Ht2.
  cbv zeta in H, H2.
  split.
  { intros Hf Hnone [row Hrow].
    rewrite (submitOrder_run order row w Hf Hnone Hrow). split; reflexivity. }
  destruct (submitOrder order w) as [r w']. simpl in *.
  split; [repeat split|].
  split.
  { destruct H as [[Hq _] | (_ & _ & Hq)]; auto. }
  split.
  { intros ->. destruct H as [[Hq Hh] | (Hh & _ & Hq)].
    + specialize (Hh eq_refl). rewrite Hq.
      unfold JobQueue.has_job in Hh. apply List.existsb_exists in Hh.
      destruct Hh as (j & Hin & Heq). apply String.eqb_eq in Heq.
      exists j. auto.
    + exists (job_of order). rewrite Hq. split; [|reflexivity].
      apply List.in_or_app. right. left. reflexivity. }
  split.
  { intros Hno ->. destruct H as [[Hq Hh] | (_ & _ & Hq)]; [|exact Hq].
    specialize (Hh eq_refl). congruence. }
  split.
  { intros Hyes. destruct H as [[Hq _] | (Hh & _)];
      [exact Hq | congruence]. }
  split.
  { intros Hrow. split; [exact (Htaken Hrow)|].
    destruct Hrow as [row Hrow].
    destruct H as [[Hq _] | (_ & Hnone & _)]; [exact Hq | congruence]. }
  split.
  { intros Hok. specialize (Hpers Hok). split; [exact (Ht2 Hpers)|].
    destruct Hpers as [row Hrow].
    destruct H2 as [[Hq _] | (_ & Hnone & _)]; [exact Hq | congruence]. }
  split; [|exact Hall].
  intros Hone k. destruct H as [[Hq _] | (Hh & _ & Hq)]; rewrite Hq.
  + apply Hone.
  + rewrite tasks_for_app.
    unfold tasks_for at 2. simpl.
    destruct (String.eqb k (id order)) eqn:Ek; simpl.
    * apply String.eqb_eq in Ek. subst k.
      rewrite (tasks_for_absent _ _ Hh). lia.
    * specialize (Hone k). lia.
Qed.

Lemma submitOrder_one_task_per_order_witness :
  fst (submitOrder test_order empty_world) = Ok tt
  /\ queue (snd (submitOrder test_order empty_world)) = [job_of test_order].
Proof.
  refine (proj1 (submitOrder_one_task_per_order test_order empty_world)
            eq_refl eq_refl _).
  eexists. vm_compute. reflexivity.
Defined.

(** The submission test of the unit tests, and a second submission. *)
Example submitOrder_twice :
  let first := submitOrder test_order empty_world in
  let second := submitOrder test_order (snd first) in
  fst first = Ok tt
  /\ List.map job_id (queue (snd first)) = ["test-order-123"%string]
  /\ List.map ev_status (order_events (snd first)) = ["pending"%string]
  /\ fst second
     = Throw (Error
         "duplicate key value violates unique constraint orders_pkey")
  /\ List.map job_id (queue (snd second)) = ["test-order-123"%string].
Proof. repeat split; vm_compute; reflexivity. Qed.

(** The columns of the table at work: an amount with nine decimals is
    stored rounded to eight, and an amount of twelve integer digits is
    refused. *)
Example persistOrder_rounds_and_refuses :
  Pg.numeric 20 8 0.123456789 = Some 0.12345679%Q
  /\ Pg.numeric 20 8 1000000000000 = None
  /\ Pg.numeric 5 4 10 = None
  /\ fst (submitOrder
            (mkOrder "o" market "SOL" "USDC" 1000000000000 0.01 "pending"
               None None) empty_world)
     = Throw Pg.numeric_field_overflow.
Proof. repeat split; vm_compute; reflexivity. Qed.

End SubmitFacts.

(** ** Cancellation *)

Module CancelFacts.
Import CancelSpec OrderProcessor Fixtures.
Local Open Scope list_scope.




(** What the run of the counterexample leaves: the reply 500, the stored
    status [cancelled], and no event. *)
Example cancelOrder_half_done_run :
  let run := OrderRoutes.cancelOrder "test-order-123"
               world_event_insert_down in
  fst run = Ok {| reply_status := 500;
                  reply_body :=
                    ErrorBody "Internal Server Error"
                      "Failed to cancel order" |}
  /\ (status <$> orders (snd run) !! "test-order-123"%string)
     = Some "cancelled"%string
  /\ order_events (snd run) = [].
Proof. repeat split; vm_compute; reflexivity. Qed.

(** A confirmed order and an unknown id. *)
Example cancelOrder_refusals :
  fst (OrderRoutes.cancelOrder "test-order-123" world_confirmed)
  = Ok {| reply_status := 400;
          reply_body :=
            ErrorBody "Cannot cancel order"
              "Order is in confirmed status and cannot be cancelled" |}
  /\ snd (OrderRoutes.cancelOrder "test-order-123" world_confirmed)
     = world_confirmed
  /\ reply_status
       <$> (match fst (OrderRoutes.cancelOrder "unknown" world_confirmed)
            with Ok r => Some r | Throw _ => None end)
     = Some 404%nat.
Proof. repeat split; vm_compute; reflexivity. Qed.

End CancelFacts.

(** ** Metrics *)


Module MetricsFacts.
Import MetricsSpec OrderProcessor JsNumFacts Fixtures.


Lemma positive_not_zero (t : Q) : (0 < t)%Q -> Qeq_bool t 0 = false.
Proof.
  intros Hgt. destruct (Qeq_bool t 0) eqn:Ez; [|reflexivity].
  apply Qeq_bool_iff in Ez. rewrite Ez in Hgt.
  exfalso. exact (Qlt_irrefl _ Hgt).
Qed.


Lemma getMetrics_run (w : World) :
  faults w = [] ->
  getMetrics w
  = (Ok (let totalOrders := reported w "stats:total_orders" in
         let successfulOrders := reported w "stats:successful_orders" in
         {| totalOrders := totalOrders;
            successfulOrders := successfulOrders;
            failedOrders := reported w "stats:failed_orders";
            raydiumRouted := reported w "stats:raydium_routed";
            meteoraRouted := reported w "stats:meteora_routed";
            successRate :=
              if JsArith.gt totalOrders (Num 0)
              then JsArith.mul (JsArith.div successfulOrders totalOrders)
                     (Num 100)
              else Num 0 |}), w).
Proof.
  intros Hf. destruct w as [ch cs os evs rds q wsm fl].
  simpl in Hf. subst fl. reflexivity.
Qed.



(** The two metrics tests of the unit tests. *)
Example getMetrics_counted :
  fst (getMetrics world_counted)
  = Ok {| totalOrders := Num 100; successfulOrders := Num 90;
          failedOrders := Num 10; raydiumRouted := Num 60;
          meteoraRouted := Num 30;
          successRate := Num 90 |}.
Proof. vm_compute. reflexivity. Qed.

Example getMetrics_missing :
  fst (getMetrics empty_world)
  = Ok {| totalOrders := Num 0; successfulOrders := Num 0;
          failedOrders := Num 0; raydiumRouted := Num 0;
          meteoraRouted := Num 0; successRate := Num 0 |}.
Proof. reflexivity. Qed.

(** A total that does not parse is reported as [NaN] and rated 0. *)
Example getMetrics_garbage_total :
  successRate
    <$> (match fst (getMetrics
                      (set_cache_strings
                         (<["stats:total_orders" := "n/a"]> ∅) empty_world))
         with Ok m => Some m | Throw _ => None end)
  = Some (Num 0).
Proof. reflexivity. Qed.

(** Rounding is visible in the report: 29 successful orders of 100 are
    rated 28.999999999999996, and a total of [2^53 + 1] is reported as
    [2^53]. *)
Example getMetrics_rounds :
  JsArith.mul (JsArith.div (Num 29) (Num 100)) (Num 100)
  = Num (8162774324609023 # 281474976710656)
  /\ JsArith.parseInt "9007199254740993" = Num 9007199254740992.
Proof. split; vm_compute; reflexivity. Qed.

(** A counter text of 310 digits reads as the infinity, and the rate of an
    infinite successful count is infinite or [NaN]. *)
Example getMetrics_huge_counter :
  JsArith.parseInt huge_text = PosInfinity
  /\ JsArith.mul (JsArith.div PosInfinity (Num 5)) (Num 100) = PosInfinity
  /\ JsArith.mul (JsArith.div PosInfinity PosInfinity) (Num 100) = NaN.
Proof. repeat split; vm_compute; reflexivity. Qed.

End MetricsFacts.

(** ** The venue adapters and the selection *)

Module RouterFacts.
Import JsNum JsNumFacts JsArithFacts MockDexRouter RouterSpec Fixtures.
Local Open Scope Q_scope.

(** X1.  With draws in [[0, 1)], the Raydium adapter quotes a price
    between 98 and 102 and a liquidity between 1000000 and 1500000, the
    Meteora adapter a price between 97 and 103 and a liquidity between
    800000 and 1200000, bounds included (rounding reaches the upper ones);
    Meteora's fee and gas estimate are below Raydium's, and each quote
    names its own venue. *)
Theorem quotes_within_venue_ranges (rnd : RandomSource)
    (tokenIn tokenOut : string) (amount : Q) :
  unit_interval (rnd 1%nat) -> unit_interval (rnd 2%nat) ->
  let r := getRaydiumQuote rnd tokenIn tokenOut amount in
  let m := getMeteorQuote rnd tokenIn tokenOut amount in
  (98 <= price r /\ price r <= 102)
  /\ (1000000 <= liquidity r /\ liquidity r <= 1500000)
  /\ (97 <= price m /\ price m <= 103)
  /\ (800000 <= liquidity m /\ liquidity m <= 1200000)
  /\ fee m < fee r
  /\ estimatedGas m < estimatedGas r
  /\ dex r = raydium /\ dex m = meteora.
Proof.
  intros [H1 H1'] [H2 H2']. cbv zeta.
  unfold getRaydiumQuote, getMeteorQuote, basePrice; simpl.
  repeat split; try lra; reflexivity.
Qed.

Lemma quotes_within_venue_ranges_witness :
  98 <= price (getRaydiumQuote half "SOL" "USDC" 1.5)
  /\ price (getRaydiumQuote half "SOL" "USDC" 1.5) <= 102.
Proof.
  refine (proj1 (quotes_within_venue_ranges half "SOL" "USDC" 1.5 _ _));
    split; vm_compute; (discriminate || reflexivity).
Defined.



Lemma selectBestDex_copies_quote (raydiumQuote meteoraQuote : DexQuote)
    (amount : Q) :
  let d := selectBestDex raydiumQuote meteoraQuote amount in
  let q := selected_quote raydiumQuote meteoraQuote d in
  rd_price d = price q /\ rd_fee d = fee q
  /\ rd_estimatedGas d = estimatedGas q.
Proof.
  cbv zeta. unfold selectBestDex, selected_quote. cbv zeta.
  destruct (JsArith.gt _ _); [simpl; auto|].
  destruct (JsArith.gt _ _); [simpl; auto|].
  destruct (gtb _ _); simpl; auto.
Qed.


(** X4.  The quote of the venue that [selectBestDex] names has a total
    cost (the rounded sum [amountOut + estimatedGas] that the code
    compares) that is not greater than that of either quote; when the two
    total costs are equal it has the larger liquidity; it is one of the
    [alternatives]; and the decision's price, fee and gas estimate are
    copied from it. *)
Theorem selectBestDex_minimal_cost (raydiumQuote meteoraQuote : DexQuote)
    (amount : Q) :
  let d := selectBestDex raydiumQuote meteoraQuote amount in
  let q := selected_quote raydiumQuote meteoraQuote d in
  JsArith.gt (totalCost q) (totalCost raydiumQuote) = false
  /\ JsArith.gt (totalCost q) (totalCost meteoraQuote) = false
  /\ (totalCost raydiumQuote = totalCost meteoraQuote ->
      liquidity raydiumQuote <= liquidity q
      /\ liquidity meteoraQuote <= liquidity q)
  /\ In q (rd_alternatives d)
  /\ rd_price d = price q
  /\ rd_fee d = fee q
  /\ rd_estimatedGas d = estimatedGas q.
Proof.
  cbv zeta. unfold selectBestDex, selected_quote. cbv zeta.
  fold (totalCost raydiumQuote). fold (totalCost meteoraQuote).
  destruct (JsArith.gt (totalCost raydiumQuote) (totalCost meteoraQuote))
    eqn:E1.
  - simpl. rewrite (gt_asym _ _ E1), gt_irrefl.
    split; [reflexivity|]. split; [reflexivity|].
    split; [|auto 6].
    intros Heq. rewrite Heq, gt_irrefl in E1. discriminate.
  - destruct (JsArith.gt (totalCost meteoraQuote) (totalCost raydiumQuote))
      eqn:E2.
    + simpl. rewrite E1, gt_irrefl.
      split; [reflexivity|]. split; [reflexivity|].
      split; [|auto 6].
      intros Heq. rewrite Heq, gt_irrefl in E2. discriminate.
    + destruct (gtb (liquidity raydiumQuote) (liquidity meteoraQuote))
        eqn:E3; simpl; rewrite ?E1, ?E2, ?gt_irrefl.
      * apply gtb_true in E3.
        split; [reflexivity|]. split; [reflexivity|].
        split; [intros _; split; lra | auto 6].
      * apply gtb_false in E3.
        split; [reflexivity|]. split; [reflexivity|].
        split; [intros _; split; lra | auto 6].
Qed.

Lemma string_of_list_ascii_length (l : list ascii) :
  String.length (string_of_list_ascii l) = List.length l.
Proof. induction l; simpl; congruence. Qed.

Lemma hexDigit_is_hex (r : Q) : is_hex_digit (hexDigit r) = true.
Proof.
  unfold hexDigit. generalize (Qfloor (r * 16)). intros z.
  destruct z as [|p|p]; try reflexivity.
  do 4 (destruct p as [p|p|]; try reflexivity).
Qed.

(** For a draw in [[0, 1)] the digit stands for [floor (16 * r)]. *)
Lemma hexDigit_value (r : Q) :
  unit_interval r -> JsArith.digit_value (hexDigit r) = Some (Qfloor (r * 16)).
Proof.
  intros [H0 H1]. unfold hexDigit.
  assert (Hlo : (0 <= Qfloor (r * 16))%Z).
  { change 0%Z with (Qfloor 0). apply Qfloor_resp_le. lra. }
  assert (Hhi : (Qfloor (r * 16) < 16)%Z).
  { rewrite Zlt_Qlt. apply Qle_lt_trans with (r * 16); [apply Qfloor_le|].
    change (inject_Z 16) with 16. lra. }
  destruct (Qfloor (r * 16)) as [|p|p]; [reflexivity| |lia].
  do 4 (destruct p as [p|p|]; try reflexivity; try lia).
Qed.

(** X5.  With draws in [[0, 1)], the transaction hash of [executeSwap] is
    a text of 64 lower-case hexadecimal digits, and its i-th digit stands
    for [floor (16 * r)] where [r] is the i-th draw made for the hash. *)
Theorem txHash_is_64_hex_digits (rnd : RandomSource) (dex : DexName)
    (order : Order) :
  (forall i : nat, unit_interval (rnd i)) ->
  let h := sr_txHash (executeSwap rnd dex order) in
  String.length h = 64%nat
  /\ List.forallb is_hex_digit (list_ascii_of_string h) = true
  /\ forall i : nat, (i < 64)%nat ->
       JsArith.digit_value <$> List.nth_error (list_ascii_of_string h) i
       = Some (Some (Qfloor (rnd (2 + i)%nat * 16))).
Proof.
  intros Hrnd. cbv zeta. unfold executeSwap. cbn [sr_txHash].
  unfold generateMockTxHash.
  split; [|split].
  - rewrite string_of_list_ascii_length, List.length_map. reflexivity.
  - rewrite list_ascii_of_string_of_list_ascii.
    apply List.forallb_forall. intros c Hc.
    apply List.in_map_iff in Hc. destruct Hc as (i & <- & _).
    apply hexDigit_is_hex.
  - intros i Hi. rewrite list_ascii_of_string_of_list_ascii.
    rewrite List.nth_error_map, List.nth_error_nth' with (d := 0%nat)
      by (rewrite List.length_seq; exact Hi).
    rewrite List.seq_nth by exact Hi. simpl.
    now rewrite hexDigit_value by apply Hrnd.
Qed.

Lemma txHash_is_64_hex_digits_witness :
  String.length (sr_txHash (executeSwap half raydium test_order)) = 64%nat.
Proof.
  refine (proj1 (txHash_is_64_hex_digits half raydium test_order _)).
  intros i; split; vm_compute; (discriminate || reflexivity).
Defined.

(** X6.  Routing followed by execution is consistent: the swap runs on the
    venue of the decision, and the gas it reports is the gas estimate of
    that venue's quote, which is the one the decision carries. *)
Theorem executeSwap_gas_is_quoted_gas (rndR rndM rndX : RandomSource)
    (order : Order) :
  let raydiumQuote :=
    getRaydiumQuote rndR (tokenIn order) (tokenOut order) (amountIn order) in
  let meteoraQuote :=
    getMeteorQuote rndM (tokenIn order) (tokenOut order) (amountIn order) in
  let d := selectBestDex raydiumQuote meteoraQuote (amountIn order) in
  let result := executeSwap rndX (rd_dex d) order in
  sr_dex result = rd_dex d
  /\ sr_gasUsed result = rd_estimatedGas d
  /\ dex (selected_quote raydiumQuote meteoraQuote d) = rd_dex d
  /\ forall (venue : DexName) (rnd : RandomSource) (i o : string) (a : Q),
       sr_gasUsed (executeSwap rndX venue order)
       = estimatedGas (quote_of venue rnd i o a).
Proof.
  cbv zeta. split; [reflexivity|].
  assert (Hd : forall rq mq a,
             rd_estimatedGas (selectBestDex rq mq a)
             = estimatedGas (selected_quote rq mq (selectBestDex rq mq a)))
    by (intros; apply (selectBestDex_copies_quote rq mq a)).
  rewrite Hd. unfold selected_quote.
  split; [|split].
  - destruct (rd_dex _); reflexivity.
  - destruct (rd_dex _); reflexivity.
  - intros [] rnd i o a; reflexivity.
Qed.

End RouterFacts.

(** ** Subscriptions *)

Module SubscriptionFacts.
Import WsManager FanoutSpec SubscriptionSpec WsManagerFacts.
Local Open Scope list_scope.

Lemma get_set_same {V : Type} (k : string) (v : V) (m : list (string * V)) :
  JsMap.get k (JsMap.set k v m) = Some v.
Proof.
  induction m as [|[k' v'] m IH]; simpl.
  - now rewrite String.eqb_refl.
  - destruct (String.eqb k k') eqn:E; simpl; rewrite E; [reflexivity|exact IH].
Qed.

Lemma get_set_other {V : Type} (k k' : string) (v : V)
    (m : list (string * V)) :
  k' <> k -> JsMap.get k' (JsMap.set k v m) = JsMap.get k' m.
Proof.
  intros Hne. apply String.eqb_neq in Hne.
  induction m as [|[k0 v0] m IH]; simpl.
  - now rewrite Hne.
  - destruct (String.eqb k k0) eqn:E; simpl.
    + apply String.eqb_eq in E. subst k0. now rewrite Hne.
    + now rewrite IH.
Qed.

Lemma get_delete_other {V : Type} (k k' : string) (m : list (string * V)) :
  k' <> k -> JsMap.get k' (JsMap.delete k m) = JsMap.get k' m.
Proof.
  intros Hne. induction m as [|[k0 v0] m IH]; simpl; [reflexivity|].
  destruct (String.eqb k k0) eqn:E; simpl.
  - apply String.eqb_eq in E. subst k0.
    apply String.eqb_neq in Hne. now rewrite Hne.
  - now rewrite IH.
Qed.

Lemma keys_set {V : Type} (k : string) (v : V) (m : list (string * V)) :
  List.map fst (JsMap.set k v m)
  = if JsMap.has k m then List.map fst m else List.map fst m ++ [k].
Proof.
  unfold JsMap.has. induction m as [|[k0 v0] m IH]; simpl; [reflexivity|].
  destruct (String.eqb k k0) eqn:E; simpl; [reflexivity|].
  rewrite IH. destruct (JsMap.get k m); reflexivity.
Qed.

Lemma has_in_keys {V : Type} (k : string) (m : list (string * V)) :
  JsMap.has k m = false -> ~ In k (List.map fst m).
Proof.
  unfold JsMap.has. induction m as [|[k0 v0] m IH]; simpl; [tauto|].
  destruct (String.eqb k k0) eqn:E; [discriminate|].
  apply String.eqb_neq in E. intros H [H1|H1]; [congruence|].
  exact (IH H H1).
Qed.

Lemma nodup_set {V : Type} (k : string) (v : V) (m : list (string * V)) :
  List.NoDup (List.map fst m) -> List.NoDup (List.map fst (JsMap.set k v m)).
Proof.
  intros Hnd. rewrite keys_set. destruct (JsMap.has k m) eqn:E; [exact Hnd|].
  apply List.NoDup_app; [exact Hnd | repeat constructor; simpl; tauto |].
  intros x Hx [<-|[]]. exact (has_in_keys _ _ E Hx).
Qed.

Lemma nodup_filter_keys {V : Type} (f : string * V -> bool)
    (m : list (string * V)) :
  List.NoDup (List.map fst m) -> List.NoDup (List.map fst (List.filter f m)).
Proof.
  induction m as [|x m IH]; simpl; intros Hnd; [constructor|].
  inversion Hnd as [|? ? Hnotin Hnd']; subst.
  destruct (f x); simpl; [|auto].
  constructor; [|auto].
  intros Hin. apply Hnotin.
  apply List.in_map_iff in Hin. destruct Hin as (y & Hy & Hin).
  apply List.filter_In in Hin. apply List.in_map_iff. exists y. tauto.
Qed.

Lemma delete_set {V : Type} (k : string) (v : V) (m : list (string * V)) :
  JsMap.delete k (JsMap.set k v m) = JsMap.delete k m.
Proof.
  induction m as [|[k0 v0] m IH]; simpl.
  - now rewrite String.eqb_refl.
  - destruct (String.eqb k k0) eqn:E; simpl; rewrite E; simpl;
      [reflexivity | now rewrite IH].
Qed.

Lemma length_set {V : Type} (k : string) (v : V) (m : list (string * V)) :
  List.length (JsMap.set k v m)
  = if JsMap.has k m then List.length m else S (List.length m).
Proof.
  rewrite <- (List.length_map fst), keys_set.
  destruct (JsMap.has k m); rewrite ?List.length_app, List.length_map;
    simpl; lia.
Qed.

(** X7.  A new connection for an order id whose socket accepts the first
    message becomes the subscriber of that id, replacing any earlier one;
    the other subscribers stay; the socket is sent the [connected] message;
    the map grows by one entry only if the id had no subscriber; and keys
    stay pairwise different. *)
Theorem attach_registers_current_subscriber (ws : WebSocketManager)
    (orderId : string) (socket : SocketStream) :
  send_throws socket = false ->
  let ws' := handleWebSocketConnection orderId socket ws in
  JsMap.get orderId (connections ws')
  = Some {| conn_orderId := orderId; conn_socket := socket |}
  /\ (forall other, other <> orderId ->
        JsMap.get other (connections ws') = JsMap.get other (connections ws))
  /\ send_calls ws'
     = send_calls ws
       ++ [(socket_id socket, FrameOf (connected_message orderId))]
  /\ List.length (connections ws')
     = (if hasConnection orderId ws then List.length (connections ws)
        else S (List.length (connections ws)))
  /\ (well_formed ws -> well_formed ws').
Proof.
  intros Hok. cbv zeta.
  unfold handleWebSocketConnection, sendMessage. simpl.
  rewrite get_set_same. unfold socket_send. simpl. rewrite Hok. simpl.
  split; [apply get_set_same|].
  split; [intros other Hne; now apply get_set_other|].
  split; [reflexivity|].
  split; [apply length_set|].
  apply nodup_set.
Qed.

Lemma attach_registers_current_subscriber_witness :
  JsMap.get "test-order-123"
    (connections (handleWebSocketConnection "test-order-123"
                    (mkSocket 1 false false) WsManager.empty))
  = Some {| conn_orderId := "test-order-123";
            conn_socket := mkSocket 1 false false |}.
Proof.
  refine (proj1 (attach_registers_current_subscriber WsManager.empty
                   "test-order-123" (mkSocket 1 false false) _)).
  reflexivity.
Defined.

(** X8.  A new connection whose socket throws on the first message is not
    kept, and it also evicts the subscriber that the id had before: the id
    is left with no subscriber, the others are untouched. *)
Theorem attach_broken_socket_evicts (ws : WebSocketManager)
    (orderId : string) (socket : SocketStream) :
  send_throws socket = true ->
  let ws' := handleWebSocketConnection orderId socket ws in
  connections ws' = JsMap.delete orderId (connections ws)
  /\ hasConnection orderId ws' = false
  /\ (forall other, other <> orderId ->
        JsMap.get other (connections ws') = JsMap.get other (connections ws))
  /\ send_calls ws'
     = send_calls ws
       ++ [(socket_id socket, FrameOf (connected_message orderId))].
Proof.
  intros Hbad. cbv zeta.
  unfold handleWebSocketConnection, sendMessage, hasConnection, JsMap.has.
  simpl. rewrite get_set_same. unfold socket_send. simpl. rewrite Hbad. simpl.
  rewrite delete_set.
  split; [reflexivity|]. split; [now rewrite get_delete_same|].
  split; [intros other Hne; now apply get_delete_other|reflexivity].
Qed.

Lemma attach_broken_socket_evicts_witness :
  hasConnection "order-2"
    (handleWebSocketConnection "order-2" (mkSocket 3 true false)
       Fixtures.broken_first)
  = false.
Proof.
  refine (proj1 (proj2 (attach_broken_socket_evicts Fixtures.broken_first
                          "order-2" (mkSocket 3 true false) _))).
  reflexivity.
Defined.

Lemma nodup_delete {V : Type} (k : string) (m : list (string * V)) :
  List.NoDup (List.map fst m) -> List.NoDup (List.map fst (JsMap.delete k m)).
Proof. apply nodup_filter_keys. Qed.

Lemma sendMessage_connections (orderId : string) (message : WebSocketMessage)
    (ws : WebSocketManager) :
  connections (sendMessage orderId message ws) = connections ws
  \/ connections (sendMessage orderId message ws)
     = JsMap.delete orderId (connections ws).
Proof.
  unfold sendMessage. destruct (JsMap.get orderId (connections ws)) as [c|];
    [|auto].
  unfold socket_send. destruct (send_throws (conn_socket c)); simpl; auto.
Qed.

Lemma close_loop_frame (es : list (string * WebSocketConnection))
    (ws : WebSocketManager) :
  connections (close_loop es ws) = connections ws
  /\ send_calls (close_loop es ws) = send_calls ws
  /\ close_calls (close_loop es ws)
     = close_calls ws
       ++ List.map (fun kv => socket_id (conn_socket (snd kv))) es.
Proof.
  revert ws. induction es as [|[k c] es IH]; intros ws; simpl.
  - now rewrite List.app_nil_r.
  - destruct (IH (snd (socket_close c ws))) as (H1 & H2 & H3).
    rewrite H1, H2, H3. unfold socket_close.
    destruct (close_throws (conn_socket c)); simpl;
      now rewrite <- List.app_assoc.
Qed.

(** X9.  Every operation of the manager (a new connection, a send, an
    emit, a broadcast, a close or error of a socket, the shutdown) keeps
    the keys of the connection map pairwise different. *)
Theorem subscriptions_stay_one_per_order (ws : WebSocketManager) :
  well_formed ws ->
  (forall orderId socket,
      well_formed (handleWebSocketConnection orderId socket ws))
  /\ (forall orderId message, well_formed (sendMessage orderId message ws))
  /\ (forall orderId status data,
        well_formed (emitToOrder orderId status data ws))
  /\ (forall b, well_formed (broadcast b ws))
  /\ (forall orderId, well_formed (on_close orderId ws))
  /\ (forall orderId, well_formed (on_error orderId ws))
  /\ well_formed (closeAllConnections ws).
Proof.
  intros Hwf. unfold well_formed in *.
  assert (Hsend : forall orderId message (ws0 : WebSocketManager),
             List.NoDup (List.map fst (connections ws0)) ->
             List.NoDup (List.map fst
                           (connections (sendMessage orderId message ws0)))).
  { intros orderId message ws0 H0.
    destruct (sendMessage_connections orderId message ws0) as [-> | ->];
      [exact H0 | now apply nodup_delete]. }
  split; [|split; [|split; [|split; [|split; [|split]]]]].
  - intros orderId socket. unfold handleWebSocketConnection.
    apply Hsend. simpl. now apply nodup_set.
  - intros. now apply Hsend.
  - intros. unfold emitToOrder. now apply Hsend.
  - intros b. unfold broadcast. rewrite broadcast_loop_connections.
    now apply nodup_filter_keys.
  - intros. simpl. now apply nodup_delete.
  - intros. simpl. now apply nodup_delete.
  - simpl. constructor.
Qed.

Lemma subscriptions_stay_one_per_order_witness :
  well_formed (closeAllConnections Fixtures.broken_first).
Proof.
  refine (proj2 (proj2 (proj2 (proj2 (proj2 (proj2
    (subscriptions_stay_one_per_order Fixtures.broken_first _))))))).
  repeat constructor; simpl; intuition discriminate.
Defined.

(** X10.  The shutdown calls [close] once on every subscriber's socket, in
    map order, whether or not a [close] throws, sends nothing, and leaves
    an empty map. *)
Theorem closeAllConnections_closes_every_socket (ws : WebSocketManager) :
  let ws' := closeAllConnections ws in
  close_calls ws' = close_calls ws ++ subscriber_sockets ws
  /\ connections ws' = []
  /\ send_calls ws' = send_calls ws
  /\ getConnectionStats ws' = (0%nat, [])
  /\ forall orderId, hasConnection orderId ws' = false.
Proof.
  cbv zeta. unfold closeAllConnections, subscriber_sockets.
  destruct (close_loop_frame (connections ws) ws) as (_ & H2 & H3).
  simpl. rewrite H2, H3. repeat split.
Qed.

Lemma filter_idem {A : Type} (f : A -> bool) (l : list A) :
  List.filter f (List.filter f l) = List.filter f l.
Proof.
  induction l as [|x l IH]; simpl; [reflexivity|].
  destruct (f x) eqn:E; simpl; rewrite ?E, IH; reflexivity.
Qed.

(** X12.  The [close] and [error] handlers of a socket do the same thing:
    they remove the subscriber of that order id and nothing else, call no
    socket, and are idempotent. *)
Theorem detach_removes_only_that_subscriber (ws : WebSocketManager)
    (orderId : string) :
  let ws' := on_close orderId ws in
  hasConnection orderId ws' = false
  /\ (forall other, other <> orderId ->
        JsMap.get other (connections ws') = JsMap.get other (connections ws))
  /\ send_calls ws' = send_calls ws
  /\ close_calls ws' = close_calls ws
  /\ on_close orderId ws' = ws'
  /\ on_error orderId ws = ws'
  /\ (hasConnection orderId ws = false -> connections ws' = connections ws).
Proof.
  cbv zeta. unfold on_close, on_error, hasConnection, JsMap.has, with_connections.
  simpl. split; [now rewrite get_delete_same|].
  split; [intros other Hne; now apply get_delete_other|].
  split; [reflexivity|]. split; [reflexivity|].
  split.
  { f_equal. unfold JsMap.delete. apply filter_idem. }
  split; [reflexivity|].
  intros Hno. induction (connections ws) as [|[k c] m IH]; simpl in *;
    [reflexivity|].
  destruct (String.eqb orderId k) eqn:E; [discriminate|]. simpl.
  f_equal. apply IH. exact Hno.
Qed.

End SubscriptionFacts.

(** ** History is append-only *)

Module HistoryFacts.
Import HistorySpec OrderProcessor.
Local Open Scope list_scope.

Lemma same_request_refl (o : Order) : same_request o o.
Proof. repeat split. Qed.

Lemma same_request_trans (a b c : Order) :
  same_request a b -> same_request b c -> same_request a c.
Proof.
  unfold same_request. intros (?&?&?&?&?&?&?) (?&?&?&?&?&?&?).
  repeat split; congruence.
Qed.

Lemma keeps_history_refl (w : World) : keeps_history w w.
Proof.
  repeat split; try (exists []; now rewrite List.app_nil_r).
  intros k o H. exists o. split; [exact H | apply same_request_refl].
Qed.

Lemma keeps_history_trans (w1 w2 w3 : World) :
  keeps_history w1 w2 -> keeps_history w2 w3 -> keeps_history w1 w3.
Proof.
  intros ([l1 H1] & [l2 H2] & [l3 H3] & H4) ([m1 K1] & [m2 K2] & [m3 K3] & K4).
  repeat split.
  - exists (l1 ++ m1). now rewrite K1, H1, List.app_assoc.
  - exists (l2 ++ m2). now rewrite K2, H2, List.app_assoc.
  - exists (l3 ++ m3). now rewrite K3, H3, List.app_assoc.
  - intros k o Ho. destruct (H4 k o Ho) as (o' & Ho' & R).
    destruct (K4 k o' Ho') as (o'' & Ho'' & R').
    exists o''. split; [exact Ho''|]. exact (same_request_trans _ _ _ R R').
Qed.

(** A step that changes a world only in parts the history does not read,
    or extends the history. *)
Lemma keeps_history_parts (w w' : World) :
  (exists l, order_events w' = order_events w ++ l) ->
  (exists l, routing_decisions w' = routing_decisions w ++ l) ->
  (exists l, queue w' = queue w ++ l) ->
  (forall k o, orders w !! k = Some o ->
     exists o', orders w' !! k = Some o' /\ same_request o o') ->
  keeps_history w w'.
Proof. intros; repeat split; assumption. Qed.

Ltac same_parts :=
  first [ exists []; now rewrite List.app_nil_r
        | eexists; reflexivity ].

Lemma keeps_history_set_faults (x : list (option Exn)) (w : World) :
  keeps_history w (set_faults x w).
Proof.
  apply keeps_history_parts; simpl; try same_parts.
  intros k o Ho. exists o. split; [exact Ho | apply same_request_refl].
Qed.

Lemma historic_ret {A : Type} (a : A) : historic (ret a).
Proof. intros w. apply keeps_history_refl. Qed.

Lemma historic_throw {A : Type} (e : Exn) : historic (@throw A e).
Proof. intros w. apply keeps_history_refl. Qed.

Lemma historic_lift {A : Type} (o : Outcome A) : historic (lift o).
Proof. intros w. apply keeps_history_refl. Qed.

Lemma historic_bind {A B : Type} (m : M A) (k : A -> M B) :
  historic m -> (forall a, historic (k a)) -> historic (bind m k).
Proof.
  intros Hm Hk w. unfold bind. specialize (Hm w).
  destruct (m w) as [[a|e] w1]; simpl in *; [|exact Hm].
  exact (keeps_history_trans _ _ _ Hm (Hk a w1)).
Qed.

Lemma historic_try_catch {A : Type} (body : M A) (handler : Exn -> M A) :
  historic body -> (forall e, historic (handler e)) ->
  historic (try_catch body handler).
Proof.
  intros Hb Hh w. unfold try_catch. specialize (Hb w).
  destruct (body w) as [[a|e] w1]; simpl in *; [exact Hb|].
  exact (keeps_history_trans _ _ _ Hb (Hh e w1)).
Qed.

Lemma historic_external {A : Type} (call : M A) :
  historic call -> historic (external call).
Proof.
  intros Hc w. unfold external.
  destruct (faults w) as [|[e|] rest] eqn:E.
  - apply Hc.
  - apply keeps_history_set_faults.
  - apply (keeps_history_trans _ (set_faults rest w)); [|apply Hc].
    apply keeps_history_set_faults.
Qed.

Lemma historic_promise_all {A : Type} (calls : list (M A)) :
  List.Forall historic calls -> historic (promise_all calls).
Proof.
  induction 1 as [|c calls Hc _ IH]; [apply historic_ret|].
  intros w. simpl. specialize (Hc w).
  destruct (c w) as [[a|e] w1]; simpl in *.
  - specialize (IH w1). destruct (promise_all calls w1) as [[l|e] w2];
      simpl in *; exact (keeps_history_trans _ _ _ Hc IH).
  - exact (keeps_history_trans _ _ _ Hc (IH w1)).
Qed.

Lemma alter_keeps_request (f : Order -> Order) (orderId : string)
    (os : gmap string Order) :
  (forall o, same_request o (f o)) ->
  forall k o, os !! k = Some o ->
    exists o', alter f orderId os !! k = Some o' /\ same_request o o'.
Proof.
  intros Hf k o Ho. destruct (decide (orderId = k)) as [->|Hne].
  - rewrite lookup_alter_eq, Ho. simpl. eauto.
  - rewrite lookup_alter_ne by exact Hne. exists o.
    split; [exact Ho | apply same_request_refl].
Qed.

Lemma historic_hset (key status : string) (data : option ExecutionData) :
  historic (Redis.hset key status data).
Proof.
  apply historic_external. intros w. simpl.
  apply keeps_history_parts; simpl; try same_parts.
  intros k o Ho. exists o. split; [exact Ho | apply same_request_refl].
Qed.

Lemma historic_get (key : string) : historic (Redis.get key).
Proof. apply historic_external. intros w. apply keeps_history_refl. Qed.

Lemma historic_incr (key : string) : historic (Redis.incr key).
Proof.
  apply historic_external. intros w. simpl.
  destruct (match cache_strings w !! key with
            | Some s => Redis.string2ll s
            | None => Some 0%Z
            end) as [n|]; [|apply keeps_history_refl].
  destruct (n <? Redis.LLONG_MAX)%Z; [|apply keeps_history_refl].
  simpl. apply keeps_history_parts; simpl; try same_parts.
  intros k o Ho. exists o. split; [exact Ho | apply same_request_refl].
Qed.

Lemma historic_insert_order (order : Order) : historic (Pg.insert_order order).
Proof.
  apply historic_external. intros w. unfold Pg.insert_order.
  destruct (Pg.order_row order) as [stored|e];
    [|apply keeps_history_refl].
  destruct (orders w !! id order) as [row|] eqn:E;
    [apply keeps_history_refl|].
  simpl. apply keeps_history_parts; simpl; try same_parts.
  intros k o Ho. destruct (decide (id order = k)) as [<-|Hne].
  - congruence.
  - rewrite lookup_insert_ne by exact Hne. exists o.
    split; [exact Ho | apply same_request_refl].
Qed.

Lemma historic_update_status_data (status : string)
    (data : option ExecutionData) (orderId : string) :
  historic (Pg.update_status_data status data orderId).
Proof.
  apply historic_external. intros w. simpl.
  apply keeps_history_parts; simpl; try same_parts.
  apply alter_keeps_request. intros o. repeat split.
Qed.

Lemma historic_update_status (status orderId : string) :
  historic (Pg.update_status status orderId).
Proof.
  apply historic_external. intros w. simpl.
  apply keeps_history_parts; simpl; try same_parts.
  apply alter_keeps_request. intros o. repeat split.
Qed.

Lemma historic_insert_event (orderId status : string)
    (data : option EventData) :
  historic (Pg.insert_event orderId status data).
Proof.
  apply historic_external. intros w. simpl.
  destruct (orders w !! orderId) as [row|]; [|apply keeps_history_refl].
  simpl. apply keeps_history_parts; simpl; try same_parts.
  intros k o Ho. exists o. split; [exact Ho | apply same_request_refl].
Qed.

Lemma historic_insert_routing_decision (row : RoutingDecisionRow) :
  historic (Pg.insert_routing_decision row).
Proof.
  apply historic_external. intros w. simpl.
  destruct (orders w !! rr_order_id row) as [row'|];
    [|apply keeps_history_refl].
  simpl. apply keeps_history_parts; simpl; try same_parts.
  intros k o Ho. exists o. split; [exact Ho | apply same_request_refl].
Qed.

Lemma historic_select_order (orderId : string) :
  historic (Pg.select_order orderId).
Proof. apply historic_external. intros w. apply keeps_history_refl. Qed.

Lemma historic_select_events (orderId : string) :
  historic (Pg.select_events orderId).
Proof. apply historic_external. intros w. apply keeps_history_refl. Qed.

Lemma historic_queue_add (name : string) (data : Order) (jobId : string) :
  historic (JobQueue.add name data jobId).
Proof.
  apply historic_external. intros w. simpl.
  destruct (JobQueue.has_job jobId (queue w)); [apply keeps_history_refl|].
  simpl. apply keeps_history_parts; simpl; try same_parts.
  intros k o Ho. exists o. split; [exact Ho | apply same_request_refl].
Qed.

Lemma historic_emitToOrder (orderId status : string)
    (data : option ExecutionData) :
  historic (emitToOrder orderId status data).
Proof.
  intros w. simpl. apply keeps_history_parts; simpl; try same_parts.
  intros k o Ho. exists o. split; [exact Ho | apply same_request_refl].
Qed.

Lemma historic_updateOrderStatus (orderId : string) (st : OrderStatus)
    (data : option ExecutionData) :
  historic (updateOrderStatus orderId st data).
Proof.
  unfold updateOrderStatus.
  apply historic_try_catch; [|intros; apply historic_throw].
  repeat (apply historic_bind; [|intros _]).
  - apply historic_hset.
  - apply historic_update_status_data.
  - apply historic_insert_event.
  - apply historic_emitToOrder.
Qed.

Lemma historic_updateMetrics (dex : string) (success : bool) :
  historic (updateMetrics dex success).
Proof.
  unfold updateMetrics. apply historic_bind; [apply historic_incr|intros _].
  destruct success.
  - apply historic_bind; [apply historic_incr|intros _].
    destruct dex; [apply historic_ret|].
    apply historic_bind; [apply historic_incr|intros _; apply historic_ret].
  - apply historic_bind; [apply historic_incr|intros _; apply historic_ret].
Qed.

Lemma historic_submitOrder (order : Order) : historic (submitOrder order).
Proof.
  unfold submitOrder, persistOrder.
  apply historic_try_catch; [|intros; apply historic_throw].
  apply historic_bind; [apply historic_insert_order|intros _].
  apply historic_bind; [apply historic_queue_add|intros _].
  apply historic_updateOrderStatus.
Qed.

Lemma historic_processOrder (dexRouter : DexRouter) (order : Order) :
  historic (processOrder dexRouter order).
Proof.
  unfold processOrder. apply historic_try_catch.
  - unfold processOrder_try.
    apply historic_bind; [apply historic_updateOrderStatus|intros _].
    apply historic_bind.
    { unfold quotes. apply historic_bind.
      - apply historic_promise_all.
        repeat constructor; apply historic_lift.
      - intros [|r [|m [|? ?]]]; try apply historic_throw. apply historic_ret. }
    intros [r m].
    apply historic_bind; [apply historic_lift|intros d].
    apply historic_bind;
      [apply historic_insert_routing_decision|intros _].
    apply historic_bind; [apply historic_updateOrderStatus|intros _].
    apply historic_bind; [apply historic_ret|intros _].
    apply historic_bind; [apply historic_updateOrderStatus|intros _].
    apply historic_bind; [apply historic_lift|intros res].
    apply historic_bind; [apply historic_updateOrderStatus|intros _].
    apply historic_bind; [apply historic_updateMetrics|intros _].
    apply historic_ret.
  - intros e. unfold processOrder_catch.
    apply historic_bind; [apply historic_updateOrderStatus|intros _].
    apply historic_bind; [apply historic_updateMetrics|intros _].
    apply historic_throw.
Qed.

Lemma historic_getOrder (orderId : string) : historic (getOrder orderId).
Proof.
  unfold getOrder. apply historic_try_catch; [|intros; apply historic_throw].
  apply historic_bind; [apply historic_select_order|].
  intros [|row rows]; apply historic_ret.
Qed.

Lemma historic_cancelOrder (orderId : string) :
  historic (OrderRoutes.cancelOrder orderId).
Proof.
  unfold OrderRoutes.cancelOrder.
  apply historic_try_catch; [|intros; apply historic_ret].
  apply historic_bind; [apply historic_getOrder|].
  intros [order|]; [|apply historic_ret].
  destruct (negb _); [apply historic_ret|].
  apply historic_bind; [apply historic_update_status|intros _].
  apply historic_bind; [apply historic_insert_event|intros _].
  apply historic_ret.
Qed.

Lemma historic_getMetrics : historic getMetrics.
Proof.
  unfold getMetrics. apply historic_bind.
  - apply historic_promise_all. repeat constructor; apply historic_get.
  - intros [|a [|b [|c [|d [|e [|? ?]]]]]]; try apply historic_throw.
    apply historic_ret.
Qed.

(** X13.  Whatever the stores and the router answer, no operation of the
    engine (submission, processing, the worker, a transition, the metrics
    update, cancellation, the reads) deletes or rewrites history: the event
    log, the routing decisions and the queue only grow at their end, and
    every persisted order stays persisted with the same id, type, tokens,
    amount, slippage and user. *)
Theorem engine_never_rewrites_history (dexRouter : DexRouter) :
  (forall order, historic (submitOrder order))
  /\ (forall order, historic (processOrder dexRouter order))
  /\ (forall job, historic (Worker.process dexRouter job))
  /\ (forall orderId st data, historic (updateOrderStatus orderId st data))
  /\ (forall dex success, historic (updateMetrics dex success))
  /\ (forall orderId, historic (OrderRoutes.cancelOrder orderId))
  /\ (forall orderId, historic (getOrder orderId))
  /\ (forall orderId, historic (getOrderEvents orderId))
  /\ historic getMetrics.
Proof.
  repeat apply conj.
  - apply historic_submitOrder.
  - apply historic_processOrder.
  - intros job. apply historic_processOrder.
  - apply historic_updateOrderStatus.
  - apply historic_updateMetrics.
  - apply historic_cancelOrder.
  - apply historic_getOrder.
  - intros orderId. apply historic_select_events.
  - apply historic_getMetrics.
Qed.

End HistoryFacts.

(** ** Counters *)

Module CounterFacts.
Import ProcessSpec MetricsSpec EngineFacts OrderProcessor.

Lemma parse_digits_acc (d : Decimal.uint) (acc : positive) :
  JsArith.parse_digits 10 (NilEmpty.string_of_uint d) (Some (Z.pos acc))
  = Some (Z.pos (Pos.of_uint_acc d acc)).
Proof.
  revert acc. induction d; intros acc; [reflexivity|..];
    cbn [NilEmpty.string_of_uint JsArith.parse_digits Pos.of_uint_acc];
    rewrite <- IHd;
    (change (JsArith.digit_value _) with (Some 0%Z)
     || change (JsArith.digit_value _) with (Some 1%Z)
     || change (JsArith.digit_value _) with (Some 2%Z)
     || change (JsArith.digit_value _) with (Some 3%Z)
     || change (JsArith.digit_value _) with (Some 4%Z)
     || change (JsArith.digit_value _) with (Some 5%Z)
     || change (JsArith.digit_value _) with (Some 6%Z)
     || change (JsArith.digit_value _) with (Some 7%Z)
     || change (JsArith.digit_value _) with (Some 8%Z)
     || change (JsArith.digit_value _) with (Some 9%Z));
    cbv iota beta;
    match goal with
    | |- context [(?d <? 10)%Z] => change (d <? 10)%Z with true
    end;
    cbv iota; do 2 f_equal; lia.
Qed.


Lemma parse_digits_from_start (d : Decimal.uint) :
  d <> Decimal.Nil ->
  JsArith.parse_digits 10 (NilEmpty.string_of_uint d) None
  = Some (Z.of_uint d).
Proof.
  unfold Z.of_uint. induction d; intros Hne; try congruence;
    cbn [NilEmpty.string_of_uint JsArith.parse_digits Pos.of_uint].
  - (* a leading zero *)
    change (JsArith.digit_value "0") with (Some 0%Z). cbv iota beta.
    change (0 <? 10)%Z with true. cbv iota.
    change (10 * 0 + 0)%Z with 0%Z.
    destruct d; try (apply IHd; discriminate). reflexivity.
  - change (JsArith.digit_value "1") with (Some 1%Z). cbv iota beta.
    change (1 <? 10)%Z with true. cbv iota. apply (parse_digits_acc d 1).
  - change (JsArith.digit_value "2") with (Some 2%Z). cbv iota beta.
    change (2 <? 10)%Z with true. cbv iota. apply (parse_digits_acc d 2).
  - change (JsArith.digit_value "3") with (Some 3%Z). cbv iota beta.
    change (3 <? 10)%Z with true. cbv iota. apply (parse_digits_acc d 3).
  - change (JsArith.digit_value "4") with (Some 4%Z). cbv iota beta.
    change (4 <? 10)%Z with true. cbv iota. apply (parse_digits_acc d 4).
  - change (JsArith.digit_value "5") with (Some 5%Z). cbv iota beta.
    change (5 <? 10)%Z with true. cbv iota. apply (parse_digits_acc d 5).
  - change (JsArith.digit_value "6") with (Some 6%Z). cbv iota beta.
    change (6 <? 10)%Z with true. cbv iota. apply (parse_digits_acc d 6).
  - change (JsArith.digit_value "7") with (Some 7%Z). cbv iota beta.
    change (7 <? 10)%Z with true. cbv iota. apply (parse_digits_acc d 7).
  - change (JsArith.digit_value "8") with (Some 8%Z). cbv iota beta.
    change (8 <? 10)%Z with true. cbv iota. apply (parse_digits_acc d 8).
  - change (JsArith.digit_value "9") with (Some 9%Z). cbv iota beta.
    change (9 <? 10)%Z with true. cbv iota. apply (parse_digits_acc d 9).
Qed.

Lemma radix_prefix_of_decimal (d : Decimal.uint) :
  JsArith.strip_radix_prefix (NilEmpty.string_of_uint d)
  = (10%Z, NilEmpty.string_of_uint d).
Proof. destruct d as [|d|d|d|d|d|d|d|d|d|d]; try reflexivity; destruct d; reflexivity. Qed.

Lemma parseInt_of_uint (d : Decimal.uint) :
  d <> Decimal.Nil ->
  JsArith.parseInt (NilEmpty.string_of_uint d)
  = JsArith.round (inject_Z (Z.of_uint d))
  /\ JsArith.parseInt (String "-" (NilEmpty.string_of_uint d))
     = JsArith.round (inject_Z (- Z.of_uint d)).
Proof.
  intros Hne. unfold JsArith.parseInt. split.
  - assert (Hs : JsArith.strip_sign
                   (JsArith.skip_white_space (NilEmpty.string_of_uint d))
                 = (1%Z, NilEmpty.string_of_uint d))
      by (destruct d; try congruence; reflexivity).
    rewrite Hs. cbv beta iota.
    rewrite radix_prefix_of_decimal. cbv beta iota.
    rewrite parse_digits_from_start by exact Hne.
    now rewrite Z.mul_1_l.
  - assert (Hs : forall s, JsArith.strip_sign
                   (JsArith.skip_white_space (String "-" s)) = ((-1)%Z, s))
      by reflexivity.
    rewrite Hs. cbv beta iota.
    rewrite radix_prefix_of_decimal. cbv beta iota.
    rewrite parse_digits_from_start by exact Hne.
    now replace (-1 * Z.of_uint d)%Z with (- Z.of_uint d)%Z by lia.
Qed.

(** What Redis writes for a counter, [parseInt] reads back as the nearest
    double. *)
Lemma parseInt_ll2string (z : Z) :
  JsArith.parseInt (Redis.ll2string z) = JsArith.round (inject_Z z).
Proof.
  unfold Redis.ll2string. rewrite <- (DecimalZ.of_to z) at 2.
  destruct z as [|p|p]; [reflexivity|..]; simpl Z.to_int;
    pose proof (DecimalPos.Unsigned.to_uint_nonnil p) as Hne;
    destruct (parseInt_of_uint (Pos.to_uint p) Hne) as [Hpos Hneg];
    unfold NilZero.string_of_int, NilZero.string_of_uint, Z.of_int;
    destruct (Pos.to_uint p) eqn:E; try congruence; assumption.
Qed.

Lemma ll2string_or_zero (z : Z) :
  JsArith.or_zero (Some (Redis.ll2string z)) = Redis.ll2string z.
Proof.
  destruct (Redis.ll2string z) as [|c s] eqn:E; [|reflexivity].
  pose proof (JsArithFacts.round_rounded (inject_Z z)) as H.
  rewrite <- parseInt_ll2string, E in H. exact (False_ind _ H).
Qed.

Lemma counter_text (w : World) (key s : string) (n : Z) :
  cache_strings w !! key = Some s -> counter w key = Some n ->
  s = Redis.ll2string n.
Proof.
  unfold counter. intros ->. unfold Redis.string2ll.
  destruct (NilZero.int_of_string s) as [i|]; [|discriminate].
  destruct (String.eqb (Redis.ll2string (Z.of_int i)) s) eqn:Es;
    [|discriminate].
  apply String.eqb_eq in Es.
  destruct (_ && _)%bool; [|discriminate]. now intros [= <-].
Qed.

(** [INCR] that answers: the counter was readable and below the maximum,
    and it now holds one more. *)
Lemma incr_returns (key : string) (w w' : World) (n' : Z) :
  Redis.incr key w = (Ok n', w') ->
  exists n, counter w key = Some n /\ n' = (n + 1)%Z
            /\ (n < Redis.LLONG_MAX)%Z
            /\ cache_strings w'
               = <[key := Redis.ll2string (n + 1)]> (cache_strings w).
Proof.
  unfold Redis.incr, external, counter.
  destruct w as [ch cs os evs rds q wsm fl]. simpl.
  destruct fl as [|[e|] rest]; try discriminate; simpl;
    (destruct (match cs !! key with
               | Some s => Redis.string2ll s
               | None => Some 0%Z
               end) as [n|]; [|discriminate]);
    (destruct (n <? Redis.LLONG_MAX)%Z eqn:En; [|discriminate]);
    intros [= <- <-]; apply Z.ltb_lt in En; exists n; auto.
Qed.

Lemma counter_after_write (w w' : World) (key k : string) (n : Z) :
  (Redis.LLONG_MIN <= n <= Redis.LLONG_MAX)%Z ->
  cache_strings w' = <[key := Redis.ll2string n]> (cache_strings w) ->
  counter w' k = if decide (key = k) then Some n else counter w k.
Proof.
  intros R H. unfold counter. rewrite H.
  destruct (decide (key = k)) as [->|Hne].
  - rewrite lookup_insert_eq. now apply string2ll_ll2string.
  - now rewrite lookup_insert_ne.
Qed.

(** A counter that Redis can increment is reported with its value. *)
Lemma reported_of_counter (w : World) (key : string) (n : Z) :
  counter w key = Some n -> reported w key = JsArith.round (inject_Z n).
Proof.
  intros Hc. unfold reported.
  destruct (cache_strings w !! key) as [s|] eqn:Es.
  - rewrite (counter_text _ _ _ _ Es Hc), ll2string_or_zero.
    apply parseInt_ll2string.
  - unfold counter in Hc. rewrite Es in Hc. now injection Hc as <-.
Qed.

Lemma incr_faults (key : string) (w : World) :
  faults w = [] -> faults (snd (Redis.incr key w)) = [].
Proof.
  intros Hf. unfold Redis.incr. rewrite external_no_faults by exact Hf.
  destruct (match cache_strings w !! key with
            | Some s => Redis.string2ll s
            | None => Some 0%Z
            end) as [n|]; [|exact Hf].
  destruct (n <? Redis.LLONG_MAX)%Z; exact Hf.
Qed.

Lemma updateMetrics_faults (dex : string) (success : bool) (w : World) :
  faults w = [] -> faults (snd (updateMetrics dex success w)) = [].
Proof.
  intros Hf. unfold updateMetrics. unfold bind at 1.
  pose proof (incr_faults "stats:total_orders" w Hf) as H1.
  destruct (Redis.incr "stats:total_orders" w) as [[n1|e1] w1];
    simpl in H1; [|exact H1].
  destruct success.
  - unfold bind at 1.
    pose proof (incr_faults "stats:successful_orders" w1 H1) as H2.
    destruct (Redis.incr "stats:successful_orders" w1) as [[n2|e2] w2];
      simpl in H2; [|exact H2].
    destruct dex as [|c dex]; [exact H2|].
    unfold bind at 1.
    pose proof (incr_faults ("stats:" ++ String c dex ++ "_routed") w2 H2)
      as H3.
    destruct (Redis.incr _ w2) as [[n3|e3] w3]; exact H3.
  - unfold bind at 1.
    pose proof (incr_faults "stats:failed_orders" w1 H1) as H2.
    destruct (Redis.incr "stats:failed_orders" w1) as [[n2|e2] w2];
      exact H2.
Qed.

(** One order more in the totals: what [updateMetrics] does to the
    counters when all its [INCR] calls answer. *)
Lemma updateMetrics_returns (venue : option DexName) (success : bool)
    (w : World) (t s f : Z) :
  let dex := match venue with Some d => dex_text d | None => "" end in
  fst (updateMetrics dex success w) = Ok tt ->
  counter w "stats:total_orders" = Some t ->
  counter w "stats:successful_orders" = Some s ->
  counter w "stats:failed_orders" = Some f ->
  let w' := snd (updateMetrics dex success w) in
  counter w' "stats:total_orders" = Some (t + 1)%Z
  /\ counter w' "stats:successful_orders"
     = Some (if success then s + 1 else s)%Z
  /\ counter w' "stats:failed_orders"
     = Some (if success then f else f + 1)%Z.
Proof.
  cbv zeta. intros Hok Ht Hs Hf.
  destruct (updateMetrics _ success w) as [r w'] eqn:Erun.
  simpl in Hok. subst r. simpl snd.
  unfold updateMetrics in Erun. unfold bind at 1 in Erun.
  destruct (Redis.incr "stats:total_orders" w) as [[n1|e1] w1] eqn:E1;
    [|discriminate].
  destruct (incr_returns _ _ _ _ E1) as (t0 & Ht0 & -> & Hlt1 & Hw1).
  assert (t0 = t) by congruence. subst t0.
  pose proof (counter_range _ _ _ Ht) as Rt.
  pose proof (counter_range _ _ _ Hs) as Rs.
  pose proof (counter_range _ _ _ Hf) as Rf.
  assert (C1 : forall k, counter w1 k
                 = if decide ("stats:total_orders" = k) then Some (t + 1)%Z
                   else counter w k)
    by (intros k; apply counter_after_write; [lia | exact Hw1]).
  destruct success.
  - unfold bind at 1 in Erun.
    destruct (Redis.incr "stats:successful_orders" w1) as [[n2|e2] w2] eqn:E2;
      [|discriminate].
    destruct (incr_returns _ _ _ _ E2) as (s0 & Hs0 & -> & Hlt2 & Hw2).
    rewrite C1, decide_False in Hs0 by discriminate.
    assert (s0 = s) by congruence. subst s0.
    assert (C2 : forall k, counter w2 k
                   = if decide ("stats:successful_orders" = k)
                     then Some (s + 1)%Z else counter w1 k)
      by (intros k; apply counter_after_write; [lia | exact Hw2]).
    assert (Hfinal : w' = w2
                     \/ exists key r0,
                          key <> "stats:total_orders"
                          /\ key <> "stats:successful_orders"
                          /\ key <> "stats:failed_orders"
                          /\ (Redis.LLONG_MIN <= r0 + 1 <= Redis.LLONG_MAX)%Z
                          /\ cache_strings w'
                             = <[key := Redis.ll2string (r0 + 1)]>
                                 (cache_strings w2)).
    { destruct venue as [[|]|]; simpl in Erun.
      - right. unfold bind at 1 in Erun.
        destruct (Redis.incr _ w2) as [[n3|e3] w3] eqn:E3; [|discriminate].
        destruct (incr_returns _ _ _ _ E3) as (r0 & Hr0 & -> & Hlt3 & Hw3).
        pose proof (counter_range _ _ _ Hr0) as Rr.
        injection Erun as <-. exists "stats:raydium_routed", r0.
        repeat split; try discriminate; try lia. exact Hw3.
      - right. unfold bind at 1 in Erun.
        destruct (Redis.incr _ w2) as [[n3|e3] w3] eqn:E3; [|discriminate].
        destruct (incr_returns _ _ _ _ E3) as (r0 & Hr0 & -> & Hlt3 & Hw3).
        pose proof (counter_range _ _ _ Hr0) as Rr.
        injection Erun as <-. exists "stats:meteora_routed", r0.
        repeat split; try discriminate; try lia. exact Hw3.
      - left. now injection Erun as <-. }
    assert (C3 : forall k, k = "stats:total_orders"
                           \/ k = "stats:successful_orders"
                           \/ k = "stats:failed_orders" ->
                           counter w' k = counter w2 k).
    { intros k Hk. destruct Hfinal as [-> | (key & r0 & N1 & N2 & N3 & R & Hw')];
        [reflexivity|].
      rewrite (counter_after_write w2 w' key k (r0 + 1) R Hw').
      apply decide_False. intuition congruence. }
    rewrite !C3 by auto. rewrite !C2, !C1.
    repeat (rewrite decide_True by reflexivity
            || rewrite decide_False by discriminate).
    auto.
  - unfold bind at 1 in Erun.
    destruct (Redis.incr "stats:failed_orders" w1) as [[n2|e2] w2] eqn:E2;
      [|discriminate].
    destruct (incr_returns _ _ _ _ E2) as (f0 & Hf0 & -> & Hlt2 & Hw2).
    rewrite C1, decide_False in Hf0 by discriminate.
    assert (f0 = f) by congruence. subst f0.
    injection Erun as <-.
    rewrite !(counter_after_write w1 w2 _ _ (f + 1)) by (lia || exact Hw2).
    rewrite !C1.
    repeat (rewrite decide_True by reflexivity
            || rewrite decide_False by discriminate).
    auto.
Qed.

(** X14.  What [updateMetrics] counts, [getMetrics] reports: when the
    cache answers and the three order counters hold [t], [s] and [f], each
    below [2^53 - 1] in size and [t] not negative, after an
    [updateMetrics] that returns, [getMetrics] reports the total [t + 1]
    and the successful and failed counts with one of them increased
    according to the outcome, all three exactly; and the success rate is
    the quotient of the new successful count by the new total, rounded,
    times 100. *)
Theorem getMetrics_reports_updateMetrics (venue : option DexName)
    (success : bool) (w : World) (t s f : Z) :
  let dex := match venue with Some d => dex_text d | None => "" end in
  faults w = [] ->
  counter w "stats:total_orders" = Some t ->
  counter w "stats:successful_orders" = Some s ->
  counter w "stats:failed_orders" = Some f ->
  (0 <= t < 2 ^ 53 - 1)%Z ->
  (Z.abs s < 2 ^ 53 - 1)%Z ->
  (Z.abs f < 2 ^ 53 - 1)%Z ->
  fst (updateMetrics dex success w) = Ok tt ->
  let w' := snd (updateMetrics dex success w) in
  let s' := (if success then s + 1 else s)%Z in
  exists m : Metrics,
    getMetrics w' = (Ok m, w')
    /\ totalOrders m = Num (inject_Z (t + 1))
    /\ successfulOrders m = Num (inject_Z s')
    /\ failedOrders m = Num (inject_Z (if success then f else f + 1))
    /\ successRate m
       = JsArith.mul (JsArith.round (inject_Z s' / inject_Z (t + 1)))
           (Num 100).
Proof.
  cbv zeta. intros Hf Ht Hs Hfl Hpos Hsb Hfb Hok.
  destruct (updateMetrics_returns venue success w t s f Hok Ht Hs Hfl)
    as (H1 & H2 & H3).
  pose proof (updateMetrics_faults
                match venue with Some d => dex_text d | None => "" end
                success w Hf) as Hf'.
  eexists. split; [apply MetricsFacts.getMetrics_run, Hf'|]. simpl.
  rewrite (reported_of_counter _ _ _ H1), (reported_of_counter _ _ _ H2),
    (reported_of_counter _ _ _ H3).
  rewrite !JsArithFacts.round_integer by (destruct success; lia).
  split; [reflexivity|]. split; [reflexivity|]. split; [reflexivity|].
  assert (Hgt : (0 < inject_Z (t + 1))%Q).
  { change 0%Q with (inject_Z 0). rewrite <- Zlt_Qlt. lia. }
  simpl. rewrite (JsNumFacts.gtb_of_lt _ _ Hgt).
  now rewrite (MetricsFacts.positive_not_zero _ Hgt).
Qed.

Lemma getMetrics_reports_updateMetrics_witness :
  exists m : Metrics,
    totalOrders m = Num (inject_Z (0 + 1))
    /\ successRate m
       = JsArith.mul (JsArith.round (inject_Z (0 + 1) / inject_Z (0 + 1)))
           (Num 100).
Proof.
  destruct (getMetrics_reports_updateMetrics (Some raydium) true empty_world
              0 0 0 eq_refl eq_refl eq_refl eq_refl)
    as (m & _ & Ht & _ & _ & Hr); [lia | lia | lia | reflexivity |].
  exists m. split; [exact Ht | exact Hr].
Defined.

End CounterFacts.

(** ** Successful and failed runs *)

Module SuccessFacts.
Import EngineSpec ProcessSpec SuccessSpec EngineFacts OrderProcessor
  CounterFacts.
Local Open Scope list_scope.

Lemma persistRoutingDecision_run (orderId : string) (d : RoutingDecision)
    (w : World) :
  faults w = [] -> is_Some (orders w !! orderId) ->
  persistRoutingDecision orderId d w
  = (Ok tt,
     set_routing_decisions (routing_decisions w ++ [decision_row orderId d])
       w).
Proof.
  intros Hf [row Hrow].
  unfold persistRoutingDecision, Pg.insert_routing_decision.
  rewrite external_no_faults by exact Hf. simpl. now rewrite Hrow.
Qed.

Lemma updateMetrics_success_ok (d : DexName) (w : World) (nt ns nr : Z) :
  faults w = [] ->
  counter w "stats:total_orders" = Some nt -> (nt < Redis.LLONG_MAX)%Z ->
  counter w "stats:successful_orders" = Some ns -> (ns < Redis.LLONG_MAX)%Z ->
  counter w (routed_key d) = Some nr -> (nr < Redis.LLONG_MAX)%Z ->
  updateMetrics (dex_text d) true w
  = (Ok tt,
     set_cache_strings
       (<[routed_key d := Redis.ll2string (nr + 1)]>
          (<["stats:successful_orders" := Redis.ll2string (ns + 1)]>
             (<["stats:total_orders" := Redis.ll2string (nt + 1)]>
                (cache_strings w)))) w).
Proof.
  intros Hf Ht Hnt Hs Hns Hr Hnr. unfold updateMetrics.
  unfold bind at 1. rewrite (incr_ok _ nt) by assumption.
  unfold bind at 1. rewrite (incr_ok _ ns).
  - destruct d; simpl.
    + unfold bind at 1. rewrite (incr_ok _ nr); [destruct w; reflexivity|..].
      * destruct w; exact Hf.
      * unfold counter in *. destruct w; simpl in *.
        rewrite !lookup_insert_ne by discriminate. exact Hr.
      * exact Hnr.
    + unfold bind at 1. rewrite (incr_ok _ nr); [destruct w; reflexivity|..].
      * destruct w; exact Hf.
      * unfold counter in *. destruct w; simpl in *.
        rewrite !lookup_insert_ne by discriminate. exact Hr.
      * exact Hnr.
  - destruct w; exact Hf.
  - unfold counter in *. destruct w; simpl in *.
    rewrite lookup_insert_ne by discriminate. exact Hs.
  - exact Hns.
Qed.

Lemma processOrder_run_confirmed (dexRouter : DexRouter) (order : Order)
    (w : World) (row : Order) (d : RoutingDecision) (result : SwapResult)
    (nt ns nr : Z) :
  faults w = [] ->
  orders w !! id order = Some row ->
  router_answers dexRouter order d result ->
  counter w "stats:total_orders" = Some nt -> (nt < Redis.LLONG_MAX)%Z ->
  counter w "stats:successful_orders" = Some ns -> (ns < Redis.LLONG_MAX)%Z ->
  counter w (routed_key (rd_dex d)) = Some nr -> (nr < Redis.LLONG_MAX)%Z ->
  processOrder dexRouter order w
  = (Ok (success_data d result),
     confirmed_world order d result nt ns nr w).
Proof.
  intros Hf Hrow (r & m & Hq & Hs & Hx) Ht Hnt Hsc Hns Hr Hnr.
  unfold processOrder, try_catch, processOrder_try.
  unfold bind at 1.
  rewrite updateOrderStatus_ok by (rewrite ?Hrow; eauto).
  set (w1 := transitioned (id order) routing None w).
  assert (Hrow1 : orders w1 !! id order
                  = Some (Pg.set_status_data "routing" None row))
    by (apply (transitioned_orders_lookup _ routing), Hrow).
  unfold bind at 1. rewrite quotes_run, Hq.
  unfold bind at 1, lift. rewrite Hs.
  unfold bind at 1.
  rewrite persistRoutingDecision_run by (rewrite ?Hrow1; eauto).
  set (w2 := set_routing_decisions _ w1).
  unfold bind at 1.
  rewrite updateOrderStatus_ok by (simpl; rewrite ?Hrow1; eauto).
  set (w3 := transitioned (id order) building None w2).
  assert (Hrow3 : orders w3 !! id order
                  = Some (Pg.set_status_data "building" None row)).
  { unfold w3.
    rewrite (transitioned_orders_lookup _ building None w2 _ Hrow1).
    reflexivity. }
  unfold bind at 1, simulateDelay, ret.
  unfold bind at 1.
  rewrite updateOrderStatus_ok by (simpl; rewrite ?Hrow3; eauto).
  set (w4 := transitioned (id order) submitted None w3).
  assert (Hrow4 : orders w4 !! id order
                  = Some (Pg.set_status_data "submitted" None row)).
  { unfold w4.
    rewrite (transitioned_orders_lookup _ submitted None w3 _ Hrow3).
    reflexivity. }
  unfold bind at 1. rewrite Hx.
  unfold bind at 1.
  rewrite updateOrderStatus_ok by (simpl; rewrite ?Hrow4; eauto).
  fold (success_data d result).
  set (w5 := transitioned (id order) confirmed _ w4).
  unfold bind at 1.
  rewrite (updateMetrics_success_ok (rd_dex d) w5 nt ns nr);
    try assumption; reflexivity.
Qed.


Lemma counters_ready_fresh (w : World) :
  cache_strings w = ∅ -> counters_ready w.
Proof.
  intros H key _. exists 0%Z. unfold counter.
  rewrite H, lookup_empty. split; reflexivity.
Qed.

Lemma mock_router_answers (rndR rndM rndX : JsNum.RandomSource)
    (order : Order) :
  let raydiumQuote :=
    MockDexRouter.getRaydiumQuote rndR (tokenIn order) (tokenOut order)
      (amountIn order) in
  let meteoraQuote :=
    MockDexRouter.getMeteorQuote rndM (tokenIn order) (tokenOut order)
      (amountIn order) in
  let d := MockDexRouter.selectBestDex raydiumQuote meteoraQuote
             (amountIn order) in
  router_answers (mockDexRouter rndR rndM rndX) order d
    (MockDexRouter.executeSwap rndX (rd_dex d) order).
Proof. cbv zeta. eexists _, _. repeat split. Qed.

Lemma counters_ready_at (w : World) (key : string) :
  counters_ready w ->
  In key ["stats:total_orders"; "stats:successful_orders";
          "stats:failed_orders"; "stats:raydium_routed";
          "stats:meteora_routed"] ->
  exists n, counter w key = Some n /\ (n < Redis.LLONG_MAX)%Z.
Proof. intros H Hin. exact (H key Hin). Qed.

(** X16.  When the stores answer, the order is persisted, every router
    step answers and the counters can be incremented, [processOrder]
    returns the execution data of the swap (hash, executed price, gas,
    venue of the decision, no error); the stored row and the cache entry
    are [confirmed] with that data; the log gains exactly the events
    [routing], [building], [submitted], [confirmed] in this order; one
    routing decision is recorded; and the total, successful and per-venue
    counters each grow by one while the failed counter is untouched. *)
Theorem processOrder_success_path (dexRouter : DexRouter) (order : Order)
    (w : World) (row : Order) (d : RoutingDecision) (result : SwapResult)
    (nt ns nr : Z) :
  faults w = [] ->
  orders w !! id order = Some row ->
  router_answers dexRouter order d result ->
  counter w "stats:total_orders" = Some nt -> (nt < Redis.LLONG_MAX)%Z ->
  counter w "stats:successful_orders" = Some ns -> (ns < Redis.LLONG_MAX)%Z ->
  counter w (routed_key (rd_dex d)) = Some nr -> (nr < Redis.LLONG_MAX)%Z ->
  let run := processOrder dexRouter order w in
  let data := success_data d result in
  fst run = Ok data
  /\ orders (snd run) !! id order
     = Some (Pg.set_status_data "confirmed" (Some data) row)
  /\ cache_hashes (snd run) !! ("order:" ++ id order)%string
     = Some {| h_status := "confirmed"; h_executionData := Some data |}
  /\ order_events (snd run)
     = order_events w
       ++ [appended_event (id order) routing None;
           appended_event (id order) building None;
           appended_event (id order) submitted None;
           appended_event (id order) confirmed (Some data)]
  /\ routing_decisions (snd run)
     = routing_decisions w ++ [decision_row (id order) d]
  /\ counter (snd run) "stats:total_orders" = Some (nt + 1)%Z
  /\ counter (snd run) "stats:successful_orders" = Some (ns + 1)%Z
  /\ counter (snd run) (routed_key (rd_dex d)) = Some (nr + 1)%Z
  /\ cache_strings (snd run) !! "stats:failed_orders"%string
     = cache_strings w !! "stats:failed_orders"%string.
Proof.
  intros Hf Hrow Hans Ht Hnt Hs Hns Hr Hnr. cbv zeta.
  rewrite (processOrder_run_confirmed dexRouter order w row d result nt ns nr)
    by assumption.
  pose proof (counter_range _ _ _ Ht) as Rt.
  pose proof (counter_range _ _ _ Hs) as Rs.
  pose proof (counter_range _ _ _ Hr) as Rr.
  unfold confirmed_world. simpl.
  split; [reflexivity|]. split.
  { rewrite !lookup_alter_eq, Hrow. reflexivity. }
  split; [now rewrite lookup_insert_eq|].
  split; [now rewrite <- !List.app_assoc|].
  split; [reflexivity|].
  split.
  { unfold counter. simpl.
    rewrite !lookup_insert_ne by (destruct (rd_dex d); discriminate).
    rewrite lookup_insert_eq. apply string2ll_ll2string. lia. }
  split.
  { unfold counter. simpl.
    rewrite lookup_insert_ne by (destruct (rd_dex d); discriminate).
    rewrite lookup_insert_eq. apply string2ll_ll2string. lia. }
  split.
  { unfold counter. simpl. rewrite lookup_insert_eq.
    apply string2ll_ll2string. lia. }
  rewrite !lookup_insert_ne by (destruct (rd_dex d); discriminate).
  reflexivity.
Qed.

Lemma processOrder_success_path_witness :
  fst (processOrder test_router Fixtures.test_order Fixtures.world_pending)
  = Ok (success_data test_decision test_result).
Proof.
  refine (proj1 (processOrder_success_path test_router Fixtures.test_order
                   Fixtures.world_pending Fixtures.test_order test_decision
                   test_result 0 0 0 eq_refl eq_refl _ eq_refl eq_refl
                   eq_refl eq_refl eq_refl eq_refl)).
  exact (mock_router_answers Fixtures.half Fixtures.half Fixtures.half
           Fixtures.test_order).
Defined.

(** X17.  When the stores answer, the order is persisted and the counters
    can be incremented, a run of [processOrder] ends in one of two ways,
    whatever the router does.  Either it returns, the order is [confirmed]
    with the returned data, the log gained [routing], [building],
    [submitted], [confirmed] and one routing decision was recorded.  Or it
    throws the exception of the router step that rejected, the order is
    [failed] with that error, and the log gained the transitions made
    before that step followed by [failed].  No run leaves the order in an
    intermediate status. *)
Theorem processOrder_ends_confirmed_or_failed (dexRouter : DexRouter)
    (order : Order) (w : World) (row : Order) :
  faults w = [] ->
  orders w !! id order = Some row ->
  counters_ready w ->
  ends_confirmed dexRouter order row w \/ ends_failed dexRouter order row w.
Proof.
  intros Hf Hrow Hready. unfold ends_confirmed, ends_failed. cbv zeta.
  destruct (counters_ready_at w "stats:total_orders" Hready)
    as (nt & Ht & Hnt); [simpl; tauto|].
  destruct (counters_ready_at w "stats:successful_orders" Hready)
    as (ns & Hs & Hns); [simpl; tauto|].
  destruct (counters_ready_at w "stats:failed_orders" Hready)
    as (nf & Hfl & Hnf); [simpl; tauto|].
  assert (Hfail : forall stage e, raises_at dexRouter order stage e ->
            fst (processOrder dexRouter order w) = Throw e
            /\ orders (snd (processOrder dexRouter order w)) !! id order
               = Some (Pg.set_status_data "failed"
                         (Some (failure_data e)) row)
            /\ List.map ev_status
                 (order_events (snd (processOrder dexRouter order w)))
               = List.map ev_status (order_events w)
                 ++ List.map status_text (path_before stage)
                 ++ ["failed"%string]
            /\ (List.length
                  (routing_decisions (snd (processOrder dexRouter order w)))
                <= S (List.length (routing_decisions w)))%nat).
  { intros stage e Hraise.
    destruct (try_raises dexRouter order w row stage e Hf Hrow Hraise)
      as (w1 & s & Htry & Hf1 & Hrow1 & Hcs1 & Hev1).
    assert (Hrd1 : (List.length (routing_decisions w1)
                    <= S (List.length (routing_decisions w)))%nat).
    { revert Htry. unfold processOrder_try.
      unfold bind at 1.
      rewrite updateOrderStatus_ok by (rewrite ?Hrow; eauto).
      unfold bind at 1. rewrite quotes_run.
      destruct stage; simpl in Hraise.
      - rewrite Hraise. intros [= <-]. simpl. lia.
      - destruct Hraise as (r & m & Hq & Hsel). rewrite Hq.
        unfold bind at 1, lift. rewrite Hsel. intros [= <-]. simpl. lia.
      - destruct Hraise as (r & m & d & Hq & Hsel & Hx). rewrite Hq.
        unfold bind at 1, lift. rewrite Hsel.
        unfold bind at 1.
        rewrite persistRoutingDecision_run
          by (simpl; rewrite ?lookup_alter_eq, ?Hrow; eauto).
        unfold bind at 1.
        rewrite updateOrderStatus_ok
          by (simpl; rewrite ?lookup_alter_eq, ?Hrow; eauto).
        unfold bind at 1, simulateDelay, ret. unfold bind at 1.
        rewrite updateOrderStatus_ok
          by (simpl; rewrite ?lookup_alter_eq, ?Hrow; eauto).
        unfold bind at 1. rewrite Hx. intros [= <-]. simpl.
        rewrite List.length_app. simpl. lia. }
    unfold processOrder, try_catch. rewrite Htry.
    rewrite (catch_run order e w1 nt nf);
      try assumption;
      try (unfold counter in *; now rewrite Hcs1);
      try (rewrite Hrow1; eauto).
    simpl. split; [reflexivity|]. split.
    { rewrite lookup_alter_eq, Hrow1. reflexivity. }
    split; [|exact Hrd1].
    rewrite Hev1, !List.map_app, List.map_map, <- List.app_assoc.
    reflexivity. }
  destruct (quotes_outcome dexRouter order) as [[r m]|e] eqn:Hq.
  - destruct (r_selectBestDex dexRouter r m (amountIn order)) as [d|e] eqn:Hsel.
    + destruct (r_executeSwap dexRouter (rd_dex d) order) as [res|e] eqn:Hx.
      * left. exists (success_data d res).
        destruct (counters_ready_at w (routed_key (rd_dex d)) Hready)
          as (nr & Hr & Hnr);
          [destruct (rd_dex d); simpl; tauto|].
        rewrite (processOrder_run_confirmed dexRouter order w row d res
                   nt ns nr); try assumption; [|exists r, m; auto].
        unfold confirmed_world. simpl.
        split; [reflexivity|]. split.
        { rewrite !lookup_alter_eq, Hrow. reflexivity. }
        split.
        { rewrite !List.map_app, <- !List.app_assoc. reflexivity. }
        rewrite List.length_app. simpl. lia.
      * right. exists e, AtExecution. 
        assert (Hr : raises_at dexRouter order AtExecution e)
          by (exists r, m, d; auto).
        destruct (Hfail _ _ Hr) as (H1 & H2 & H3 & H4). auto 10.
    + right. exists e, AtSelection.
      assert (Hr : raises_at dexRouter order AtSelection e)
        by (exists r, m; auto).
      destruct (Hfail _ _ Hr) as (H1 & H2 & H3 & H4). auto 10.
  - right. exists e, AtQuotes.
    destruct (Hfail AtQuotes e Hq) as (H1 & H2 & H3 & H4). auto 10.
Qed.

Lemma processOrder_ends_confirmed_or_failed_witness :
  ends_confirmed Fixtures.rejecting_router Fixtures.test_order
    Fixtures.test_order Fixtures.world_pending
  \/ ends_failed Fixtures.rejecting_router Fixtures.test_order
       Fixtures.test_order Fixtures.world_pending.
Proof.
  exact (processOrder_ends_confirmed_or_failed Fixtures.rejecting_router
           Fixtures.test_order Fixtures.world_pending Fixtures.test_order
           eq_refl eq_refl
           (counters_ready_fresh Fixtures.world_pending eq_refl)).
Defined.

End SuccessFacts.

(** ** Orders, events and counters across operations *)

Module LedgerFacts.
Import EngineSpec ProcessSpec SubmitSpec CancelSpec SuccessSpec LedgerSpec
  EngineFacts OrderProcessor CounterFacts SuccessFacts SubscriptionFacts
  JsArithFacts.
Local Open Scope list_scope.

(** X15.  The order counters stay balanced: if the total equals the sum of
    the successful and the failed counts, it still does after every
    [updateMetrics] that returns. *)
Theorem updateMetrics_keeps_balance (venue : option DexName)
    (success : bool) (w : World) :
  let dex := match venue with Some d => dex_text d | None => "" end in
  balanced w ->
  fst (updateMetrics dex success w) = Ok tt ->
  balanced (snd (updateMetrics dex success w)).
Proof.
  cbv zeta. intros (t & s & f & Ht & Hs & Hf & Hsum) Hok.
  destruct (updateMetrics_returns venue success w t s f Hok Ht Hs Hf)
    as (H1 & H2 & H3).
  exists (t + 1)%Z, (if success then s + 1 else s)%Z,
    (if success then f else f + 1)%Z.
  repeat apply conj; try assumption. destruct success; lia.
Qed.

Lemma updateMetrics_keeps_balance_witness :
  balanced (snd (updateMetrics "" false empty_world)).
Proof.
  apply (updateMetrics_keeps_balance None false empty_world);
    [exists 0%Z, 0%Z, 0%Z; repeat split | reflexivity].
Defined.

Lemma alter_absent {A : Type} (f : A -> A) (k : string)
    (m : gmap string A) :
  m !! k = None -> alter f k m = m.
Proof.
  intros H. apply map_eq. intros j. destruct (decide (k = j)) as [<-|Hne].
  - rewrite lookup_alter_eq, H. reflexivity.
  - now rewrite lookup_alter_ne.
Qed.

Lemma order_key_inj (a b : string) :
  ("order:" ++ a)%string = ("order:" ++ b)%string -> a = b.
Proof. simpl. intros H. now injection H. Qed.

Lemma emitToOrder_other (orderId other status : string)
    (data : option ExecutionData) (wsm : WebSocketManager) :
  other <> orderId ->
  JsMap.get other (connections (WsManager.emitToOrder orderId status data wsm))
  = JsMap.get other (connections wsm).
Proof.
  intros Hne. unfold WsManager.emitToOrder.
  destruct (sendMessage_connections orderId
              {| msg_orderId := orderId; msg_status := status;
                 msg_data := data |} wsm) as [-> | ->];
    [reflexivity | now apply get_delete_other].
Qed.

(** X18.  A transition of one order, whatever the stores answer, leaves
    every other order as it is: its row, its cache entry, its events and
    its subscriber. *)
Theorem updateOrderStatus_touches_one_order (orderId other : string)
    (st : OrderStatus) (data : option ExecutionData) (w : World) :
  other <> orderId ->
  let run := updateOrderStatus orderId st data w in
  orders (snd run) !! other = orders w !! other
  /\ cache_hashes (snd run) !! ("order:" ++ other)%string
     = cache_hashes w !! ("order:" ++ other)%string
  /\ events_of other (snd run) = events_of other w
  /\ JsMap.get other (connections (ws (snd run)))
     = JsMap.get other (connections (ws w)).
Proof.
  intros Hne. cbv zeta.
  assert (Hkey : ("order:" ++ orderId)%string <> ("order:" ++ other)%string)
    by (intros H; apply order_key_inj in H; congruence).
  assert (Hneb : String.eqb orderId other = false)
    by (apply String.eqb_neq; congruence).
  pose proof (emitToOrder_other orderId other (status_text st) data (ws w) Hne)
    as Hws.
  destruct w as [ch cs os evs rds q wsm fl].
  unfold updateOrderStatus, try_catch, bind, Redis.hset,
    Pg.update_status_data, Pg.insert_event, emitToOrder, external, throw,
    events_of.
  simpl in *.
  destruct fl as [|[e1|] [|[e2|] [|[e3|] fl]]]; simpl;
    rewrite ?lookup_alter_eq; destruct (os !! orderId) eqn:E; simpl;
    rewrite ?lookup_insert_ne by exact Hkey;
    rewrite ?lookup_alter_ne by congruence;
    rewrite ?List.filter_app; simpl; rewrite ?Hneb, ?List.app_nil_r;
    auto.
Qed.

Lemma updateOrderStatus_touches_one_order_witness :
  orders (snd (updateOrderStatus "test-order-123" routing None
                 Fixtures.world_pending)) !! "order-2"
  = orders Fixtures.world_pending !! "order-2".
Proof.
  refine (proj1 (updateOrderStatus_touches_one_order "test-order-123"
                   "order-2" routing None Fixtures.world_pending _)).
  discriminate.
Defined.

(** X19.  A transition of an order that is not persisted never succeeds
    and notifies nobody: it throws, and the orders, the event log and the
    fan-out are as before.  When the stores answer, the exception is the
    foreign-key violation of the event insert, and the cache entry of the
    unknown order has been written all the same. *)
Theorem updateOrderStatus_unknown_order_fails (orderId : string)
    (st : OrderStatus) (data : option ExecutionData) (w : World) :
  orders w !! orderId = None ->
  let run := updateOrderStatus orderId st data w in
  (exists e, fst run = Throw e)
  /\ orders (snd run) = orders w
  /\ order_events (snd run) = order_events w
  /\ ws (snd run) = ws w
  /\ (faults w = [] ->
      fst run
      = Throw (Error
          "insert on table order_events violates foreign key constraint")
      /\ cache_hashes (snd run) !! ("order:" ++ orderId)%string
         = Some (written_hash orderId st data w)).
Proof.
  intros Hnone. cbv zeta.
  destruct w as [ch cs os evs rds q wsm fl].
  unfold updateOrderStatus, try_catch, bind, Redis.hset,
    Pg.update_status_data, Pg.insert_event, emitToOrder, external, throw,
    written_hash.
  simpl in *.
  destruct fl as [|[e1|] [|[e2|] [|[e3|] fl]]]; simpl;
    rewrite ?(alter_absent _ _ _ Hnone), ?Hnone; simpl;
    (split; [eauto|]); do 3 (split; [reflexivity|]);
    intros Hfl; try discriminate Hfl.
  split; [reflexivity|]. now rewrite lookup_insert_eq.
Qed.

Lemma updateOrderStatus_unknown_order_fails_witness :
  exists e, fst (updateOrderStatus "test-order-123" routing None empty_world)
            = Throw e.
Proof.
  refine (proj1 (updateOrderStatus_unknown_order_fails "test-order-123"
                   routing None empty_world _)).
  reflexivity.
Defined.

(** What a column [DECIMAL] holds reads back as a finite double. *)
Lemma numeric_column_number (precision scale : Z) (x a : Q) :
  (0 <= scale)%Z -> (precision <= 300)%Z ->
  Pg.numeric precision scale x = Some a ->
  JsArith.round a = Num (column_number a).
Proof.
  intros Hs Hp. unfold Pg.numeric.
  set (n := Pg.round_half_away (x * inject_Z (10 ^ scale))).
  destruct (Z.abs n <? 10 ^ precision)%Z eqn:E; [|discriminate].
  intros [= <-]. apply Z.ltb_lt in E.
  assert (Hn : (Z.abs n <= 10 ^ 300)%Z).
  { assert (10 ^ precision <= 10 ^ 300)%Z.
    { destruct (Z.le_gt_cases 0 precision).
      - apply Z.pow_le_mono_r; lia.
      - rewrite Z.pow_neg_r by lia. lia. }
    lia. }
  assert (Hd : (1 <= 10 ^ scale)%Z).
  { change 1%Z with (10 ^ 0)%Z. apply Z.pow_le_mono_r; lia. }
  assert (Hfin : (Qabs (Qred (inject_Z n / inject_Z (10 ^ scale)))
                  <= JsArith.pow2 1023)%Q).
  { rewrite Qred_correct.
    assert (Hc : (inject_Z (10 ^ 300) <= JsArith.pow2 1023)%Q).
    { apply Qle_bool_iff. vm_compute. reflexivity. }
    assert (H1 : (inject_Z n <= inject_Z (10 ^ 300))%Q)
      by (rewrite <- Zle_Qle; lia).
    assert (H2 : (inject_Z (- 10 ^ 300) <= inject_Z n)%Q)
      by (rewrite <- Zle_Qle; lia).
    rewrite inject_Z_opp in H2.
    assert (H3 : (1 <= inject_Z (10 ^ scale))%Q)
      by (rewrite <- (Zle_Qle 1); exact Hd).
    assert (H4 : (0 <= inject_Z (10 ^ 300))%Q)
      by (rewrite <- (Zle_Qle 0); lia).
    set (b := JsArith.pow2 1023) in *. set (t := inject_Z (10 ^ 300)) in *.
    set (d := inject_Z (10 ^ scale)) in *. set (m := inject_Z n) in *.
    apply Qabs_Qle_condition. split.
    - apply Qle_shift_div_l; [lra|]. nra.
    - apply Qle_shift_div_r; [lra|]. nra. }
  destruct (round_finite _ Hfin) as [r Hr].
  unfold column_number, JsArith.parseFloat. now rewrite Hr.
Qed.

(** What the insert keeps of an order. *)
Lemma order_row_fields (order row : Order) :
  Pg.order_row order = Ok row ->
  id row = id order /\ type row = type order
  /\ tokenIn row = tokenIn order /\ tokenOut row = tokenOut order
  /\ Pg.numeric 20 8 (JsArith.toString (amountIn order))
     = Some (amountIn row)
  /\ Pg.numeric 5 4 (JsArith.toString (slippage order))
     = Some (slippage row)
  /\ status row = status order /\ executionData row = None
  /\ userId row = userId order.
Proof.
  unfold Pg.order_row.
  destruct (negb (Pg.varchar 255 (id order))); [discriminate|].
  destruct (negb (Pg.varchar 255 (tokenIn order))); [discriminate|].
  destruct (negb (Pg.varchar 255 (tokenOut order))); [discriminate|].
  destruct (Pg.numeric 20 8 _) as [a|]; [|discriminate].
  destruct (Pg.numeric 5 4 _) as [sl|]; [|discriminate].
  destruct (negb (Pg.varchar 50 (status order))); [discriminate|].
  destruct (negb _); [discriminate|].
  intros [= <-]. repeat split.
Qed.

(** X20.  When the stores answer, the order id is new and the columns of
    the table accept the order, [submitOrder] returns, and [getOrder] then
    returns the order as the table keeps it: the same id, type, tokens and
    user, the status [pending] and no execution data, whatever status and
    data the argument carried; its amount is the double nearest to what
    the column [DECIMAL(20, 8)] keeps of the text of the submitted amount
    (8 decimals), and its slippage the double nearest to what the column
    [DECIMAL(5, 4)] keeps (4 decimals).  The cache entry is written, the
    log gains one [pending] event, a job of that id is queued, and neither
    the routing decisions nor the counters change. *)
Theorem submitOrder_then_getOrder (order row : Order) (w : World) :
  faults w = [] ->
  orders w !! id order = None ->
  Pg.order_row order = Ok row ->
  let run := submitOrder order w in
  fst run = Ok tt
  /\ (exists stored,
        getOrder (id order) (snd run) = (Ok (Some stored), snd run)
        /\ status stored = "pending"%string
        /\ executionData stored = None
        /\ id stored = id order /\ type stored = type order
        /\ tokenIn stored = tokenIn order
        /\ tokenOut stored = tokenOut order
        /\ userId stored = userId order
        /\ Pg.numeric 20 8 (JsArith.toString (amountIn order))
           = Some (amountIn row)
        /\ JsArith.round (amountIn row) = Num (amountIn stored)
        /\ Pg.numeric 5 4 (JsArith.toString (slippage order))
           = Some (slippage row)
        /\ JsArith.round (slippage row) = Num (slippage stored))
  /\ cache_hashes (snd run) !! ("order:" ++ id order)%string
     = Some (written_hash (id order) pending None w)
  /\ order_events (snd run)
     = order_events w ++ [appended_event (id order) pending None]
  /\ JobQueue.has_job (id order) (queue (snd run)) = true
  /\ routing_decisions (snd run) = routing_decisions w
  /\ cache_strings (snd run) = cache_strings w.
Proof.
  intros Hf Hnone Hrow. cbv zeta.
  rewrite (SubmitFacts.submitOrder_run order row w Hf Hnone Hrow).
  destruct (order_row_fields order row Hrow)
    as (H1 & H2 & H3 & H4 & H5 & H6 & H7 & H8 & H9).
  split; [reflexivity|]. split.
  { eexists. split.
    - unfold getOrder, try_catch, bind, Pg.select_order.
      rewrite external_no_faults by exact Hf. simpl.
      rewrite lookup_alter_eq, lookup_insert_eq. reflexivity.
    - simpl.
      rewrite (numeric_column_number 20 8 _ _ ltac:(lia) ltac:(lia) H5).
      rewrite (numeric_column_number 5 4 _ _ ltac:(lia) ltac:(lia) H6).
      auto 12. }
  split; [simpl; now rewrite lookup_insert_eq|].
  split; [reflexivity|].
  split; [|split; reflexivity].
  apply SubmitFacts.has_job_queued.
Qed.

Lemma submitOrder_then_getOrder_witness :
  fst (submitOrder Fixtures.test_order empty_world) = Ok tt.
Proof.
  refine (proj1 (submitOrder_then_getOrder Fixtures.test_order test_row
                   empty_world eq_refl eq_refl _)).
  vm_compute. reflexivity.
Defined.

(** The amount 1.000000005 is a double just below that decimal; it is sent
    as the text of the decimal, which the column rounds up, and read back
    as the double nearest to 1.00000001 (which is not a double). *)
Example getOrder_reads_rounded_amount :
  let order := mkOrder "o" market "SOL" "USDC" precise_amount 0.01
                 "pending" None None in
  JsArith.round 1.000000005 = Num precise_amount
  /\ (precise_amount < 1.000000005)%Q
  /\ (JsArith.toString precise_amount == 1.000000005)%Q
  /\ (amountIn <$> orders (snd (submitOrder order empty_world)) !! "o")
     = Some 1.00000001%Q
  /\ JsArith.round 1.00000001 = Num (1125899918101623 # 1125899906842624)
  /\ match fst (getOrder "o" (snd (submitOrder order empty_world))) with
     | Ok (Some stored) =>
         amountIn stored = 1125899918101623 # 1125899906842624
     | _ => False
     end.
Proof.
  cbv zeta.
  repeat match goal with |- _ /\ _ => split end; vm_compute; reflexivity.
Qed.

(** X21.  [submitOrder] does not undo the insert when the queue rejects the
    job: for an order that the columns accept, it throws the queue's
    exception, the order's row is persisted (with the status and the user
    of the order, the amount as the column keeps it and no execution
    data), and no job, event, cache entry or notification exists for it; a
    second submission of the same order then throws as well. *)
Theorem submitOrder_enqueue_failure_keeps_row (order row : Order)
    (w : World) (e : Exn) (rest : list (option Exn)) :
  faults w = None :: Some e :: rest ->
  orders w !! id order = None ->
  Pg.order_row order = Ok row ->
  let run := submitOrder order w in
  fst run = Throw e
  /\ orders (snd run) !! id order = Some row
  /\ status row = status order
  /\ userId row = userId order
  /\ executionData row = None
  /\ Pg.numeric 20 8 (JsArith.toString (amountIn order))
     = Some (amountIn row)
  /\ queue (snd run) = queue w
  /\ order_events (snd run) = order_events w
  /\ cache_hashes (snd run) = cache_hashes w
  /\ ws (snd run) = ws w
  /\ exists e', fst (submitOrder order (snd run)) = Throw e'.
Proof.
  intros Hf Hnone Hrow. cbv zeta.
  destruct (order_row_fields order row Hrow)
    as (H1 & H2 & H3 & H4 & H5 & H6 & H7 & H8 & H9).
  assert (Hrun : submitOrder order w
                 = (Throw e,
                    set_faults rest
                      (set_orders (<[id order := row]> (orders w)) w))).
  { destruct w as [ch cs os evs rds q wsm fl]. simpl in *. subst fl.
    unfold submitOrder, try_catch, persistOrder, bind, Pg.insert_order,
      JobQueue.add, external, throw. simpl. rewrite Hrow, Hnone.
    reflexivity. }
  rewrite Hrun. simpl.
  split; [reflexivity|]. split; [now rewrite lookup_insert_eq|].
  do 4 (split; [assumption|]).
  repeat (split; [reflexivity|]).
  apply SubmitFacts.submitOrder_taken. simpl.
  rewrite lookup_insert_eq. eauto.
Qed.

Lemma submitOrder_enqueue_failure_keeps_row_witness :
  orders (snd (submitOrder Fixtures.test_order world_queue_down))
    !! "test-order-123"
  = Some test_row.
Proof.
  refine (proj1 (proj2 (submitOrder_enqueue_failure_keeps_row
                          Fixtures.test_order test_row world_queue_down
                          (Error "Connection is closed.") [] eq_refl
                          eq_refl _))).
  vm_compute. reflexivity.
Defined.

(** X22.  The cancellation handler always replies, with status 200, 400,
    404 or 500, whatever the stores answer, and it touches neither the
    cache, nor the counters, nor the queue, nor the routing decisions, nor
    the fan-out: the job of a cancelled order stays queued and its
    subscriber is not notified. *)
Theorem cancelOrder_never_throws (orderId : string) (w : World) :
  let run := OrderRoutes.cancelOrder orderId w in
  (exists reply, fst run = Ok reply
                 /\ In (reply_status reply) [200; 400; 404; 500]%nat)
  /\ cache_hashes (snd run) = cache_hashes w
  /\ cache_strings (snd run) = cache_strings w
  /\ queue (snd run) = queue w
  /\ routing_decisions (snd run) = routing_decisions w
  /\ ws (snd run) = ws w.
Proof.
  cbv zeta. destruct w as [ch cs os evs rds q wsm fl].
  unfold OrderRoutes.cancelOrder, getOrder, try_catch, Pg.select_order,
    Pg.update_status, Pg.insert_event, bind, external, ret, throw.
  simpl.
  destruct fl as [|[e1|] [|[e2|] [|[e3|] fl]]]; simpl;
    destruct (os !! orderId) as [order|] eqn:E; simpl;
    try destruct (String.eqb (status order) "pending") eqn:Es; simpl;
    rewrite ?lookup_alter_eq, ?E; simpl;
    (split; [eexists; split; [reflexivity|simpl; tauto]|]);
    repeat split.
Qed.

(** X23.  Cancellation does not stop the execution: after the successful
    cancellation of a pending order, [processOrder] on that order (the job
    is still queued) runs to the end when the stores and the router
    answer, and the order [cancelled] becomes [confirmed]; the log reads
    [cancelled], [routing], [building], [submitted], [confirmed]. *)
Theorem cancelled_order_is_still_executed (dexRouter : DexRouter)
    (order row : Order) (w : World) (d : RoutingDecision)
    (result : SwapResult) :
  faults w = [] ->
  orders w !! id order = Some row ->
  status row = "pending"%string ->
  router_answers dexRouter order d result ->
  counters_ready w ->
  let cancel := OrderRoutes.cancelOrder (id order) w in
  let run := processOrder dexRouter order (snd cancel) in
  fst cancel = Ok (cancelled_reply (id order))
  /\ status <$> orders (snd cancel) !! id order = Some "cancelled"%string
  /\ fst run = Ok (success_data d result)
  /\ status <$> orders (snd run) !! id order = Some "confirmed"%string
  /\ List.map ev_status (order_events (snd run))
     = List.map ev_status (order_events w)
       ++ ["cancelled"; "routing"; "building"; "submitted";
           "confirmed"]%string.
Proof.
  intros Hf Hrow Hpend Hans Hready. cbv zeta.
  assert (Hc : OrderRoutes.cancelOrder (id order) w
               = (Ok (cancelled_reply (id order)), cancelled (id order) w)).
  { destruct w as [ch cs os evs rds q wsm fl]. simpl in *. subst fl.
    unfold OrderRoutes.cancelOrder, getOrder, try_catch, Pg.select_order,
      Pg.update_status, Pg.insert_event, bind, external, ret, throw,
      cancelled. simpl. rewrite Hrow. simpl. rewrite Hpend. simpl.
    rewrite lookup_alter_eq, Hrow. reflexivity. }
  rewrite Hc. simpl fst. simpl snd.
  assert (Hrow' : orders (cancelled (id order) w) !! id order
                  = Some (Pg.set_status "cancelled" row))
    by (simpl; rewrite lookup_alter_eq, Hrow; reflexivity).
  destruct (counters_ready_at w "stats:total_orders" Hready)
    as (nt & Ht & Hnt); [simpl; tauto|].
  destruct (counters_ready_at w "stats:successful_orders" Hready)
    as (ns & Hs & Hns); [simpl; tauto|].
  destruct (counters_ready_at w (routed_key (rd_dex d)) Hready)
    as (nr & Hr & Hnr); [destruct (rd_dex d); simpl; tauto|].
  rewrite (processOrder_run_confirmed dexRouter order (cancelled (id order) w)
             (Pg.set_status "cancelled" row) d result nt ns nr);
    try assumption.
  unfold confirmed_world. simpl.
  split; [reflexivity|].
  split; [now rewrite lookup_alter_eq, Hrow|].
  split; [reflexivity|].
  split.
  { rewrite !lookup_alter_eq, Hrow. reflexivity. }
  rewrite !List.map_app, <- !List.app_assoc. reflexivity.
Qed.

Lemma cancelled_order_is_still_executed_witness :
  fst (processOrder test_router Fixtures.test_order
         (snd (OrderRoutes.cancelOrder "test-order-123"
                 Fixtures.world_pending)))
  = Ok (success_data test_decision test_result).
Proof.
  refine (proj1 (proj2 (proj2
    (cancelled_order_is_still_executed test_router Fixtures.test_order
       Fixtures.test_order Fixtures.world_pending test_decision test_result
       eq_refl eq_refl eq_refl _ _)))).
  - exact (mock_router_answers Fixtures.half Fixtures.half Fixtures.half
             Fixtures.test_order).
  - exact (counters_ready_fresh Fixtures.world_pending eq_refl).
Defined.

End LedgerFacts.

(** ** The handlers of the order routes *)

Module HandlerFacts.
Import EngineSpec ProcessSpec SubmitSpec SuccessSpec LedgerSpec HandlerSpec
  EngineFacts OrderProcessor SuccessFacts LedgerFacts JsNumFacts.
Local Open Scope list_scope.

Lemma executeOrder_valid (uuid : string) (body : OrderExecutionRequest)
    (s : Server) :
  valid_request body ->
  OrderHandlers.executeOrder uuid body s
  = match submitOrder (order_of uuid body) (world s) with
    | (Throw _, w') =>
        (submission_failed,
         {| world := w'; fastifyInstance := fastifyInstance s |})
    | (Ok _, w') =>
        match WsRoutes.registerWebSocketRoute uuid
                {| world := w'; fastifyInstance := fastifyInstance s |} with
        | (Throw _, s') => (submission_failed, s')
        | (Ok _, s') => (Sent 200 (accepted uuid), s')
        end
    end.
Proof.
  intros (Ha & Hlo & Hhi). unfold OrderHandlers.executeOrder.
  replace (Qle_bool (req_amountIn body) 0) with false.
  2:{ symmetry. apply Bool.not_true_is_false. intros H.
      apply Qle_bool_iff in H. lra. }
  rewrite (gtb_of_le _ _ Hlo), (gtb_of_le _ _ Hhi). reflexivity.
Qed.

Lemma schema_bounds :
  (0 < JsArith.literal 0.000001 /\ JsArith.literal 0.000001 < 0.000001
   /\ 0.001 <= JsArith.literal 0.001 /\ JsArith.literal 0.5 == 0.5)%Q.
Proof.
  split; [vm_compute; reflexivity|].
  split; [vm_compute; reflexivity|].
  split; [apply Qle_bool_iff; vm_compute; reflexivity|].
  vm_compute. reflexivity.
Qed.

Lemma bodySchema_valid (body : OrderExecutionRequest) :
  OrderHandlers.bodySchema body = true -> valid_request body.
Proof.
  unfold OrderHandlers.bodySchema, valid_request. intros H.
  destruct schema_bounds as (B1 & _ & B3 & B4).
  repeat (apply andb_prop in H; destruct H as [H ?]).
  repeat match goal with
         | H : Qle_bool _ _ = true |- _ => apply Qle_bool_iff in H
         end.
  repeat split; lra.
Qed.

(** X24.  POST /api/orders/execute never answers 400.  A body outside the
    bounds of the route's schema is answered by the server's error handler
    with 500 "Internal Server Error" before the handler runs, and nothing
    is stored.  A body that the schema accepts has a positive amount and a
    slippage between 0.001 and 0.5, which are the two checks of the
    handler, so the replies "Invalid amount" and "Invalid slippage" are
    unreachable: the handler answers 200 with the accepted order or 500
    "Failed to submit order for execution". *)
Theorem postExecute_never_replies_400 (development : bool)
    (invalid uuid : string) (body : OrderExecutionRequest) (s : Server) :
  let run :=
    OrderExecutionServer.postExecute development invalid uuid body s in
  (forall error message, fst run <> Refused 400 error message)
  /\ (OrderHandlers.bodySchema body = false ->
      fst run
      = Refused 500 "Internal Server Error"
          (if development then invalid else "Something went wrong")
      /\ snd run = s)
  /\ (OrderHandlers.bodySchema body = true ->
      (0 < req_amountIn body)%Q
      /\ (0.001 <= req_slippage body <= 0.5)%Q
      /\ run = OrderHandlers.executeOrder uuid body s
      /\ (fst run = Sent 200 (accepted uuid)
          \/ fst run
             = Refused 500 "Internal Server Error"
                 "Failed to submit order for execution")).
Proof.
  cbv zeta. unfold OrderExecutionServer.postExecute.
  destruct (OrderHandlers.bodySchema body) eqn:Es.
  - pose proof (bodySchema_valid body Es) as Hvalid.
    assert (Hcases :
      fst (OrderHandlers.executeOrder uuid body s) = Sent 200 (accepted uuid)
      \/ fst (OrderHandlers.executeOrder uuid body s)
         = Refused 500 "Internal Server Error"
             "Failed to submit order for execution").
    { rewrite executeOrder_valid by exact Hvalid.
      destruct (submitOrder _ (world s)) as [[[]|e] w'];
        [destruct (WsRoutes.registerWebSocketRoute _ _) as [[[]|e] s']|];
        simpl; auto. }
    split.
    { intros error message H. destruct Hcases as [Hc|Hc];
        rewrite Hc in H; discriminate. }
    split; [discriminate|]. intros _.
    destruct Hvalid as (Ha & Hlo & Hhi). auto.
  - split; [discriminate|]. split; [auto | discriminate].
Qed.

(** The least amount that the schema accepts is the double of the literal
    0.000001, which is below that decimal; it is positive, so the handler
    accepts it as well. *)
Example bodySchema_least_amount :
  OrderHandlers.bodySchema
    (mkRequest market "SOL" "USDC" (JsArith.literal 0.000001) 0.01 None)
  = true
  /\ (JsArith.literal 0.000001 < 0.000001)%Q
  /\ OrderHandlers.bodySchema
       (mkRequest market "SOL" "USDC" 0.0000009 0.01 None)
     = false
  /\ OrderHandlers.bodySchema
       (mkRequest market "SOL" "USDC" 1.5 0.6 None)
     = false
  /\ OrderHandlers.bodySchema
       (mkRequest market "" "USDC" 1.5 0.01 None)
     = false.
Proof.
  repeat match goal with |- _ /\ _ => split end; vm_compute; reflexivity.
Qed.

(** The row of an order that the handler built is stored with the status
    and the absence of data that the first transition writes. *)
Lemma order_of_row (uuid : string) (body : OrderExecutionRequest)
    (row : Order) :
  Pg.order_row (order_of uuid body) = Ok row ->
  Pg.set_status_data "pending" None row = row
  /\ row = {| id := uuid;
              type := req_type body;
              tokenIn := req_tokenIn body;
              tokenOut := req_tokenOut body;
              amountIn := amountIn row;
              slippage := slippage row;
              status := "pending";
              executionData := None;
              userId := req_userId body |}
  /\ Pg.numeric 20 8 (JsArith.toString (req_amountIn body))
     = Some (amountIn row)
  /\ Pg.numeric 5 4 (JsArith.toString (req_slippage body))
     = Some (slippage row).
Proof.
  intros Hrow.
  destruct (order_row_fields _ _ Hrow)
    as (H1 & H2 & H3 & H4 & H5 & H6 & H7 & H8 & H9).
  destruct row as [i t ti to a sl st d u]. simpl in *. subst.
  repeat split; assumption.
Qed.

(** X25.  On a request within bounds, a new id, columns that accept the
    order, stores that answer and a Fastify instance that accepts the
    route (one that is not yet listening: a started instance refuses new
    routes, which is the case of the next theorem), the submission handler
    replies 200 with status [pending] and the WebSocket URL of the order.
    The order is persisted as built from the request, with the amount and
    the slippage as their columns keep them; its log gains one [pending]
    event, a job of that id is queued, and the route [/ws/orders/<id>] of
    the reply has been registered. *)
Theorem executeOrder_accepts (uuid : string) (body : OrderExecutionRequest)
    (row : Order) (s : Server) (fastify : Fastify) :
  valid_request body ->
  faults (world s) = [] ->
  orders (world s) !! uuid = None ->
  Pg.order_row (order_of uuid body) = Ok row ->
  fastifyInstance s = Some fastify ->
  get_raises fastify = None ->
  let run := OrderHandlers.executeOrder uuid body s in
  fst run
  = Sent 200 {| oer_orderId := uuid;
                oer_status := "pending";
                oer_message := "Order submitted successfully";
                oer_websocketUrl := ("/ws/orders/" ++ uuid)%string |}
  /\ orders (world (snd run)) !! uuid
     = Some {| id := uuid;
               type := req_type body;
               tokenIn := req_tokenIn body;
               tokenOut := req_tokenOut body;
               amountIn := amountIn row;
               slippage := slippage row;
               status := "pending";
               executionData := None;
               userId := req_userId body |}
  /\ Pg.numeric 20 8 (JsArith.toString (req_amountIn body))
     = Some (amountIn row)
  /\ Pg.numeric 5 4 (JsArith.toString (req_slippage body))
     = Some (slippage row)
  /\ events_of uuid (world (snd run))
     = events_of uuid (world s)
       ++ [appended_event uuid pending None]
  /\ JobQueue.has_job uuid (queue (world (snd run))) = true
  /\ (get_calls <$> fastifyInstance (snd run))
     = Some (get_calls fastify ++ [("/ws/orders/" ++ uuid)%string]).
Proof.
  intros Hvalid Hf Hnone Hrow Hfi Hget. cbv zeta.
  destruct (order_of_row uuid body row Hrow) as (Hset & Hfields & Ha & Hs).
  rewrite executeOrder_valid by exact Hvalid.
  rewrite (SubmitFacts.submitOrder_run (order_of uuid body) row (world s)
             Hf Hnone Hrow).
  unfold WsRoutes.registerWebSocketRoute. simpl.
  rewrite Hfi, Hget. simpl.
  split; [reflexivity|].
  split.
  { rewrite lookup_alter_eq, lookup_insert_eq. simpl.
    rewrite Hset. now rewrite Hfields at 1. }
  split; [exact Ha|]. split; [exact Hs|].
  split.
  { unfold events_of. simpl. rewrite List.filter_app. simpl.
    now rewrite String.eqb_refl. }
  split; [|reflexivity].
  apply (SubmitFacts.has_job_queued (order_of uuid body)).
Qed.

Lemma executeOrder_accepts_witness :
  fst (OrderHandlers.executeOrder "test-order-123" test_request test_server)
  = Sent 200 (accepted "test-order-123").
Proof.
  refine (proj1 (executeOrder_accepts "test-order-123" test_request
                   test_row test_server
                   {| get_calls := []; get_raises := None |}
                   _ eq_refl eq_refl _ eq_refl eq_refl)).
  - repeat split; vm_compute; (discriminate || reflexivity).
  - vm_compute. reflexivity.
Defined.

(** X26.  The route is registered after the submission and nothing is
    undone when the registration throws (no Fastify instance set, or an
    instance that refuses new routes, as a listening one does): the client
    is told 500 "Failed to submit order for execution", and yet the order
    is persisted with status [pending] and its job queued, exactly as
    [submitOrder] left them. *)
Theorem executeOrder_commits_before_route_failure (uuid : string)
    (body : OrderExecutionRequest) (row : Order) (s : Server) :
  valid_request body ->
  faults (world s) = [] ->
  orders (world s) !! uuid = None ->
  Pg.order_row (order_of uuid body) = Ok row ->
  routes_refused s ->
  let run := OrderHandlers.executeOrder uuid body s in
  fst run
  = Refused 500 "Internal Server Error" "Failed to submit order for execution"
  /\ orders (world (snd run)) !! uuid
     = Some {| id := uuid;
               type := req_type body;
               tokenIn := req_tokenIn body;
               tokenOut := req_tokenOut body;
               amountIn := amountIn row;
               slippage := slippage row;
               status := "pending";
               executionData := None;
               userId := req_userId body |}
  /\ Pg.numeric 20 8 (JsArith.toString (req_amountIn body))
     = Some (amountIn row)
  /\ Pg.numeric 5 4 (JsArith.toString (req_slippage body))
     = Some (slippage row)
  /\ JobQueue.has_job uuid (queue (world (snd run))) = true
  /\ world (snd run) = snd (submitOrder (order_of uuid body) (world s)).
Proof.
  intros Hvalid Hf Hnone Hrow Hroutes. cbv zeta.
  destruct (order_of_row uuid body row Hrow) as (Hset & Hfields & Ha & Hs).
  rewrite executeOrder_valid by exact Hvalid.
  rewrite (SubmitFacts.submitOrder_run (order_of uuid body) row (world s)
             Hf Hnone Hrow).
  pose proof (SubmitFacts.has_job_queued (order_of uuid body)
                (queue (world s))) as Hq.
  assert (Hstored :
    alter (Pg.set_status_data "pending" None) uuid
      (<[uuid := row]> (orders (world s))) !! uuid
    = Some {| id := uuid;
              type := req_type body;
              tokenIn := req_tokenIn body;
              tokenOut := req_tokenOut body;
              amountIn := amountIn row;
              slippage := slippage row;
              status := "pending";
              executionData := None;
              userId := req_userId body |}).
  { rewrite lookup_alter_eq, lookup_insert_eq. simpl.
    rewrite Hset. now rewrite Hfields at 1. }
  unfold WsRoutes.registerWebSocketRoute, routes_refused in *. simpl.
  destruct (fastifyInstance s) as [fastify|]; simpl.
  - destruct Hroutes as [e He]. rewrite He. simpl.
    split; [reflexivity|]. split; [exact Hstored|].
    split; [exact Ha|]. split; [exact Hs|].
    split; [exact Hq | reflexivity].
  - split; [reflexivity|]. split; [exact Hstored|].
    split; [exact Ha|]. split; [exact Hs|].
    split; [exact Hq | reflexivity].
Qed.

Lemma executeOrder_commits_before_route_failure_witness :
  fst (OrderHandlers.executeOrder "test-order-123" test_request
         server_without_instance)
  = submission_failed.
Proof.
  refine (proj1 (executeOrder_commits_before_route_failure "test-order-123"
                   test_request test_row server_without_instance _ eq_refl
                   eq_refl _ I)).
  - repeat split; vm_compute; (discriminate || reflexivity).
  - vm_compute. reflexivity.
Defined.

(** X27.  The two read handlers (order status, events timeline) never
    throw and never change a store.  A 200 reply is only made for a
    persisted order and carries its stored status and execution data and
    exactly the events of that order id, oldest first.  When the two store
    calls answer, the reply is that 200 for a persisted order and 404
    otherwise. *)
Theorem status_handlers_report_the_store (orderId : string) (w : World) :
  let run := OrderHandlers.getOrderStatus orderId w in
  let timeline := OrderHandlers.getOrderEventsTimeline orderId w in
  same_stores w (snd run)
  /\ same_stores w (snd timeline)
  /\ (exists reply, fst run = Ok reply)
  /\ (exists reply, fst timeline = Ok reply)
  /\ (forall code payload, fst run = Ok (Sent code payload) ->
        code = 200%nat
        /\ exists order, orders w !! orderId = Some order
                         /\ payload = status_of orderId order w)
  /\ (forall code payload, fst timeline = Ok (Sent code payload) ->
        code = 200%nat
        /\ is_Some (orders w !! orderId)
        /\ payload = timeline_of orderId w)
  /\ (answers 2 w = true ->
      fst run
      = Ok match orders w !! orderId with
           | Some order => Sent 200 (status_of orderId order w)
           | None => not_found orderId
           end
      /\ fst timeline
         = Ok match orders w !! orderId with
              | Some _ => Sent 200 (timeline_of orderId w)
              | None => not_found orderId
              end).
Proof.
  cbv zeta. destruct w as [ch cs os evs rds q wsm fl].
  unfold OrderHandlers.getOrderStatus, OrderHandlers.getOrderEventsTimeline,
    getOrder, getOrderEvents, try_catch, Pg.select_order, Pg.select_events,
    bind, external, ret, throw, same_stores, events_of, answers, status_of,
    timeline_of, not_found.
  simpl.
  destruct fl as [|[e1|] [|[e2|] fl]]; simpl;
    destruct (os !! orderId) as [order|] eqn:E; simpl;
    repeat apply conj; try reflexivity; eauto;
    try discriminate;
    try (intros code payload [= <- <-]; eauto);
    try (intros code payload [=]);
    try (intros _; split; reflexivity).
Qed.

End HandlerFacts.

(** ** The health route *)

Module HealthFacts.
Import HandlerSpec HealthSpec.
Local Open Scope list_scope.

(** X28.  The health handler always replies with the report of its three
    checks (cache, database, queue, in this order), never with the reply of
    its [catch] block; each check is healthy exactly when its call
    answered, and carries the message of its rejection otherwise; the
    reply is 200 when the three are healthy and 503 otherwise; every check
    is made even after an earlier one failed, and no store is changed. *)
Theorem health_reports_each_check (w : World) :
  let run := MetricsHandlers.health w in
  let healthy := answers 3 w in
  fst run
  = Ok (HealthReport (if healthy then 200 else 503) healthy
          (check_at 0 w) (check_at 1 w) (check_at 2 w))
  /\ same_stores w (snd run)
  /\ faults (snd run) = List.skipn 3 (faults w)
  /\ (healthy = true
      <-> hc_healthy (check_at 0 w) = true
          /\ hc_healthy (check_at 1 w) = true
          /\ hc_healthy (check_at 2 w) = true).
Proof.
  cbv zeta. destruct w as [ch cs os evs rds q wsm fl].
  unfold MetricsHandlers.health, MetricsHandlers.settled,
    MetricsHandlers.ping, MetricsHandlers.select_1,
    MetricsHandlers.getJobCounts, try_catch, bind, external, ret,
    same_stores, answers, check_at.
  simpl.
  destruct fl as [|[e1|] [|[e2|] [|[e3|] fl]]]; simpl;
    try destruct e1; try destruct e2; try destruct e3; simpl;
    repeat apply conj; try reflexivity; try tauto;
    try (intros; discriminate); try (intros (? & ? & ?); discriminate).
Qed.

End HealthFacts.

(** ** From submission to confirmation *)

Module JourneyFacts.
Import JsNum EngineSpec ProcessSpec SubmitSpec SuccessSpec LedgerSpec
  EngineFacts OrderProcessor SuccessFacts LedgerFacts RouterFacts.
Local Open Scope list_scope.

(** X29.  End to end with the production router: an order with a new id
    and a positive slippage tolerance, which the columns of the table
    accept, is submitted, the worker processes the job that was queued,
    and (the stores answering, the draws in [[0, 1)]) the worker returns
    execution data with an executed price between
    [basePrice * (1 - slippage)] and [basePrice], a hash of 64 characters,
    the venue of the decision and no error; the stored order is
    [confirmed] with that data, its amount and slippage as the columns
    keep them; its log reads [pending], [routing], [building],
    [submitted], [confirmed], and one routing decision is recorded. *)
Theorem submitted_order_executes_within_slippage
    (rndR rndM rndX : RandomSource) (order row : Order) (w : World) :
  (forall i : nat, unit_interval (rndX i)) ->
  (0 < slippage order)%Q ->
  faults w = [] ->
  orders w !! id order = None ->
  Pg.order_row order = Ok row ->
  JobQueue.has_job (id order) (queue w) = false ->
  counters_ready w ->
  let submission := submitOrder order w in
  let run := Worker.process (mockDexRouter rndR rndM rndX) (job_of order)
               (snd submission) in
  fst submission = Ok tt
  /\ In (job_of order) (queue (snd submission))
  /\ exists data price txHash venue,
       fst run = Ok data
       /\ orders (snd run) !! id order
          = Some {| id := id order;
                    type := type order;
                    tokenIn := tokenIn order;
                    tokenOut := tokenOut order;
                    amountIn := amountIn row;
                    slippage := slippage row;
                    status := "confirmed";
                    executionData := Some data;
                    userId := userId order |}
       /\ Pg.numeric 20 8 (JsArith.toString (amountIn order))
          = Some (amountIn row)
       /\ Pg.numeric 5 4 (JsArith.toString (slippage order))
          = Some (slippage row)
       /\ ed_executedPrice data = Some price
       /\ (MockDexRouter.basePrice * (1 - slippage order) <= price
           /\ price <= MockDexRouter.basePrice)%Q
       /\ ed_txHash data = Some txHash
       /\ String.length txHash = 64%nat
       /\ ed_dex data = Some (dex_text venue)
       /\ ed_error data = None
       /\ List.map ev_status (events_of (id order) (snd run))
          = List.map ev_status (events_of (id order) w)
            ++ ["pending"; "routing"; "building"; "submitted";
                "confirmed"]%string
       /\ List.length (routing_decisions (snd run))
          = S (List.length (routing_decisions w)).
Proof.
  intros Hrnd Hs Hf Hnone Hrow Hq Hready. cbv zeta.
  destruct (Hrnd 1%nat) as [Hr0 Hr1].
  destruct (order_row_fields order row Hrow)
    as (H1 & H2 & H3 & H4 & H5 & H6 & H7 & H8 & H9).
  rewrite (SubmitFacts.submitOrder_run order row w Hf Hnone Hrow), Hq.
  cbn [fst snd].
  split; [reflexivity|].
  split; [simpl; apply List.in_or_app; right; left; reflexivity|].
  set (w1 := transitioned (id order) pending None _).
  pose proof (mock_router_answers rndR rndM rndX order) as Hans.
  cbv zeta in Hans.
  set (d := MockDexRouter.selectBestDex _ _ _) in Hans.
  set (result := MockDexRouter.executeSwap rndX (rd_dex d) order) in Hans.
  assert (Hready1 : counters_ready w1) by exact Hready.
  destruct (counters_ready_at w1 "stats:total_orders" Hready1)
    as (nt & Ht & Hnt); [simpl; tauto|].
  destruct (counters_ready_at w1 "stats:successful_orders" Hready1)
    as (ns & Hsu & Hns); [simpl; tauto|].
  destruct (counters_ready_at w1 (routed_key (rd_dex d)) Hready1)
    as (nr & Hr & Hnr); [destruct (rd_dex d); simpl; tauto|].
  assert (Hrow1 : orders w1 !! id order
                  = Some (Pg.set_status_data "pending" None row))
    by (unfold w1; simpl; now rewrite lookup_alter_eq, lookup_insert_eq).
  change (Worker.process (mockDexRouter rndR rndM rndX) (job_of order))
    with (processOrder (mockDexRouter rndR rndM rndX) order).
  rewrite (processOrder_run_confirmed (mockDexRouter rndR rndM rndX) order w1
             (Pg.set_status_data "pending" None row) d result nt ns nr);
    try assumption.
  assert (Hprice : (MockDexRouter.basePrice * (1 - slippage order)
                    <= sr_executedPrice result
                    /\ sr_executedPrice result <= MockDexRouter.basePrice)%Q).
  { assert (Hu0 : (0 <= rndX 1%nat * slippage order)%Q)
      by (apply Qmult_le_0_compat; [exact Hr0 | apply Qlt_le_weak, Hs]).
    assert (Hu1 : (rndX 1%nat * slippage order < slippage order)%Q).
    { apply Qlt_le_trans with (1 * slippage order)%Q.
      - apply Qmult_lt_compat_r; assumption.
      - rewrite Qmult_1_l. apply Qle_refl. }
    unfold result, MockDexRouter.executeSwap, MockDexRouter.basePrice.
    cbn [sr_executedPrice]. split; lra. }
  assert (Hlen : String.length (sr_txHash result) = 64%nat).
  { unfold result, MockDexRouter.executeSwap. cbn [sr_txHash].
    unfold MockDexRouter.generateMockTxHash.
    rewrite string_of_list_ascii_length, List.length_map. reflexivity. }
  exists (success_data d result), (sr_executedPrice result),
    (sr_txHash result), (rd_dex d).
  split; [reflexivity|].
  split.
  { unfold confirmed_world. simpl.
    rewrite !lookup_alter_eq, lookup_insert_eq.
    rewrite <- H1, <- H2, <- H3, <- H4, <- H9. reflexivity. }
  split; [exact H5|]. split; [exact H6|].
  split; [reflexivity|]. split; [exact Hprice|].
  split; [reflexivity|]. split; [exact Hlen|].
  split; [reflexivity|]. split; [reflexivity|].
  split.
  { unfold confirmed_world, events_of. simpl.
    rewrite !List.filter_app. simpl. rewrite String.eqb_refl.
    rewrite !List.map_app, <- !List.app_assoc. reflexivity. }
  unfold confirmed_world. simpl. rewrite List.length_app. simpl. lia.
Qed.

Lemma submitted_order_executes_within_slippage_witness :
  fst (submitOrder Fixtures.test_order empty_world) = Ok tt.
Proof.
  refine (proj1 (submitted_order_executes_within_slippage Fixtures.half
                   Fixtures.half Fixtures.half Fixtures.test_order test_row
                   empty_world _ eq_refl eq_refl eq_refl _ eq_refl
                   (counters_ready_fresh empty_world eq_refl))).
  - intros i; split; vm_compute; (discriminate || reflexivity).
  - vm_compute. reflexivity.
Defined.

End JourneyFacts.
